(** * Best-Fit: colour harmony, colour extraction and outfit generation

    A shallow embedding of [backend/app/services/color_service.py] and
    [backend/app/services/outfit_service.py], with the properties of the
    specification stated and settled against it.

    Python floats are IEEE 754 binary64 numbers; they are embedded as Rocq's
    primitive floats, so every arithmetic step below rounds exactly as the
    interpreter does.  Python integers are embedded as [Z]. *)

From Stdlib Require Import ZArith QArith Qround List Bool String Ascii Floats Lia Lqa.
From Stdlib Require Import Permutation Sorted.
Import ListNotations.

Set Warnings "-inexact-float".

(** ** Python's numeric primitives *)

Module PyFloat.

Open Scope float_scope.

(** [float(z)] for an integer: the float nearest to it. *)
Definition of_Z (z : Z) : float :=
  SF2Prim (binary_normalize prec emax z 0%Z false).

(** [a / b] on integers: the float nearest to the quotient.  The divisor is
    a non-zero constant at every use (Python raises on a zero divisor). *)
Definition truediv (a b : Z) : float :=
  let q (s : bool) (m : positive) : float :=
    match b with
    | Zpos d => SF2Prim (SFdiv prec emax (S754_finite s m 0) (S754_finite false d 0))
    | Zneg d => SF2Prim (SFdiv prec emax (S754_finite s m 0) (S754_finite true d 0))
    | Z0 => nan
    end in
  match a with
  | Z0 => match b with Zneg _ => neg_zero | Z0 => nan | Zpos _ => zero end
  | Zpos m => q false m
  | Zneg m => q true m
  end.

(** [max(a, b)] keeps its first argument unless a later one is strictly
    greater; [min(a, b)] keeps it unless a later one is strictly smaller. *)
Definition max2 (a b : float) : float := if a <? b then b else a.
Definition min2 (a b : float) : float := if b <? a then b else a.
Definition max3 (a b c : float) : float := max2 (max2 a b) c.
Definition min3 (a b c : float) : float := min2 (min2 a b) c.

(** A float other than NaN. *)
Definition not_nan (x : float) : Prop := Prim2SF x <> S754_nan.

(** The exact value of a finite float is [m * 2^e]; both helpers read it off
    the [spec_float] view. *)
Definition is_finite (x : float) : bool :=
  match Prim2SF x with
  | S754_zero _ | S754_finite _ _ _ => true
  | _ => false
  end.

(** [int(x)]: truncation toward zero; [None] where Python raises
    (NaN, infinities). *)
Definition to_int (x : float) : option Z :=
  match Prim2SF x with
  | S754_zero _ => Some 0%Z
  | S754_finite s m e =>
      let a := match e with
               | Z0 => Zpos m
               | Zpos p => Z.shiftl (Zpos m) (Zpos p)
               | Zneg p => Z.shiftr (Zpos m) (Zpos p)
               end in
      Some (if s then Z.opp a else a)
  | _ => None
  end.

(** C's [fmod]: the remainder of [x / y] with the sign of [x], computed
    without rounding. *)
Definition fmod (x y : float) : float :=
  match Prim2SF x, Prim2SF y with
  | S754_nan, _ | _, S754_nan => nan
  | S754_infinity _, _ => nan
  | _, S754_zero _ => nan
  | S754_zero _, _ => x
  | _, S754_infinity _ => x
  | S754_finite sx mx ex, S754_finite _ my ey =>
      let e := Z.min ex ey in
      let X := Z.shiftl (Zpos mx) (ex - e) in
      let Y := Z.shiftl (Zpos my) (ey - e) in
      match Z.modulo X Y with
      | Zpos r => SF2Prim (S754_finite sx r e)
      | _ => if sx then neg_zero else zero
      end
  end.

(** [x % y] on floats ([float_rem] of CPython): [fmod], then the result is
    moved to the sign of the divisor.  The divisor is a non-zero constant at
    every use (Python raises on a zero divisor). *)
Definition mod_ (x y : float) : float :=
  let m := fmod x y in
  if m =? 0 then (if y <? 0 then neg_zero else zero)
  else if xorb (y <? 0) (m <? 0) then m + y else m.

(** [round(x, 2)]: the exact value of [x] is rounded to the nearest multiple
    of 1/100, ties to even, and the nearest float to that decimal is
    returned. *)
Definition round_half_even (q : Q) : Z :=
  let f := Qfloor q in
  let r := (q - inject_Z f)%Q in
  match Qcompare r (1 # 2) with
  | Lt => f
  | Gt => (f + 1)%Z
  | Eq => if Z.even f then f else (f + 1)%Z
  end.

Definition exact (x : float) : Q :=
  match Prim2SF x with
  | S754_finite s m e =>
      let v := match e with
               | Z0 => inject_Z (Zpos m)
               | Zpos p => inject_Z (Z.shiftl (Zpos m) (Zpos p))
               | Zneg p => Qmake (Zpos m) (Pos.shiftl 1 (Npos p))
               end in
      if s then Qopp v else v
  | _ => 0%Q
  end.

Definition round2 (x : float) : float :=
  if is_finite x then
    let n := round_half_even (exact x * 100) in
    if (n =? 0)%Z then (if x <? 0 then neg_zero else x * 0)
    else truediv n 100
  else x.

End PyFloat.

(** ** The [colorsys] module of the standard library *)

Module Colorsys.

Open Scope float_scope.

Definition ONE_THIRD : float := 1 / 3.
Definition ONE_SIXTH : float := 1 / 6.
Definition TWO_THIRD : float := 2 / 3.

Definition rgb_to_hls (r g b : float) : float * float * float :=
  let maxc := PyFloat.max3 r g b in
  let minc := PyFloat.min3 r g b in
  let sumc := maxc + minc in
  let rangec := maxc - minc in
  let l := sumc / 2 in
  if minc =? maxc then (0, l, 0)
  else
    let s := if l <=? 0.5 then rangec / sumc
             else rangec / (2 - maxc - minc) in
    let rc := (maxc - r) / rangec in
    let gc := (maxc - g) / rangec in
    let bc := (maxc - b) / rangec in
    let h := if r =? maxc then bc - gc
             else if g =? maxc then 2 + rc - bc
             else 4 + gc - rc in
    (PyFloat.mod_ (h / 6) 1, l, s).

(** The call raises [ZeroDivisionError] where one of its divisors, [sumc]
    or [2 - maxc - minc] for the saturation and [rangec] for the hue, is
    zero; [rgb_to_hls] above is the value returned when it does not. *)
Definition divides_by_zero (maxc minc : float) : bool :=
  let sumc := maxc + minc in
  let rangec := maxc - minc in
  let l := sumc / 2 in
  if minc =? maxc then false
  else (if l <=? 0.5 then sumc =? 0 else 2 - maxc - minc =? 0)
       || (rangec =? 0).

Definition rgb_to_hls_raises (r g b : float) : bool :=
  divides_by_zero (PyFloat.max3 r g b) (PyFloat.min3 r g b).

Definition _v (m1 m2 hue : float) : float :=
  let hue := PyFloat.mod_ hue 1 in
  if hue <? ONE_SIXTH then m1 + (m2 - m1) * hue * 6
  else if hue <? 0.5 then m2
  else if hue <? TWO_THIRD then m1 + (m2 - m1) * (TWO_THIRD - hue) * 6
  else m1.

Definition hls_to_rgb (h l s : float) : float * float * float :=
  if s =? 0 then (l, l, l)
  else
    let m2 := if l <=? 0.5 then l * (1 + s) else l + s - (l * s) in
    let m1 := 2 * l - m2 in
    (_v m1 m2 (h + ONE_THIRD), _v m1 m2 h, _v m1 m2 (h - ONE_THIRD)).

End Colorsys.

(** ** [ColorHarmonyService] *)

(** An RGB triple [(r, g, b)] and an HSL triple [(hue, saturation, lightness)]. *)
Definition RGB : Type := (Z * Z * Z)%type.
Definition HSL : Type := (float * float * float)%type.

(** A colour whose three channels are within 0..255. *)
Definition in_gamut (c : RGB) : bool :=
  let '(r, g, b) := c in
  ((0 <=? r) && (r <=? 255) && (0 <=? g) && (g <=? 255)
   && (0 <=? b) && (b <=? 255))%Z.

(** The mantissa of the floats 360 = [M360 * 2^-44] and 180 = [M360 * 2^-45]. *)
Definition M360 : positive := 6333186975989760.

Module ColorHarmonyService.

Open Scope float_scope.

Definition rgb_to_hsl (c : RGB) : HSL :=
  let '(r0, g0, b0) := c in
  let r := PyFloat.truediv r0 255 in
  let g := PyFloat.truediv g0 255 in
  let b := PyFloat.truediv b0 255 in
  let '(h, l, s) := Colorsys.rgb_to_hls r g b in
  (h * 360, s * 100, l * 100).

(** [rgb_to_hsl] raises where one of its divisions does: [OverflowError]
    where a channel is too large for [x / 255] to be a float,
    [ZeroDivisionError] inside [colorsys.rgb_to_hls]. *)
Definition rgb_to_hsl_raises (c : RGB) : bool :=
  let '(r0, g0, b0) := c in
  let r := PyFloat.truediv r0 255 in
  let g := PyFloat.truediv g0 255 in
  let b := PyFloat.truediv b0 255 in
  is_infinity r || is_infinity g || is_infinity b
  || Colorsys.rgb_to_hls_raises r g b.

Definition hsl_to_rgb (c : HSL) : option RGB :=
  let '(h0, s0, l0) := c in
  let h := h0 / 360 in
  let s := s0 / 100 in
  let l := l0 / 100 in
  let '(r, g, b) := Colorsys.hls_to_rgb h l s in
  match PyFloat.to_int (r * 255), PyFloat.to_int (g * 255), PyFloat.to_int (b * 255) with
  | Some r', Some g', Some b' => Some (r', g', b')
  | _, _, _ => None
  end.

Definition rotate (c : RGB) (offset : float) : option RGB :=
  let '(h, s, l) := rgb_to_hsl c in
  let new_h := PyFloat.mod_ (h + offset) 360 in
  hsl_to_rgb (new_h, s, l).

Definition get_complementary (c : RGB) : option RGB := rotate c 180.

Definition hue (c : RGB) : float := fst (fst (rgb_to_hsl c)).

(** [h_diff = abs(h1 - h2); if h_diff > 180: h_diff = 360 - h_diff] *)
Definition hue_diff (h1 h2 : float) : float :=
  let h_diff := abs (h1 - h2) in
  if 180 <? h_diff then 360 - h_diff else h_diff.

(** One step of the pairwise loop: [score] after looking at a pair whose
    hue difference is [h_diff]. *)
Definition adjust (score h_diff : float) : float :=
  if (165 <=? h_diff) && (h_diff <=? 195) then score + 10
  else if h_diff <=? 45 then score + 5
  else if (105 <=? h_diff) && (h_diff <=? 135) then score + 8
  else if (60 <=? h_diff) && (h_diff <=? 90) then score - 15
  else score.

(** [for c2 in hsl_colors[i+1:]: ...] *)
Definition inner_loop (c1 : HSL) (rest : list HSL) (score : float) : float :=
  fold_left (fun sc c2 => adjust sc (hue_diff (fst (fst c1)) (fst (fst c2))))
            rest score.

(** [for i, c1 in enumerate(hsl_colors): ...] *)
Fixpoint outer_loop (hsl_colors : list HSL) (score : float) : float :=
  match hsl_colors with
  | [] => score
  | c1 :: rest => outer_loop rest (inner_loop c1 rest score)
  end.

(** [max(0, min(100, score))] *)
Definition clamp (score : float) : float :=
  PyFloat.max2 0 (PyFloat.min2 100 score).

Definition calculate_harmony_score (colors : list RGB) : float :=
  if (List.length colors <? 2)%nat then 100
  else
    let hsl_colors := map rgb_to_hsl colors in
    clamp (outer_loop hsl_colors 100).

(** The call raises where the conversion of one of two or more colours
    does. *)
Definition calculate_harmony_score_raises (colors : list RGB) : bool :=
  if (List.length colors <? 2)%nat then false
  else existsb rgb_to_hsl_raises colors.

Definition colors_match (rgb1 rgb2 : RGB) (scheme : string) (tolerance : float) : bool :=
  let '(h1, _, _) := rgb_to_hsl rgb1 in
  let '(h2, _, _) := rgb_to_hsl rgb2 in
  let h_diff := hue_diff h1 h2 in
  if String.eqb scheme "complementary" then
    let target := 180 in
    abs (h_diff - target) <=? tolerance
  else if String.eqb scheme "analogous" then
    h_diff <=? tolerance
  else if String.eqb scheme "triadic" then
    (abs (h_diff - 120) <=? tolerance) || (abs (h_diff - 240) <=? tolerance)
  else if String.eqb scheme "monochromatic" then
    h_diff <=? 15
  else true.

(** The default of the [tolerance] parameter. *)
Definition default_tolerance : float := 30.

End ColorHarmonyService.

(** ** The colour-harmony rules as the specification words them *)

Module HarmonySpec.

Open Scope float_scope.

(** Circular hue difference [d = min(|h1-h2|, 360-|h1-h2|)]. *)
Definition circular_hue_difference (h1 h2 : float) : float :=
  PyFloat.min2 (abs (h1 - h2)) (360 - abs (h1 - h2)).

(** The adjustment a pair contributes, [None] for no adjustment. *)
Definition pair_adjustment (d : float) : option float :=
  if (165 <=? d) && (d <=? 195) then Some 10
  else if d <=? 45 then Some 5
  else if (105 <=? d) && (d <=? 135) then Some 8
  else if (60 <=? d) && (d <=? 90) then Some (-15)
  else None.

(** Every unordered pair of a list, each once. *)
Fixpoint unordered_pairs {A : Type} (l : list A) : list (A * A) :=
  match l with
  | [] => []
  | x :: rest => map (pair x) rest ++ unordered_pairs rest
  end.

Definition add_adjustment (score : float) (p : RGB * RGB) : float :=
  let d := circular_hue_difference (ColorHarmonyService.hue (fst p))
                                   (ColorHarmonyService.hue (snd p)) in
  match pair_adjustment d with
  | Some a => score + a
  | None => score
  end.

(** Clamping to [[0,100]]. *)
Definition clamp_0_100 (x : float) : float :=
  if x <=? 0 then 0 else if 100 <=? x then 100 else x.

Definition harmonyScore (colors : list RGB) : float :=
  match colors with
  | [] | [_] => 100
  | _ => clamp_0_100 (fold_left add_adjustment (unordered_pairs colors) 100)
  end.

End HarmonySpec.

(** ** Python's list and dictionary primitives used by the outfit generator *)

Module PyList.

(** [itertools.product] over the lists [ls]: the first list varies slowest;
    no list at all gives the single empty tuple. *)
Fixpoint product {A : Type} (ls : list (list A)) : list (list A) :=
  match ls with
  | [] => [[]]
  | l :: rest => flat_map (fun x => map (cons x) (product rest)) l
  end.

(** [l[:k]] for an integer [k] of either sign. *)
Definition slice_to {A : Type} (l : list A) (k : Z) : list A :=
  if (0 <=? k)%Z then firstn (Z.to_nat k) l
  else firstn (List.length l - Z.to_nat (- k)) l.

Section Sort.
Context {A K : Type} (ltb : K -> K -> bool) (key : A -> K).

(** [l.sort(key=key, reverse=True)] is a stable sort into descending
    order.  Its result is the one of insertion from the right, where an
    element passes only the elements whose key is strictly greater. *)
Fixpoint insert_desc (x : A) (l : list A) : list A :=
  match l with
  | [] => [x]
  | y :: l' =>
      if ltb (key x) (key y) then y :: insert_desc x l'
      else x :: y :: l'
  end.

Definition sort_reverse (l : list A) : list A :=
  fold_right insert_desc [] l.

(** The order of the result: no element is directly followed by one whose
    key is strictly greater. *)
Definition descending (a b : A) : Prop := ltb (key a) (key b) = false.
End Sort.

(** A dictionary in insertion order. *)
Section Dict.
Context {K V : Type} (eqb : K -> K -> bool).

Fixpoint lookup (d : list (K * V)) (k : K) : option V :=
  match d with
  | [] => None
  | (k', v) :: d' => if eqb k' k then Some v else lookup d' k
  end.

Definition contains (d : list (K * V)) (k : K) : bool :=
  match lookup d k with Some _ => true | None => false end.

(** [d[k] = f(d[k])] for a key that is present, [d[k] = v0] otherwise. *)
Fixpoint upsert (d : list (K * V)) (k : K) (f : V -> V) (v0 : V) : list (K * V) :=
  match d with
  | [] => [(k, v0)]
  | (k', v) :: d' =>
      if eqb k' k then (k', f v) :: d' else (k', v) :: upsert d' k f v0
  end.
End Dict.

(** Truth value of an [Optional[str]]: [None] and the empty string are
    false. *)
Definition truthy (o : option string) : bool :=
  match o with
  | Some (String _ _) => true
  | _ => false
  end.

End PyList.

(** ** The data model ([app/models/clothing.py]) *)

Inductive ClothingCategory : Type :=
  TOP | BOTTOM | DRESS | OUTERWEAR | SHOES | ACCESSORY.

Inductive ClothingStyle : Type :=
  CASUAL | FORMAL | SPORTY | BUSINESS | EVENING | BOHEMIAN | STREETWEAR | VINTAGE.

Definition ClothingCategory_eq_dec (a b : ClothingCategory) : {a = b} + {a <> b}.
Proof. decide equality. Defined.

Definition ClothingStyle_eq_dec (a b : ClothingStyle) : {a = b} + {a <> b}.
Proof. decide equality. Defined.

Definition category_eqb (a b : ClothingCategory) : bool :=
  if ClothingCategory_eq_dec a b then true else false.

Definition style_eqb (a b : ClothingStyle) : bool :=
  if ClothingStyle_eq_dec a b then true else false.

(** [ColorInfo] *)
Record ColorInfo : Type := mkColorInfo {
  hex : string;
  rgb : RGB;
  name : string;
  percentage : float
}.

(** [ClothingItem] (the creation time stamp plays no part and is left out). *)
Record ClothingItem : Type := mkClothingItem {
  id : string;
  item_name : string;
  category : ClothingCategory;
  style : ClothingStyle;
  image_path : string;
  dominant_colors : list ColorInfo;
  tags : list string
}.

(** One suggestion, the dictionary built for every surviving tuple. *)
Record Suggestion : Type := mkSuggestion {
  items : list ClothingItem;
  color_harmony_score : float;
  style_compatibility_score : float;
  total_score : float;
  pattern : list ClothingCategory
}.

(** ** [OutfitGeneratorService] *)

Module OutfitGeneratorService.

Open Scope float_scope.

Definition OUTFIT_COMBINATIONS : list (list ClothingCategory) :=
  [ [TOP; BOTTOM];
    [TOP; BOTTOM; SHOES];
    [TOP; BOTTOM; OUTERWEAR];
    [TOP; BOTTOM; OUTERWEAR; SHOES];
    [DRESS];
    [DRESS; SHOES];
    [DRESS; OUTERWEAR];
    [DRESS; OUTERWEAR; SHOES] ].

Definition get_dominant_rgb (item : ClothingItem) : option RGB :=
  match dominant_colors item with
  | [] => None
  | c :: _ => Some (rgb c)
  end.

(** [[rgb for item in items if rgb]] *)
Fixpoint dominant_colors_of (l : list ClothingItem) : list RGB :=
  match l with
  | [] => []
  | item :: rest =>
      match get_dominant_rgb item with
      | Some c => c :: dominant_colors_of rest
      | None => dominant_colors_of rest
      end
  end.

Definition calculate_outfit_harmony (l : list ClothingItem) : float :=
  let colors := dominant_colors_of l in
  if (List.length colors <? 2)%nat then 100
  else ColorHarmonyService.calculate_harmony_score colors.

(** The call raises where [calculate_harmony_score] does. *)
Definition calculate_outfit_harmony_raises (l : list ClothingItem) : bool :=
  ColorHarmonyService.calculate_harmony_score_raises (dominant_colors_of l).

Definition compatible_pairs : list (ClothingStyle * ClothingStyle) :=
  [ (CASUAL, STREETWEAR);
    (FORMAL, BUSINESS);
    (EVENING, FORMAL);
    (BOHEMIAN, CASUAL);
    (SPORTY, CASUAL);
    (VINTAGE, BOHEMIAN) ].

Definition pair_in (p : ClothingStyle * ClothingStyle)
           (l : list (ClothingStyle * ClothingStyle)) : bool :=
  existsb (fun q => style_eqb (fst p) (fst q) && style_eqb (snd p) (snd q)) l.

(** [zip(styles, styles[1:])] *)
Definition adjacent {A : Type} (l : list A) : list (A * A) :=
  combine l (tl l).

Definition style_step (score : float) (p : ClothingStyle * ClothingStyle) : float :=
  let '(s1, s2) := p in
  if style_eqb s1 s2 then score + 10
  else if pair_in (s1, s2) compatible_pairs || pair_in (s2, s1) compatible_pairs
       then score + 5
       else score - 10.

Definition check_style_compatibility (l : list ClothingItem) : float :=
  match l with
  | [] => 0
  | _ =>
      let styles := map style l in
      if (List.length (nodup ClothingStyle_eq_dec styles) =? 1)%nat then 100
      else
        let score := fold_left style_step (adjacent styles) 50 in
        PyFloat.max2 0 (PyFloat.min2 100 score)
  end.

(** The dictionary appended to [suggestions] for one tuple. *)
Definition make_suggestion (outfit_items : list ClothingItem)
           (pat : list ClothingCategory) : Suggestion :=
  let harmony_score := calculate_outfit_harmony outfit_items in
  let style_score := check_style_compatibility outfit_items in
  let total := harmony_score * 0.6 + style_score * 0.4 in
  {| items := outfit_items;
     color_harmony_score := PyFloat.round2 harmony_score;
     style_compatibility_score := PyFloat.round2 style_score;
     total_score := PyFloat.round2 total;
     pattern := pat |}.

Definition by_category : Type := list (ClothingCategory * list ClothingItem).

(** Grouping loop of [generate_outfit_suggestions]. *)
Definition group_by_category (all_items : list ClothingItem) : by_category :=
  fold_left (fun d item =>
               PyList.upsert category_eqb d (category item)
                             (fun l => l ++ [item]) [item])
            all_items [].

Definition scheme_of (color_scheme : option string) : string :=
  match color_scheme with Some s => s | None => EmptyString end.

(** [item_rgb and colors_match(base_rgb, item_rgb, color_scheme)] *)
Definition matches_base (base_rgb : RGB) (scheme : string) (item : ClothingItem) : bool :=
  match get_dominant_rgb item with
  | Some item_rgb =>
      ColorHarmonyService.colors_match base_rgb item_rgb scheme
                                       ColorHarmonyService.default_tolerance
  | None => false
  end.

(** Narrowing of one category's options against the base colour. *)
Definition narrow_options (base_rgb : option RGB) (color_scheme : option string)
           (options : list ClothingItem) : list ClothingItem :=
  match base_rgb with
  | Some b =>
      if PyList.truthy color_scheme then
        let filtered := filter (matches_base b (scheme_of color_scheme)) options in
        match filtered with
        | [] => options
        | _ => filtered
        end
      else options
  | None => options
  end.

(** [category_options] of one pattern: one entry for every other category
    that is present in the dictionary. *)
Fixpoint base_category_options (base_rgb : option RGB) (color_scheme : option string)
         (items_by_category : by_category) (other_categories : list ClothingCategory)
  : list (list ClothingItem) :=
  match other_categories with
  | [] => []
  | cat :: rest =>
      match PyList.lookup category_eqb items_by_category cat with
      | Some options =>
          narrow_options base_rgb color_scheme options
          :: base_category_options base_rgb color_scheme items_by_category rest
      | None => base_category_options base_rgb color_scheme items_by_category rest
      end
  end.

Definition from_base_pattern (base_item : ClothingItem) (items_by_category : by_category)
           (color_scheme : option string) (pat : list ClothingCategory) : list Suggestion :=
  let base_rgb := get_dominant_rgb base_item in
  let other_categories :=
    filter (fun c => negb (category_eqb c (category base_item))) pat in
  let category_options :=
    base_category_options base_rgb color_scheme items_by_category other_categories in
  if (List.length category_options =? List.length other_categories)%nat then
    map (fun combo => make_suggestion (base_item :: combo) pat)
        (PyList.product category_options)
  else [].

Definition _generate_from_base (base_item : ClothingItem) (items_by_category : by_category)
           (color_scheme : option string) : list Suggestion :=
  let valid_patterns :=
    filter (fun pat => existsb (category_eqb (category base_item)) pat)
           OUTFIT_COMBINATIONS in
  flat_map (from_base_pattern base_item items_by_category color_scheme) valid_patterns.

(** The colour-scheme filter of the open mode: [false] where the loop
    executes [continue]. *)
Definition passes_scheme (color_scheme : option string)
           (outfit_items : list ClothingItem) : bool :=
  if PyList.truthy color_scheme then
    match dominant_colors_of outfit_items with
    | c0 :: c1 :: _ =>
        ColorHarmonyService.colors_match c0 c1 (scheme_of color_scheme)
                                         ColorHarmonyService.default_tolerance
    | _ => true
    end
  else true.

(** [[items_by_category[cat] for cat in pattern]], [None] unless every
    category of the pattern is present. *)
Fixpoint all_category_options (items_by_category : by_category)
         (pat : list ClothingCategory) : option (list (list ClothingItem)) :=
  match pat with
  | [] => Some []
  | cat :: rest =>
      match PyList.lookup category_eqb items_by_category cat,
            all_category_options items_by_category rest with
      | Some options, Some others => Some (options :: others)
      | _, _ => None
      end
  end.

Definition all_combinations_pattern (items_by_category : by_category)
           (color_scheme : option string) (pat : list ClothingCategory) : list Suggestion :=
  match all_category_options items_by_category pat with
  | Some category_options =>
      flat_map (fun combo =>
                  if passes_scheme color_scheme combo
                  then [make_suggestion combo pat]
                  else [])
               (PyList.product category_options)
  | None => []
  end.

Definition _generate_all_combinations (items_by_category : by_category)
           (color_scheme : option string) : list Suggestion :=
  flat_map (all_combinations_pattern items_by_category color_scheme)
           OUTFIT_COMBINATIONS.

(** [all_items] after the choice between request and storage. *)
Definition resolve_items (request storage : list ClothingItem) : list ClothingItem :=
  match request with
  | [] => storage
  | _ => request
  end.

(** The style filter with its fall-back. *)
Definition filter_by_style (style_ : option ClothingStyle)
           (all_items : list ClothingItem) : list ClothingItem :=
  match style_ with
  | Some st =>
      let filtered_items := filter (fun item => style_eqb (style item) st) all_items in
      match filtered_items with
      | [] => all_items
      | _ => filtered_items
      end
  | None => all_items
  end.

(** [suggestions] as it stands before the final sort. *)
Definition generated_candidates (all_items : list ClothingItem)
           (base_item_id : option string) (style_ : option ClothingStyle)
           (color_scheme : option string) : list Suggestion :=
  match all_items with
  | [] => []
  | _ =>
      let all_items := filter_by_style style_ all_items in
      let items_by_category := group_by_category all_items in
      match base_item_id with
      | Some (String a b) =>
          match find (fun item => String.eqb (id item) (String a b)) all_items with
          | Some base_item =>
              _generate_from_base base_item items_by_category color_scheme
          | None => []
          end
      | _ => _generate_all_combinations items_by_category color_scheme
      end
  end.

Definition generate_outfit_suggestions (request storage : list ClothingItem)
           (base_item_id : option string) (style_ : option ClothingStyle)
           (color_scheme : option string) (max_suggestions : Z) : list Suggestion :=
  let all_items := resolve_items request storage in
  match all_items with
  | [] => []
  | _ =>
      let suggestions :=
        generated_candidates all_items base_item_id style_ color_scheme in
      let suggestions := PyList.sort_reverse PrimFloat.ltb total_score suggestions in
      PyList.slice_to suggestions max_suggestions
  end.

End OutfitGeneratorService.

(** ** The outfit rules as the specification words them *)

Module StyleSpec.

Open Scope float_scope.

(** The fixed compatibility table, symmetric. *)
Definition compatible (a b : ClothingStyle) : bool :=
  match a, b with
  | CASUAL, STREETWEAR | STREETWEAR, CASUAL
  | FORMAL, BUSINESS | BUSINESS, FORMAL
  | EVENING, FORMAL | FORMAL, EVENING
  | BOHEMIAN, CASUAL | CASUAL, BOHEMIAN
  | SPORTY, CASUAL | CASUAL, SPORTY
  | VINTAGE, BOHEMIAN | BOHEMIAN, VINTAGE => true
  | _, _ => false
  end.

(** The walk over adjacent pairs, in list order. *)
Fixpoint walk (score : float) (styles : list ClothingStyle) : float :=
  match styles with
  | s1 :: ((s2 :: _) as rest) =>
      let score' := if style_eqb s1 s2 then score + 10
                    else if compatible s1 s2 then score + 5
                    else score - 10 in
      walk score' rest
  | _ => score
  end.

Definition share_one_style (l : list ClothingItem) : bool :=
  match l with
  | [] => true
  | item :: rest => forallb (fun i => style_eqb (style i) (style item)) rest
  end.

Definition styleScore (l : list ClothingItem) : float :=
  if share_one_style l then 100
  else HarmonySpec.clamp_0_100 (walk 50 (map style l)).

End StyleSpec.

Module OpenModeSpec.

(** The gate as the claim words it: the dominant colours of the first two
    items of the tuple.  [missing] is the answer where one of the two has no
    colour, [true] for "kept", [false] for "discarded". *)
Definition first_two_items_gate (missing : bool) (scheme : string)
           (combo : list ClothingItem) : bool :=
  match combo with
  | i0 :: i1 :: _ =>
      match OutfitGeneratorService.get_dominant_rgb i0,
            OutfitGeneratorService.get_dominant_rgb i1 with
      | Some c0, Some c1 =>
          ColorHarmonyService.colors_match c0 c1 scheme
                                           ColorHarmonyService.default_tolerance
      | _, _ => missing
      end
  | _ => true
  end.

Definition has_color (item : ClothingItem) : bool :=
  match dominant_colors item with
  | [] => false
  | _ => true
  end.

(** The gate on the first two items that have a dominant colour; a tuple
    with fewer than two of them is kept. *)
Definition first_two_colored_gate (scheme : string) (combo : list ClothingItem) : bool :=
  match filter has_color combo with
  | i0 :: i1 :: _ =>
      match OutfitGeneratorService.get_dominant_rgb i0,
            OutfitGeneratorService.get_dominant_rgb i1 with
      | Some c0, Some c1 =>
          ColorHarmonyService.colors_match c0 c1 scheme
                                           ColorHarmonyService.default_tolerance
      | _, _ => true
      end
  | _ => true
  end.

End OpenModeSpec.

(** ** [ColorExtractionService] *)

Module ColorExtractionService.

Open Scope float_scope.

Definition color_distance (c1 c2 : RGB) : float :=
  let '(r1, g1, b1) := c1 in
  let '(r2, g2, b2) := c2 in
  let rmean := PyFloat.truediv (r1 + r2) 2 in
  let dr := (r1 - r2)%Z in
  let dg := (g1 - g2)%Z in
  let db := (b1 - b2)%Z in
  sqrt ((2 + rmean / 256) * PyFloat.of_Z (dr ^ 2)
        + PyFloat.of_Z (4 * dg ^ 2)
        + (2 + (255 - rmean) / 256) * PyFloat.of_Z (db ^ 2)).

Definition _is_background_color (c : RGB) (threshold : Z) : bool :=
  let '(r, g, b) := c in
  if ((threshold <? r) && (threshold <? g) && (threshold <? b))%Z then true
  else if ((r <? 15) && (g <? 15) && (b <? 15))%Z then true
  else if ((230 <? r) && (230 <? g) && (230 <? b))%Z then true
  else false.

Definition default_threshold : Z := 240.

(** The filtering loop of [_filter_background_from_image] over the RGBA
    pixels of the resized image. *)
Definition filter_background (pixels : list (Z * Z * Z * Z)) : list RGB :=
  flat_map (fun pixel =>
              let '(r, g, b, a) := pixel in
              if (a <? 128)%Z then []
              else if negb (_is_background_color (r, g, b) default_threshold)
                   then [(r, g, b)] else [])
           pixels.

(** Index of the palette entry closest to [pixel]: the first minimum, and 0
    for an empty palette. *)
Fixpoint closest_from (pixel : RGB) (palette : list RGB) (idx : nat)
         (min_dist : float) (closest_idx : nat) : nat :=
  match palette with
  | [] => closest_idx
  | p_color :: rest =>
      let dist := color_distance pixel p_color in
      if dist <? min_dist then closest_from pixel rest (S idx) dist idx
      else closest_from pixel rest (S idx) min_dist closest_idx
  end.

Definition closest_index (pixel : RGB) (palette : list RGB) : nat :=
  closest_from pixel palette 0 infinity 0.

(** [color_counts[closest_idx] += 1]; [None] is the [KeyError] of an index
    that is not a key. *)
Fixpoint increment (counts : list Z) (i : nat) : option (list Z) :=
  match counts, i with
  | [], _ => None
  | c :: rest, O => Some ((c + 1)%Z :: rest)
  | c :: rest, S j =>
      match increment rest j with
      | Some rest' => Some (c :: rest')
      | None => None
      end
  end.

Fixpoint count_pixels (pixels : list RGB) (palette : list RGB)
         (counts : list Z) : option (list Z) :=
  match pixels with
  | [] => Some counts
  | pixel :: rest =>
      match increment counts (closest_index pixel palette) with
      | Some counts' => count_pixels rest palette counts'
      | None => None
      end
  end.

(** [round((count / total_pixels) * 100, 2)] *)
Definition percentage_of (count total_pixels : Z) : float :=
  let percentage := PyFloat.truediv count total_pixels * 100 in
  PyFloat.round2 percentage.

Definition hex_digit (n : Z) : string :=
  String (nth (Z.to_nat n)
              ["0"; "1"; "2"; "3"; "4"; "5"; "6"; "7";
               "8"; "9"; "a"; "b"; "c"; "d"; "e"; "f"]%char "0"%char)
         EmptyString.

Fixpoint hex_of (fuel : nat) (n : Z) : string :=
  match fuel with
  | O => EmptyString
  | S fuel' =>
      if (n <? 16)%Z then hex_digit n
      else (hex_of fuel' (n / 16) ++ hex_digit (n mod 16))%string
  end.

(** The format [{:02x}]. *)
Definition format_02x (n : Z) : string :=
  if (n <? 0)%Z then ("-" ++ hex_of (Z.to_nat (- n)) (- n))%string
  else if (n <? 16)%Z then ("0" ++ hex_digit n)%string
  else hex_of (Z.to_nat n) n.

Definition rgb_to_hex (c : RGB) : string :=
  let '(r, g, b) := c in
  ("#" ++ format_02x r ++ format_02x g ++ format_02x b)%string.

(** Padding loop [while len(valid_pixels) < needed_pixels: extend(...)];
    [None] when it does not come to an end. *)
Fixpoint pad_pixels (fuel : nat) (valid_pixels : list RGB) (needed : nat)
  : option (list RGB) :=
  if (List.length valid_pixels <? needed)%nat then
    match fuel with
    | O => None
    | S fuel' =>
        pad_pixels fuel'
                   (valid_pixels ++ firstn (needed - List.length valid_pixels) valid_pixels)
                   needed
    end
  else Some valid_pixels.

Section Extraction.

(** What the imaging libraries supply: a decoded image, its RGBA pixels
    after the resize to 150 x 150, the palette ColorThief computes for an
    image, the square RGB image written from a list of pixels, and the
    colour names. *)
Variable Image : Type.
Variable resized_rgba : Image -> list (Z * Z * Z * Z).
Variable get_palette : Image -> Z -> list RGB.
Variable image_of_pixels : Z -> list RGB -> Image.
Variable get_color_name : RGB -> string.

Definition _filter_background_from_image (img : Image) : list RGB :=
  filter_background (resized_rgba img).

(** Steps 2 and 3: the pixels that are counted and the palette. *)
Definition pixels_and_palette (img : Image) (num_colors : Z)
  : option (list RGB * list RGB) :=
  let valid_pixels := _filter_background_from_image img in
  if (List.length valid_pixels <? 100)%nat then
    Some (valid_pixels, get_palette img num_colors)
  else
    match PyFloat.to_int (sqrt (PyFloat.of_Z (Z.of_nat (List.length valid_pixels)))) with
    | None => None
    | Some size0 =>
        let size := if (size0 <? 10)%Z then 10%Z else size0 in
        let needed_pixels := Z.to_nat (size * size) in
        let padded :=
          if (needed_pixels <? List.length valid_pixels)%nat
          then Some (firstn needed_pixels valid_pixels)
          else pad_pixels needed_pixels valid_pixels needed_pixels in
        match padded with
        | None => None
        | Some valid_pixels' =>
            let temp_img := image_of_pixels size (firstn needed_pixels valid_pixels') in
            Some (valid_pixels', get_palette temp_img num_colors)
        end
    end.

Definition make_colors (filtered_palette : list RGB) (counts : list Z)
           (total_pixels : Z) : list ColorInfo :=
  map (fun p => let '(c, count) := p in
                {| hex := rgb_to_hex c;
                   rgb := c;
                   name := get_color_name c;
                   percentage := percentage_of count total_pixels |})
      (combine filtered_palette counts).

(** [extract_colors]; [None] stands for the [ValueError] it raises. *)
Definition extract_colors (img : Image) (num_colors : Z) : option (list ColorInfo) :=
  match pixels_and_palette img num_colors with
  | None => None
  | Some (valid_pixels, palette) =>
      let filtered_palette :=
        match filter (fun c => negb (_is_background_color c default_threshold)) palette with
        | [] => palette
        | l => l
        end in
      let total_pixels :=
        match valid_pixels with
        | [] => 1%Z
        | _ => Z.of_nat (List.length valid_pixels)
        end in
      let color_counts := map (fun _ => 0%Z) filtered_palette in
      match count_pixels valid_pixels filtered_palette color_counts with
      | None => None
      | Some counts =>
          let colors := make_colors filtered_palette counts total_pixels in
          let colors := PyList.sort_reverse PrimFloat.ltb percentage colors in
          Some (PyList.slice_to colors num_colors)
      end
  end.

End Extraction.

End ColorExtractionService.

(** ** Score tables

    The scores of a tuple of at most four garments are small integers; the
    checks below are run over ranges of integers to establish that the float
    operations of the scoring are exact there. *)

Module ScoreTables.

Open Scope float_scope.

Definition zrange (lo : Z) (n : nat) : list Z :=
  map (fun i => (lo + Z.of_nat i)%Z) (seq 0 n).

(** The hue differences the pairwise loop of [calculate_harmony_score] looks
    at, in its order. *)
Fixpoint pair_diffs (hsl_colors : list HSL) : list float :=
  match hsl_colors with
  | [] => []
  | c1 :: rest =>
      map (fun c2 => ColorHarmonyService.hue_diff (fst (fst c1)) (fst (fst c2))) rest
      ++ pair_diffs rest
  end.

Definition harmony_steps_exact (z : Z) : bool :=
  Leibniz.eqb (PyFloat.of_Z z + 10) (PyFloat.of_Z (z + 10))
  && Leibniz.eqb (PyFloat.of_Z z + 5) (PyFloat.of_Z (z + 5))
  && Leibniz.eqb (PyFloat.of_Z z + 8) (PyFloat.of_Z (z + 8))
  && Leibniz.eqb (PyFloat.of_Z z - 15) (PyFloat.of_Z (z - 15)).

Definition style_steps_exact (z : Z) : bool :=
  Leibniz.eqb (PyFloat.of_Z z + 10) (PyFloat.of_Z (z + 10))
  && Leibniz.eqb (PyFloat.of_Z z + 5) (PyFloat.of_Z (z + 5))
  && Leibniz.eqb (PyFloat.of_Z z - 10) (PyFloat.of_Z (z - 10)).

Definition clamp_exact (z : Z) : bool :=
  Leibniz.eqb (ColorHarmonyService.clamp (PyFloat.of_Z z))
              (PyFloat.of_Z (Z.max 0 (Z.min 100 z))).

Definition round2_fixed (z : Z) : bool :=
  Leibniz.eqb (PyFloat.round2 (PyFloat.of_Z z)) (PyFloat.of_Z z).

(** The total score computed from the integer scores [zh] and [zs] is a
    number (it compares equal to itself). *)
Definition total_defined (zh zs : Z) : bool :=
  let t := PyFloat.round2 (PyFloat.of_Z zh * 0.6 + PyFloat.of_Z zs * 0.4) in
  t =? t.

End ScoreTables.

(** ** Bounds on the value of a float *)

Module FloatBounds.

(** [x] is [+0], or a positive float [m * 2^e] with [- scale <= e] and
    [m * 2^(e + scale) <= bound]: its value is at most [bound / 2^scale]. *)
Definition at_most (x : spec_float) (scale bound : Z) : Prop :=
  x = S754_zero false
  \/ exists m e, x = S754_finite false m e
                 /\ (- scale <= e)%Z /\ (Zpos m * 2 ^ (e + scale) <= bound)%Z.

(** The float [round] returns for [n] hundredths lies in [[0,100]]. *)
Definition hundredths_in_range (n : Z) : bool :=
  let x := PyFloat.truediv n 100 in ((0 <=? x) && (x <=? 100))%float.

End FloatBounds.

(** ** The channels 0..255 as [rgb_to_hsl] scales them *)

Module UnitChannels.

Definition unit_channels : list float :=
  map (fun n => PyFloat.truediv n 255) (ScoreTables.zrange 0 256).

(** No division of [colorsys.rgb_to_hls] has a zero divisor when the largest
    and the smallest channel are [maxc] and [minc]. *)
Definition pair_safe (maxc minc : float) : bool :=
  negb (Colorsys.divides_by_zero maxc minc).

Definition all_finite : bool := forallb (fun x => negb (is_infinity x)) unit_channels.

Definition all_safe : bool :=
  forallb (fun maxc => forallb (pair_safe maxc) unit_channels) unit_channels.

End UnitChannels.

(** ** Example garments *)

Module Examples.

Open Scope string_scope.

Definition red : RGB := (255, 0, 0)%Z.
Definition yellow : RGB := (255, 255, 0)%Z.

(** A top without extracted colours, a red bottom, yellow shoes. *)
Definition plain_top : ClothingItem :=
  mkClothingItem "t1" "plain tee" TOP CASUAL "t1.png" [] [].

Definition red_bottom : ClothingItem :=
  mkClothingItem "b1" "red skirt" BOTTOM CASUAL "b1.png"
                 [mkColorInfo "#ff0000" red "red" 100%float] [].

Definition yellow_shoes : ClothingItem :=
  mkClothingItem "s1" "yellow sneakers" SHOES CASUAL "s1.png"
                 [mkColorInfo "#ffff00" yellow "yellow" 100%float] [].

Definition closet : list ClothingItem := [plain_top; red_bottom; yellow_shoes].

(** A decoded image given by its RGBA pixels: 120 red, 30 white and 40 blue
    pixels; a stand-in for the palette extraction that always answers blue,
    a red and white, and for the writing of the square image. *)
Definition image : list (Z * Z * Z * Z) :=
  (repeat (255, 0, 0, 255)%Z 120 ++ repeat (255, 255, 255, 255)%Z 30
   ++ repeat (0, 0, 200, 255)%Z 40)%list.

Definition fixed_palette (_ : list (Z * Z * Z * Z)) (_ : Z) : list RGB :=
  [(0, 0, 200); (250, 5, 5); (255, 255, 255)]%Z.

Definition square_image (_ : Z) (pixels : list RGB) : list (Z * Z * Z * Z) :=
  map (fun c : RGB => let '(r, g, b) := c in (r, g, b, 255%Z)) pixels.

Definition no_name (_ : RGB) : string := "unnamed".

Definition extracted : option (list ColorInfo) :=
  ColorExtractionService.extract_colors
    (list (Z * Z * Z * Z)) (fun img => img) fixed_palette square_image no_name image 2.

End Examples.

(** ** The colour wheel ([get_analogous], [get_triadic]) *)

Module ColorWheel.

Open Scope float_scope.

(** [[hsl_to_rgb(((h + offset) % 360, s, l)) for offset in offsets]];
    [None] where a conversion raises. *)
Fixpoint rotations (c : RGB) (offsets : list float) : option (list RGB) :=
  match offsets with
  | [] => Some []
  | offset :: rest =>
      match ColorHarmonyService.rotate c offset with
      | Some x =>
          match rotations c rest with
          | Some l => Some (x :: l)
          | None => None
          end
      | None => None
      end
  end.

Definition get_analogous (c : RGB) : option (list RGB) := rotations c [-30; 30].

Definition get_triadic (c : RGB) : option (list RGB) := rotations c [120; 240].

End ColorWheel.

(** ** Colour names ([ColorExtractionService.get_color_name]) *)

Module ColorNames.

Open Scope string_scope.

Definition EXTENDED_COLORS : list (RGB * string) :=
  [
    ((0, 0, 0)%Z, "black");
    ((255, 255, 255)%Z, "white");
    ((128, 128, 128)%Z, "gray");
    ((192, 192, 192)%Z, "silver");
    ((255, 0, 0)%Z, "red");
    ((128, 0, 0)%Z, "maroon");
    ((255, 165, 0)%Z, "orange");
    ((255, 215, 0)%Z, "gold");
    ((255, 255, 0)%Z, "yellow");
    ((128, 128, 0)%Z, "olive");
    ((0, 255, 0)%Z, "lime");
    ((0, 128, 0)%Z, "green");
    ((0, 255, 255)%Z, "cyan");
    ((0, 128, 128)%Z, "teal");
    ((0, 0, 255)%Z, "blue");
    ((0, 0, 128)%Z, "navy");
    ((255, 0, 255)%Z, "magenta");
    ((128, 0, 128)%Z, "purple");
    ((255, 192, 203)%Z, "pink");
    ((165, 42, 42)%Z, "brown");
    ((245, 245, 220)%Z, "beige");
    ((210, 180, 140)%Z, "tan");
    ((255, 127, 80)%Z, "coral");
    ((75, 0, 130)%Z, "indigo");
    ((230, 230, 250)%Z, "lavender");
    ((245, 245, 245)%Z, "off-white");
    ((47, 79, 79)%Z, "dark slate");
    ((70, 130, 180)%Z, "steel blue");
    ((178, 34, 34)%Z, "firebrick");
    ((220, 20, 60)%Z, "crimson");
    ((255, 99, 71)%Z, "tomato");
    ((250, 128, 114)%Z, "salmon");
    ((255, 218, 185)%Z, "peach");
    ((240, 230, 140)%Z, "khaki");
    ((189, 183, 107)%Z, "dark khaki");
    ((144, 238, 144)%Z, "light green");
    ((34, 139, 34)%Z, "forest green");
    ((0, 100, 0)%Z, "dark green");
    ((143, 188, 143)%Z, "dark sea green");
    ((135, 206, 235)%Z, "sky blue");
    ((173, 216, 230)%Z, "light blue");
    ((100, 149, 237)%Z, "cornflower blue");
    ((65, 105, 225)%Z, "royal blue");
    ((25, 25, 112)%Z, "midnight blue");
    ((138, 43, 226)%Z, "blue violet");
    ((148, 0, 211)%Z, "dark violet");
    ((218, 112, 214)%Z, "orchid");
    ((255, 20, 147)%Z, "deep pink");
    ((199, 21, 133)%Z, "medium violet red");
    ((139, 69, 19)%Z, "saddle brown");
    ((160, 82, 45)%Z, "sienna");
    ((210, 105, 30)%Z, "chocolate");
    ((205, 133, 63)%Z, "peru");
    ((244, 164, 96)%Z, "sandy brown");
    ((222, 184, 135)%Z, "burlywood");
    ((112, 128, 144)%Z, "slate gray");
    ((119, 136, 153)%Z, "light slate gray");
    ((105, 105, 105)%Z, "dim gray");
    ((169, 169, 169)%Z, "dark gray");
    ((211, 211, 211)%Z, "light gray")
  ].

Definition rgb_eqb (a b : RGB) : bool :=
  let '(r1, g1, b1) := a in
  let '(r2, g2, b2) := b in
  ((r1 =? r2) && (g1 =? g2) && (b1 =? b2))%Z.

(** The search loop over the entries of the table, in their order. *)
Fixpoint closest_from (rgb : RGB) (entries : list (RGB * string))
         (min_distance : float) (closest_name : string) : string :=
  match entries with
  | [] => closest_name
  | (color_rgb, name) :: rest =>
      let distance := ColorExtractionService.color_distance rgb color_rgb in
      if (distance <? min_distance)%float then closest_from rgb rest distance name
      else closest_from rgb rest min_distance closest_name
  end.

Definition closest_extended (rgb : RGB) : string :=
  closest_from rgb EXTENDED_COLORS infinity "unknown".

Section Names.

(** [webcolors.rgb_to_name]; [None] is its [ValueError]. *)
Variable rgb_to_name : RGB -> option string.

(** [self.color_cache], a dictionary from colours to names. *)
Definition color_cache : Type := list (RGB * string).

Definition store (cache : color_cache) (rgb : RGB) (name : string) : color_cache :=
  PyList.upsert rgb_eqb cache rgb (fun _ => name) name.

(** [get_color_name]: the name and the cache it leaves. *)
Definition get_color_name (cache : color_cache) (rgb : RGB) : string * color_cache :=
  match PyList.lookup rgb_eqb cache rgb with
  | Some name => (name, cache)
  | None =>
      match rgb_to_name rgb with
      | Some name => (name, store cache rgb name)
      | None =>
          let closest_name := closest_extended rgb in
          (closest_name, store cache rgb closest_name)
      end
  end.

End Names.

End ColorNames.

(** ** The colour routes ([app/routers/colors.py])

    A Python string is read as the list of its characters; the characters
    are those with a code point below 256. *)

Module ColorsRouter.

Open Scope char_scope.

(** White space as [int] sees it. *)
Definition is_space (c : ascii) : bool :=
  let n := N_of_ascii c in
  ((9 <=? n) && (n <=? 13) || (n =? 32) || (n =? 133) || (n =? 160))%N.

Fixpoint lstrip_char (ch : ascii) (s : string) : string :=
  match s with
  | String c rest => if Ascii.eqb c ch then lstrip_char ch rest else s
  | EmptyString => s
  end.

(** [s[i:i+2]] *)
Definition slice2 (s : string) (i : nat) : string := substring i 2 s.

(** The value of a digit in base 16. *)
Definition digit_value (c : ascii) : option Z :=
  let n := N_of_ascii c in
  if ((48 <=? n) && (n <=? 57))%N then Some (Z.of_N n - 48)%Z
  else if ((97 <=? n) && (n <=? 102))%N then Some (Z.of_N n - 87)%Z
  else if ((65 <=? n) && (n <=? 70))%N then Some (Z.of_N n - 55)%Z
  else None.

Fixpoint skip_spaces (s : string) : string :=
  match s with
  | String c rest => if is_space c then skip_spaces rest else s
  | EmptyString => s
  end.

(** The digits of the literal, single underscores between them allowed, then
    white space to the end of the string.  [prev] tells whether the last
    character read was an underscore, [seen] whether a digit was read. *)
Fixpoint digits16 (s : string) (prev seen : bool) (acc : Z) : option Z :=
  match s with
  | EmptyString => if prev || negb seen then None else Some acc
  | String c rest =>
      if Ascii.eqb c "_" then
        if prev then None else digits16 rest true seen acc
      else
        match digit_value c with
        | Some d => digits16 rest false true (16 * acc + d)%Z
        | None =>
            if prev || negb seen then None
            else match skip_spaces s with
                 | EmptyString => Some acc
                 | _ => None
                 end
        end
  end.

(** [int(s, 16)]; [None] is its [ValueError]. *)
Definition int16 (s : string) : option Z :=
  let s := skip_spaces s in
  let '(negative, s) :=
    match s with
    | String "+" rest => (false, rest)
    | String "-" rest => (true, rest)
    | _ => (false, s)
    end in
  let s :=
    match s with
    | String "0" (String x rest) =>
        if Ascii.eqb x "x" || Ascii.eqb x "X" then
          match rest with
          | String "_" rest' => rest'
          | _ => rest
          end
        else s
    | _ => s
    end in
  match s with
  | String "_" _ => None
  | _ =>
      match digits16 s false false 0 with
      | Some v => Some (if negative then (- v)%Z else v)
      | None => None
      end
  end.

(** [tuple(int(hex_color[i:i+2], 16) for i in (0, 2, 4))] after
    [hex_color.lstrip('#')]; [None] where the route answers 400. *)
Definition parse_hex (hex_color : string) : option RGB :=
  let hex_color := lstrip_char "#" hex_color in
  match int16 (slice2 hex_color 0), int16 (slice2 hex_color 2), int16 (slice2 hex_color 4) with
  | Some r, Some g, Some b => Some (r, g, b)
  | _, _, _ => None
  end.

Open Scope string_scope.

(** The rating of [calculate_harmony_score]. *)
Definition rating (score : float) : string :=
  if (80 <=? score)%float then "Excellent"
  else if (60 <=? score)%float then "Good"
  else if (40 <=? score)%float then "Fair"
  else "Poor".

(** The answer of a route: the value it returns, or the status of the
    error it answers with (that of the [HTTPException] raised, 500 for any
    other exception). *)
Inductive Response (A : Type) : Type :=
| Returns (a : A)
| Raises (status_code : Z).

Arguments Returns {A} a.
Arguments Raises {A} status_code.

Fixpoint parse_all (colors : list string) : option (list RGB) :=
  match colors with
  | [] => Some []
  | hex_color :: rest =>
      match parse_hex hex_color with
      | Some rgb =>
          match parse_all rest with
          | Some l => Some (rgb :: l)
          | None => None
          end
      | None => None
      end
  end.

(** [POST /harmony/score]: the rounded score and the rating.  The score is
    computed outside the [try]: where [calculate_harmony_score] raises, the
    exception is not an [HTTPException] and the answer has status 500. *)
Definition calculate_harmony_score (colors : list string) : Response (float * string) :=
  if (List.length colors <? 2)%nat then Raises 400
  else
    match parse_all colors with
    | None => Raises 400
    | Some rgb_colors =>
        if ColorHarmonyService.calculate_harmony_score_raises rgb_colors then Raises 500
        else
          let score := ColorHarmonyService.calculate_harmony_score rgb_colors in
          Returns (PyFloat.round2 score, rating score)
    end.

End ColorsRouter.

(** ** Checks run over the channel values and the characters

    The channel values 0..255 and the strings of at most two characters are
    few; the checks below are evaluated on each of them. *)

Module ChannelTables.

Open Scope string_scope.

(** A digit of lower-case hexadecimal notation. *)
Definition is_lower_hex (c : ascii) : bool :=
  let n := N_of_ascii c in
  ((48 <=? n) && (n <=? 57) || (97 <=? n) && (n <=? 102))%N.

Definition option_Z_eqb (a b : option Z) : bool :=
  match a, b with
  | Some x, Some y => (x =? y)%Z
  | None, None => true
  | _, _ => false
  end.

(** [format_02x n] is two lower-case digits that [int16] reads back as [n]. *)
Definition channel_round_trip (n : Z) : bool :=
  match ColorExtractionService.format_02x n with
  | String a (String b EmptyString) =>
      is_lower_hex a && is_lower_hex b
      && option_Z_eqb (ColorsRouter.int16 (String a (String b EmptyString))) (Some n)
  | _ => false
  end.

(** What [int16] reads from a string lies between -15 and 255. *)
Definition read_in_range (s : string) : bool :=
  match ColorsRouter.int16 s with
  | Some v => ((-15 <=? v) && (v <=? 255))%Z
  | None => true
  end.

(** The 256 characters. *)
Definition characters : list ascii :=
  Eval vm_compute in map ascii_of_nat (seq 0 256).

(** The characters a literal can begin with: white space, a sign, a digit. *)
Definition can_start (a : ascii) : bool :=
  ColorsRouter.is_space a || Ascii.eqb a "+" || Ascii.eqb a "-"
  || match ColorsRouter.digit_value a with Some _ => true | None => false end.

Definition two_chars_in_range (a : ascii) : bool :=
  if can_start a
  then forallb (fun b => read_in_range (String a (String b EmptyString))) characters
  else true.

Definition one_char_in_range (a : ascii) : bool :=
  read_in_range (String a EmptyString).

Definition option_RGB_eqb (a : option RGB) (b : RGB) : bool :=
  match a with
  | Some x => ColorNames.rgb_eqb x b
  | None => false
  end.

Definition option_pair_eqb (a : option (list RGB)) (b : RGB) : bool :=
  match a with
  | Some [x; y] => ColorNames.rgb_eqb x b && ColorNames.rgb_eqb y b
  | _ => false
  end.

(** The grey of level [v] comes back from the HSL round trip as a grey of
    level [v] or [v - 1], and every rotation of its hue gives that grey. *)
Definition grey_fixed (v : Z) : bool :=
  match ColorHarmonyService.hsl_to_rgb (ColorHarmonyService.rgb_to_hsl (v, v, v)) with
  | Some (r, g, b) =>
      ((r =? g) && (g =? b) && ((r =? v) || (r =? v - 1)))%Z
      && option_RGB_eqb (ColorHarmonyService.get_complementary (v, v, v)) (r, g, b)
      && option_pair_eqb (ColorWheel.get_analogous (v, v, v)) (r, g, b)
      && option_pair_eqb (ColorWheel.get_triadic (v, v, v)) (r, g, b)
  | None => false
  end.

End ChannelTables.

(** ** The pairwise sum of [calculate_harmony_score] over the integers *)

Module PairSums.

Open Scope float_scope.

(** What the pairwise loop adds to the score for a pair whose hue
    difference is [h_diff]. *)
Definition adjustment (h_diff : float) : Z :=
  if (165 <=? h_diff) && (h_diff <=? 195) then 10%Z
  else if h_diff <=? 45 then 5%Z
  else if (105 <=? h_diff) && (h_diff <=? 135) then 8%Z
  else if (60 <=? h_diff) && (h_diff <=? 90) then (-15)%Z
  else 0%Z.

Definition pair_adjustment (c1 c2 : RGB) : Z :=
  adjustment (ColorHarmonyService.hue_diff (ColorHarmonyService.hue c1)
                                           (ColorHarmonyService.hue c2)).

Definition total (l : list Z) : Z := fold_right Z.add 0%Z l.

(** The sum of the adjustments of all unordered pairs. *)
Fixpoint pair_sum (colors : list RGB) : Z :=
  match colors with
  | [] => 0%Z
  | c :: rest => (total (map (pair_adjustment c) rest) + pair_sum rest)%Z
  end.

End PairSums.

(** ** Range of the scores of a candidate *)

Module ScoreRanges.

Open Scope float_scope.

Definition in_range (x : float) : bool := (0 <=? x) && (x <=? 100).

(** The total score computed from the integer scores [zh] and [zs] lies
    between 0 and 100, and so do the two scores. *)
Definition total_in_range (zh zs : Z) : bool :=
  in_range (PyFloat.round2 (PyFloat.of_Z zh * 0.6 + PyFloat.of_Z zs * 0.4)).

Definition score_in_range (z : Z) : bool := in_range (PyFloat.of_Z z).

End ScoreRanges.

(** ** Counting the tuples of the open mode *)

Module OutfitCounts.

(** The number of garments of a category. *)
Definition count (cat : ClothingCategory) (all_items : list ClothingItem) : nat :=
  List.length (filter (fun item => category_eqb (category item) cat) all_items).

(** The number of tuples of a pattern: one garment for every category. *)
Definition tuples (all_items : list ClothingItem) (pat : list ClothingCategory) : nat :=
  fold_right Nat.mul 1%nat (map (fun cat => count cat all_items) pat).

(** The colour of the garment that the harmony score reads, if it has one,
    has its channels within 0..255. *)
Definition colour_in_gamut (item : ClothingItem) : bool :=
  match OutfitGeneratorService.get_dominant_rgb item with
  | Some c => in_gamut c
  | None => true
  end.

Definition combinations (all_items : list ClothingItem) : nat :=
  fold_right Nat.add 0%nat
             (map (tuples all_items) OutfitGeneratorService.OUTFIT_COMBINATIONS).

End OutfitCounts.

(** ** More example garments *)

Module Wardrobe.

Open Scope string_scope.

(** A formal top, formal trousers and a scarf, beside the casual garments
    of [Examples]. *)
Definition formal_top : ClothingItem :=
  mkClothingItem "t2" "white shirt" TOP FORMAL "t2.png" [] [].

Definition formal_trousers : ClothingItem :=
  mkClothingItem "b2" "suit trousers" BOTTOM FORMAL "b2.png" [] [].

Definition scarf : ClothingItem :=
  mkClothingItem "a1" "scarf" ACCESSORY CASUAL "a1.png" [] [].

Definition mixed : list ClothingItem :=
  [Examples.plain_top; Examples.red_bottom; formal_top; formal_trousers; scarf].

End Wardrobe.

(** ** The closet routes ([app/routers/closet.py]): the tags of a garment *)

Module ClosetRouter.

Open Scope string_scope.

(** White space as [str.strip] sees it. *)
Definition is_whitespace (c : ascii) : bool :=
  let n := N_of_ascii c in
  ((9 <=? n) && (n <=? 13) || (28 <=? n) && (n <=? 32) || (n =? 133) || (n =? 160))%N.

Fixpoint lstrip (s : string) : string :=
  match s with
  | String c rest => if is_whitespace c then lstrip rest else s
  | EmptyString => s
  end.

Fixpoint rstrip (s : string) : string :=
  match s with
  | EmptyString => EmptyString
  | String c rest =>
      match rstrip rest with
      | EmptyString => if is_whitespace c then EmptyString else String c EmptyString
      | r => String c r
      end
  end.

(** [t.strip()] *)
Definition strip (t : string) : string := rstrip (lstrip t).

(** [s.split(sep)] for a separator of one character. *)
Fixpoint split (sep : ascii) (s : string) : list string :=
  match s with
  | EmptyString => [EmptyString]
  | String c rest =>
      if Ascii.eqb c sep then EmptyString :: split sep rest
      else match split sep rest with
           | piece :: pieces => String c piece :: pieces
           | [] => [String c EmptyString]
           end
  end.

(** [[t.strip() for t in tags.split(',') if t.strip()] if tags else []] *)
Definition parse_tags (tags : string) : list string :=
  match tags with
  | EmptyString => []
  | _ =>
      flat_map (fun t => match strip t with
                         | EmptyString => []
                         | stripped => [stripped]
                         end)
               (split "," tags)
  end.

End ClosetRouter.

(** * Facts about binary64 arithmetic

    The primitive operations are specified by [FloatAxioms] through the
    [spec_float] view; the lemmas below analyse that specification. *)

Section SpecFloatFacts.

Local Open Scope Z_scope.

Lemma digits2_pos_size p : digits2_pos p = Pos.size p.
Proof. induction p; simpl; congruence. Qed.

Lemma digits2_lower p : 2 ^ (Zpos (digits2_pos p) - 1) <= Zpos p.
Proof.
  rewrite digits2_pos_size.
  pose proof (Pos.size_le p) as H.
  assert (Hs : Zpos (Pos.size p) = Z.succ (Zpos (Pos.size p) - 1)) by lia.
  assert (2 ^ Zpos (Pos.size p) <= 2 * Zpos p).
  { change (2 * Zpos p) with (Zpos p~0). rewrite <- Pos2Z.inj_pow. apply Pos2Z.pos_le_pos. exact H. }
  rewrite Hs in H0. rewrite Z.pow_succ_r in H0 by lia. lia.
Qed.

Lemma digits2_upper p : Zpos p < 2 ^ Zpos (digits2_pos p).
Proof.
  rewrite digits2_pos_size.
  pose proof (Pos.size_gt p) as H.
  rewrite <- Pos2Z.inj_pow. apply Pos2Z.pos_lt_pos. exact H.
Qed.

Lemma digits2_le_iff p n : 0 <= n -> (Zpos (digits2_pos p) <= n <-> Zpos p < 2 ^ n).
Proof.
  intros Hn. split; intros H.
  - eapply Z.lt_le_trans; [apply digits2_upper|]. apply Z.pow_le_mono_r; lia.
  - destruct (Z.le_gt_cases (Zpos (digits2_pos p)) n) as [|Hgt]; [assumption|].
    exfalso. pose proof (digits2_lower p).
    assert (2 ^ n <= 2 ^ (Zpos (digits2_pos p) - 1)) by (apply Z.pow_le_mono_r; lia).
    lia.
Qed.

Lemma iter_xO_mul p k : Zpos (Pos.iter xO p k) = Zpos p * 2 ^ Zpos k.
Proof.
  induction k using Pos.peano_ind.
  - simpl. lia.
  - rewrite Pos.iter_succ. rewrite Pos2Z.inj_xO, IHk.
    rewrite Pos2Z.inj_succ, Z.pow_succ_r by lia. lia.
Qed.

Lemma digits2_iter_xO p k : digits2_pos (Pos.iter xO p k) = (digits2_pos p + k)%positive.
Proof.
  induction k using Pos.peano_ind.
  - simpl. lia.
  - rewrite Pos.iter_succ. simpl. rewrite IHk. lia.
Qed.

Lemma div2pow_nonneg a n : 0 <= a -> 0 <= a / 2 ^ n.
Proof.
  intros Ha. destruct (Z.lt_ge_cases n 0) as [Hn|Hn].
  - rewrite Z.pow_neg_r by assumption. rewrite Z.div_0_r. lia.
  - apply Z.div_pos; [assumption|apply Z.pow_pos_nonneg; lia].
Qed.

Lemma pow2_xO p : 2 ^ Zpos p~0 = 2 ^ Zpos p * 2 ^ Zpos p.
Proof. rewrite <- Z.pow_add_r by lia. f_equal. lia. Qed.

Lemma pow2_xI p : 2 ^ Zpos p~1 = 2 * (2 ^ Zpos p * 2 ^ Zpos p).
Proof.
  rewrite <- Z.pow_add_r by lia. rewrite <- Z.pow_succ_r by lia. f_equal. lia.
Qed.

(** [shr_1] halves the mantissa of a nonnegative record. *)
Lemma shr_1_m mrs : 0 <= shr_m mrs -> shr_m (shr_1 mrs) = shr_m mrs / 2.
Proof.
  destruct mrs as [m r s]. simpl. intros H.
  destruct m as [|p|p]; [reflexivity| |lia].
  destruct p as [p|p|]; simpl.
  - rewrite Pos2Z.inj_xI. apply Z.div_unique with (r := 1); lia.
  - rewrite Pos2Z.inj_xO. apply Z.div_unique with (r := 0); lia.
  - reflexivity.
Qed.

Lemma iter_shr_1_m p : forall mrs, 0 <= shr_m mrs ->
  shr_m (iter_pos shr_1 p mrs) = shr_m mrs / 2 ^ Zpos p.
Proof.
  induction p as [p IH|p IH|]; intros mrs H; simpl iter_pos.
  - assert (H1 : 0 <= shr_m (shr_1 mrs)) by (rewrite shr_1_m by assumption; apply Z.div_pos; [assumption|reflexivity]).
    assert (H2 : 0 <= shr_m (iter_pos shr_1 p (shr_1 mrs))) by (rewrite IH by assumption; apply div2pow_nonneg; assumption).
    rewrite IH by assumption. rewrite IH by assumption. rewrite shr_1_m by assumption.
    rewrite !Z.div_div by (try lia; apply Z.pow_pos_nonneg; lia).
    rewrite pow2_xI. reflexivity.
  - assert (H2 : 0 <= shr_m (iter_pos shr_1 p mrs)) by (rewrite IH by assumption; apply div2pow_nonneg; assumption).
    rewrite IH by assumption. rewrite IH by assumption.
    rewrite !Z.div_div by (try lia; apply Z.pow_pos_nonneg; lia).
    rewrite pow2_xO. reflexivity.
  - rewrite shr_1_m by assumption. reflexivity.
Qed.

Lemma shr_record_of_loc_m m l : shr_m (shr_record_of_loc m l) = m.
Proof. destruct l as [|[]]; reflexivity. Qed.

(** Mantissa and exponent after [shr_fexp]. *)
Lemma shr_fexp_spec m e l : 0 <= m ->
  let n := fexp prec emax (Zdigits2 m + e) - e in
  let r := shr_fexp prec emax m e l in
  (n <= 0 -> shr_m (fst r) = m /\ snd r = e) /\
  (0 < n -> shr_m (fst r) = m / 2 ^ n /\ snd r = e + n).
Proof.
  intros Hm n r. unfold r, shr_fexp. fold n.
  unfold shr. destruct n as [|p|p]; split; intros Hn; try lia; simpl.
  - split; [apply shr_record_of_loc_m|reflexivity].
  - split; [|reflexivity]. rewrite iter_shr_1_m by (rewrite shr_record_of_loc_m; assumption).
    rewrite shr_record_of_loc_m. reflexivity.
  - split; [apply shr_record_of_loc_m|reflexivity].
Qed.

Lemma round_nearest_even_bounds m l : m <= round_nearest_even m l <= m + 1.
Proof.
  destruct l as [|[]]; simpl; try lia. destruct (Z.even m); lia.
Qed.

Lemma Zdigits2_pos_eq p : Zdigits2 (Zpos p) = Zpos (digits2_pos p).
Proof. reflexivity. Qed.

Lemma fexp_ge_emin x : SpecFloat.emin prec emax <= fexp prec emax x.
Proof. unfold fexp. lia. Qed.

(** Shape of the result of rounding a positive mantissa. *)
Lemma binary_round_aux_shape sx mx ex lx :
  let r := binary_round_aux prec emax sx (Zpos mx) ex lx in
  r = S754_zero sx \/ r = S754_infinity sx \/
  exists m'' e'', r = S754_finite sx m'' e'' /\ fexp prec emax (Zpos (digits2_pos mx) + ex) <= e'' /\ ex <= e''.
Proof.
  intros r. unfold r, binary_round_aux.
  pose proof (shr_fexp_spec (Zpos mx) ex lx ltac:(lia)) as [H1 H2]. cbv zeta in H1, H2.
  rewrite Zdigits2_pos_eq in H1, H2.
  destruct (shr_fexp prec emax (Zpos mx) ex lx) as [mrs' e'] eqn:E1. simpl fst in *. simpl snd in *.
  assert (Hm1 : 0 <= shr_m mrs' /\ fexp prec emax (Zpos (digits2_pos mx) + ex) <= e' /\ ex <= e').
  { destruct (Z.le_gt_cases (fexp prec emax (Zpos (digits2_pos mx) + ex) - ex) 0) as [Hn|Hn].
    - destruct (H1 Hn) as [-> ->]. lia.
    - destruct (H2 ltac:(lia)) as [-> ->]. split; [apply div2pow_nonneg; lia|lia]. }
  destruct Hm1 as (Hm1 & He1 & He1').
  set (mr := round_nearest_even (shr_m mrs') (loc_of_shr_record mrs')).
  assert (Hmr : 0 <= mr) by (pose proof (round_nearest_even_bounds (shr_m mrs') (loc_of_shr_record mrs')); fold mr in H; lia).
  pose proof (shr_fexp_spec mr e' loc_Exact Hmr) as [H3 H4]. cbv zeta in H3, H4.
  destruct (shr_fexp prec emax mr e' loc_Exact) as [mrs'' e''] eqn:E2. simpl fst in *. simpl snd in *.
  assert (He2 : e' <= e'').
  { destruct (Z.le_gt_cases (fexp prec emax (Zdigits2 mr + e') - e') 0) as [Hn|Hn].
    - destruct (H3 Hn) as [_ ->]. lia.
    - destruct (H4 ltac:(lia)) as [_ ->]. lia. }
  assert (Hm2 : 0 <= shr_m mrs'').
  { destruct (Z.le_gt_cases (fexp prec emax (Zdigits2 mr + e') - e') 0) as [Hn|Hn].
    - destruct (H3 Hn) as [-> _]. lia.
    - destruct (H4 ltac:(lia)) as [-> _]. apply div2pow_nonneg; lia. }
  destruct (shr_m mrs'') as [|p|p]; [left; reflexivity| |lia].
  destruct (e'' <=? emax - prec); [|right; left; reflexivity].
  right; right. exists p, e''. split; [reflexivity|lia].
Qed.

Lemma shr_fexp_noshift m e l :
  fexp prec emax (Zdigits2 m + e) - e <= 0 ->
  shr_fexp prec emax m e l = (shr_record_of_loc m l, e).
Proof.
  intros H. unfold shr_fexp, shr.
  destruct (fexp prec emax (Zdigits2 m + e) - e); try reflexivity; lia.
Qed.

Lemma fexp_normal x : SpecFloat.emin prec emax <= x - prec -> fexp prec emax x = x - prec.
Proof. unfold fexp. lia. Qed.

Lemma emin_val : SpecFloat.emin prec emax = -1074.
Proof. reflexivity. Qed.

Lemma prec_val : prec = 53. Proof. reflexivity. Qed.
Lemma emax_val : emax = 1024. Proof. reflexivity. Qed.

(** A mantissa of exactly 53 digits in range is left alone. *)
Lemma binary_round_aux_53 sx mz ez :
  Zpos (digits2_pos mz) = 53 -> -1074 <= ez <= 971 ->
  binary_round_aux prec emax sx (Zpos mz) ez loc_Exact = S754_finite sx mz ez.
Proof.
  intros HD He. unfold binary_round_aux.
  assert (Hn : fexp prec emax (Zdigits2 (Zpos mz) + ez) - ez <= 0).
  { rewrite Zdigits2_pos_eq, HD. unfold fexp. rewrite emin_val, prec_val. lia. }
  rewrite shr_fexp_noshift by assumption. simpl shr_record_of_loc. simpl shr_m. simpl loc_of_shr_record.
  simpl round_nearest_even.
  rewrite shr_fexp_noshift by assumption. simpl.
  replace (ez <=? 971) with true; [reflexivity|].
  symmetry. apply Z.leb_le. lia.
Qed.

(** Rounding a mantissa of at most 53 digits is exact. *)
Lemma binary_round_exact sx p e :
  let D := Zpos (digits2_pos p) in
  D <= 53 -> -1074 <= D + e - 53 <= 971 ->
  exists m', binary_round prec emax sx p e = S754_finite sx m' (D + e - 53)
             /\ Zpos m' = Zpos p * 2 ^ (53 - D)
             /\ (D = 53 -> m' = p).
Proof.
  intros D HD He. unfold binary_round.
  rewrite fexp_normal by (rewrite emin_val, prec_val; fold D; lia).
  fold D. rewrite prec_val. unfold shl_align.
  destruct (D + e - 53 - e) as [|d|d] eqn:Ed; try lia.
  - assert (D = 53) by lia.
    exists p. rewrite binary_round_aux_53 by (fold D; lia).
    split; [f_equal; lia|]. split; [|reflexivity].
    replace (53 - D) with 0 by lia. lia.
  - exists (Pos.iter xO p d).
    rewrite binary_round_aux_53.
    + split; [reflexivity|]. split; [|intros; lia].
      rewrite iter_xO_mul. f_equal. f_equal. lia.
    + rewrite digits2_iter_xO. rewrite Pos2Z.inj_add. fold D. lia.
    + lia.
Qed.

Lemma div_pow2_pos p n : 0 <= n -> n < Zpos (digits2_pos p) -> 0 < Zpos p / 2 ^ n.
Proof.
  intros Hn HD. pose proof (digits2_lower p) as HL.
  assert (H2 : 2 ^ n <= 2 ^ (Zpos (digits2_pos p) - 1)) by (apply Z.pow_le_mono_r; lia).
  assert (Hp : 0 < 2 ^ n) by (apply Z.pow_pos_nonneg; lia).
  apply Z.div_str_pos. lia.
Qed.

(** In the normal range the rounded result is never a zero. *)
Lemma binary_round_aux_nonzero sx mx ex lx :
  -1074 <= Zpos (digits2_pos mx) + ex - 53 ->
  binary_round_aux prec emax sx (Zpos mx) ex lx <> S754_zero sx.
Proof.
  intros Hnorm. unfold binary_round_aux.
  pose proof (shr_fexp_spec (Zpos mx) ex lx ltac:(lia)) as [H1 H2]. cbv zeta in H1, H2.
  rewrite Zdigits2_pos_eq in H1, H2.
  assert (Hf : fexp prec emax (Zpos (digits2_pos mx) + ex) = Zpos (digits2_pos mx) + ex - 53)
    by (unfold fexp; rewrite emin_val, prec_val; lia).
  rewrite Hf in H1, H2.
  destruct (shr_fexp prec emax (Zpos mx) ex lx) as [mrs' e'] eqn:E1. simpl fst in *. simpl snd in *.
  assert (Hm1 : 0 < shr_m mrs' /\ -1074 <= e').
  { destruct (Z.le_gt_cases (Zpos (digits2_pos mx) + ex - 53 - ex) 0) as [Hn|Hn].
    - destruct (H1 Hn) as [-> ->]. lia.
    - destruct (H2 ltac:(lia)) as [-> ->]. split; [apply div_pow2_pos; lia|lia]. }
  destruct Hm1 as [Hm1 He1].
  set (mr := round_nearest_even (shr_m mrs') (loc_of_shr_record mrs')).
  assert (Hmr : 0 < mr) by (pose proof (round_nearest_even_bounds (shr_m mrs') (loc_of_shr_record mrs')); fold mr in H; lia).
  pose proof (shr_fexp_spec mr e' loc_Exact ltac:(lia)) as [H3 H4]. cbv zeta in H3, H4.
  destruct (shr_fexp prec emax mr e' loc_Exact) as [mrs'' e''] eqn:E2. simpl fst in *. simpl snd in *.
  assert (Hm2 : 0 < shr_m mrs'').
  { destruct mr as [|q|q]; try lia. rewrite Zdigits2_pos_eq in H3, H4.
    destruct (Z.le_gt_cases (fexp prec emax (Zpos (digits2_pos q) + e') - e') 0) as [Hn|Hn].
    - destruct (H3 Hn) as [-> _]. lia.
    - destruct (H4 ltac:(lia)) as [-> _]. apply div_pow2_pos; [lia|].
      unfold fexp. rewrite emin_val, prec_val. lia. }
  destruct (shr_m mrs'') as [|p|p]; try lia.
  destruct (e'' <=? emax - prec); discriminate.
Qed.

Lemma binary_round_shape sx mx ex :
  let r := binary_round prec emax sx mx ex in
  r = S754_zero sx \/ r = S754_infinity sx \/
  exists m'' e'', r = S754_finite sx m'' e'' /\ fexp prec emax (Zpos (digits2_pos mx) + ex) <= e''.
Proof.
  intros r. unfold r, binary_round, shl_align.
  destruct (fexp prec emax (Zpos (digits2_pos mx) + ex) - ex) as [|d|d] eqn:Ed.
  - destruct (binary_round_aux_shape sx mx ex loc_Exact) as [H|[H|(m & e & H & H1 & H2)]]; auto.
    right; right. exists m, e. split; [assumption|lia].
  - destruct (binary_round_aux_shape sx mx ex loc_Exact) as [H|[H|(m & e & H & H1 & H2)]]; auto.
    right; right. exists m, e. split; [assumption|lia].
  - destruct (binary_round_aux_shape sx (Pos.iter xO mx d) (fexp prec emax (Zpos (digits2_pos mx) + ex)) loc_Exact)
      as [H|[H|(m & e & H & H1 & H2)]]; auto.
    right; right. exists m, e. split; [assumption|lia].
Qed.

Lemma binary_round_nonzero sx mx ex :
  -1074 <= Zpos (digits2_pos mx) + ex - 53 ->
  binary_round prec emax sx mx ex <> S754_zero sx.
Proof.
  intros Hnorm. unfold binary_round, shl_align.
  destruct (fexp prec emax (Zpos (digits2_pos mx) + ex) - ex) as [|d|d] eqn:Ed.
  - apply binary_round_aux_nonzero; assumption.
  - apply binary_round_aux_nonzero; assumption.
  - apply binary_round_aux_nonzero. rewrite digits2_iter_xO, Pos2Z.inj_add.
    assert (Hf : fexp prec emax (Zpos (digits2_pos mx) + ex) = Zpos (digits2_pos mx) + ex - 53)
      by (unfold fexp; rewrite emin_val, prec_val; lia).
    rewrite Hf in *. lia.
Qed.

Lemma shl_align_val mx ex ex' : ex' <= ex ->
  Zpos (fst (shl_align mx ex ex')) = Zpos mx * 2 ^ (ex - ex').
Proof.
  intros H. unfold shl_align. destruct (ex' - ex) as [|d|d] eqn:E; try lia; simpl fst.
  - replace (ex - ex') with 0 by lia. lia.
  - rewrite iter_xO_mul. f_equal. f_equal. lia.
Qed.

Lemma bounded_facts m e : bounded prec emax m e = true ->
  Zpos m < 2 ^ 53 /\ -1074 <= e <= 971 /\ (-1074 < e -> 2 ^ 52 <= Zpos m).
Proof.
  unfold bounded, canonical_mantissa. intros H.
  apply andb_true_iff in H. destruct H as [H1 H2].
  apply Z.eqb_eq in H1. apply Z.leb_le in H2.
  unfold fexp in H1. rewrite emin_val, prec_val in H1. rewrite emax_val, prec_val in H2.
  pose proof (digits2_upper m) as HU. pose proof (digits2_lower m) as HL.
  assert (HD : Zpos (digits2_pos m) <= 53) by lia.
  split; [|split; [lia|]].
  - apply digits2_le_iff; lia.
  - intros He. assert (Zpos (digits2_pos m) = 53) by lia.
    rewrite H in HL. exact HL.
Qed.

Lemma compare_cont_lt p q : Pos.compare_cont Eq p q = Lt <-> (Zpos p < Zpos q).
Proof. change (Pos.compare_cont Eq p q) with (Pos.compare p q). rewrite Pos.compare_lt_iff. lia. Qed.

(** A result with the sign bit set lies below every positive float. *)
Lemma neg_round_lt p ez m e :
  SFltb (binary_round prec emax true p ez) (S754_finite false m e) = true.
Proof.
  destruct (binary_round_shape true p ez) as [H|[H|(m'' & e'' & H & _)]]; rewrite H; reflexivity.
Qed.

Lemma big_round_not_lt p ez m e :
  -1074 <= Zpos (digits2_pos p) + ez - 53 -> e < Zpos (digits2_pos p) + ez - 53 ->
  SFltb (binary_round prec emax false p ez) (S754_finite false m e) = false.
Proof.
  intros Hn He.
  pose proof (binary_round_nonzero false p ez Hn) as Hnz.
  destruct (binary_round_shape false p ez) as [H|[H|(m'' & e'' & H & Hf)]]; rewrite H in *.
  - congruence.
  - reflexivity.
  - rewrite fexp_normal in Hf by (rewrite emin_val, prec_val; lia).
    rewrite prec_val in Hf. unfold SFltb, SFcompare.
    destruct (Z.compare_spec e'' e); try lia; reflexivity.
Qed.

Lemma sub_360_lt_finite m e : bounded prec emax m e = true ->
  SFltb (SF64sub (S754_finite false M360 (-44)) (S754_finite false m e)) (S754_finite false m e)
  = SFltb (S754_finite false M360 (-45)) (S754_finite false m e).
Proof.
  intros Hb. destruct (bounded_facts m e Hb) as (Hm & He & Hnorm).
  unfold SF64sub, SFsub. cbv zeta. unfold cond_Zopp.
  assert (HM : Zpos M360 = 6333186975989760) by reflexivity.
  assert (P52 : 2 ^ 52 = 4503599627370496) by reflexivity.
  assert (P53 : 2 ^ 53 = 9007199254740992) by reflexivity.
  assert (P51 : 2 ^ 51 = 2251799813685248) by reflexivity.
  assert (P54 : 2 ^ 54 = 18014398509481984) by reflexivity.
  set (rhs := SFltb (S754_finite false M360 (-45)) (S754_finite false m e)).
  assert (Hrhs : rhs = match Z.compare (-45) e with Lt => true | Gt => false
                       | Eq => match Pos.compare_cont Eq M360 m with Lt => true | _ => false end end).
  { unfold rhs, SFltb, SFcompare. destruct (Z.compare (-45) e); try reflexivity. }
  destruct (Z.lt_trichotomy e (-45)) as [Hlt|[Heq|Hgt]].
  - (* the float is below 128 *)
    rewrite Hrhs. destruct (Z.compare_spec (-45) e); try lia.
    rewrite Z.min_r by lia.
    pose proof (shl_align_val M360 (-44) e ltac:(lia)) as HA.
    pose proof (shl_align_val m e e ltac:(lia)) as HB.
    replace (e - e) with 0 in HB by lia. rewrite Z.pow_0_r, Z.mul_1_r in HB.
    rewrite HA, HB.
    set (k := -44 - e) in *.
    assert (Hk : 4 <= 2 ^ k) by (change 4 with (2 ^ 2); apply Z.pow_le_mono_r; lia).
    destruct (Zpos M360 * 2 ^ k - Zpos m) as [|p|p] eqn:Ed; try lia.
    unfold binary_normalize.
    assert (Hp : 2 ^ (k + 51) <= Zpos p).
    { rewrite Z.pow_add_r by lia. rewrite P51. nia. }
    assert (HD : k + 51 < Zpos (digits2_pos p)).
    { pose proof (digits2_upper p). apply (Z.pow_lt_mono_r_iff 2); lia. }
    apply big_round_not_lt; lia.
  - (* the float lies in [128, 256) *)
    subst e. rewrite Hrhs. simpl Z.compare. rewrite Z.min_r by lia.
    pose proof (shl_align_val M360 (-44) (-45) ltac:(lia)) as HA.
    pose proof (shl_align_val m (-45) (-45) ltac:(lia)) as HB.
    change (-44 - -45) with 1 in HA. change (-45 - -45) with 0 in HB.
    rewrite Z.pow_0_r, Z.mul_1_r in HB. rewrite Z.pow_1_r in HA.
    rewrite HA, HB. specialize (Hnorm ltac:(lia)).
    destruct (Zpos M360 * 2 - Zpos m) as [|p|p] eqn:Ed; try lia.
    unfold binary_normalize.
    destruct (Pos.compare_cont Eq M360 m) eqn:Ec.
    + (* the float is 180 *)
      apply Pos.compare_eq in Ec. subst m.
      assert (p = M360) by lia. subst p.
      reflexivity.
    + apply -> compare_cont_lt in Ec.
      assert (Hp53 : Zpos (digits2_pos p) <= 53) by (apply digits2_le_iff; lia).
      destruct (binary_round_exact false p (-45) Hp53 ltac:(pose proof (Pos2Z.is_pos (digits2_pos p)); lia))
        as (m' & Hr & Hm' & Hm53).
      rewrite Hr. unfold SFltb, SFcompare.
      destruct (Z.compare_spec (Zpos (digits2_pos p) + -45 - 53) (-45)) as [E|E|E]; try lia; try reflexivity.
      assert (E53 : Zpos (digits2_pos p) = 53) by lia.
      rewrite (Hm53 E53).
      replace (Pos.compare_cont Eq p m) with Lt; [reflexivity|].
      symmetry. apply compare_cont_lt. lia.
    + assert (Hge : Zpos m <= Zpos M360).
      { destruct (Z.le_gt_cases (Zpos m) (Zpos M360)); [assumption|].
        assert (Pos.compare_cont Eq M360 m = Lt) by (apply compare_cont_lt; lia). congruence. }
      destruct (Z.lt_ge_cases (Zpos p) (2 ^ 53)) as [Hs|Hs].
      * assert (Hp53 : Zpos (digits2_pos p) <= 53) by (apply digits2_le_iff; lia).
        assert (E53 : Zpos (digits2_pos p) = 53).
        { pose proof (digits2_upper p).
          assert (52 < Zpos (digits2_pos p)) by (apply (Z.pow_lt_mono_r_iff 2); lia). lia. }
        destruct (binary_round_exact false p (-45) Hp53 ltac:(lia)) as (m' & Hr & Hm' & Hm53).
        rewrite Hr, (Hm53 E53), E53. unfold SFltb, SFcompare. simpl Z.compare.
        destruct (Pos.compare_cont Eq p m) eqn:Ec2; try reflexivity.
        apply -> compare_cont_lt in Ec2. lia.
      * assert (HD : 53 < Zpos (digits2_pos p)).
        { pose proof (digits2_upper p). apply (Z.pow_lt_mono_r_iff 2); lia. }
        apply big_round_not_lt; lia.
  - (* the float is at least 256 *)
    rewrite Hrhs. destruct (Z.compare_spec (-45) e); try lia.
    specialize (Hnorm ltac:(lia)).
    destruct (Z.eq_dec e (-44)) as [E44|N44].
    + subst e. rewrite Z.min_l by lia.
      pose proof (shl_align_val M360 (-44) (-44) ltac:(lia)) as HA.
      pose proof (shl_align_val m (-44) (-44) ltac:(lia)) as HB.
      change (-44 - -44) with 0 in HA, HB. rewrite Z.pow_0_r, Z.mul_1_r in HA, HB.
      rewrite HA, HB.
      destruct (Zpos M360 - Zpos m) as [|p|p] eqn:Ed; unfold binary_normalize.
      * reflexivity.
      * assert (Hp51 : Zpos (digits2_pos p) <= 51) by (apply digits2_le_iff; lia).
        destruct (binary_round_exact false p (-44) ltac:(lia) ltac:(pose proof (Pos2Z.is_pos (digits2_pos p)); lia))
          as (m' & Hr & _).
        rewrite Hr. unfold SFltb, SFcompare.
        destruct (Z.compare_spec (Zpos (digits2_pos p) + -44 - 53) (-44)) as [E|E|E]; try lia; reflexivity.
      * apply neg_round_lt.
    + rewrite Z.min_l by lia.
      pose proof (shl_align_val M360 (-44) (-44) ltac:(lia)) as HA.
      pose proof (shl_align_val m e (-44) ltac:(lia)) as HB.
      change (-44 - -44) with 0 in HA. rewrite Z.pow_0_r, Z.mul_1_r in HA.
      rewrite HA, HB.
      assert (Hk : 2 <= 2 ^ (e - -44)) by (change 2 with (2 ^ 1) at 1; apply Z.pow_le_mono_r; lia).
      destruct (Zpos M360 - Zpos m * 2 ^ (e - -44)) as [|p|p] eqn:Ed; try nia.
      unfold binary_normalize. apply neg_round_lt.
Qed.

End SpecFloatFacts.

Section FloatFacts.

Local Open Scope float_scope.

Lemma Prim2SF_360 : Prim2SF 360 = S754_finite false M360 (-44).
Proof. reflexivity. Qed.
Lemma Prim2SF_180 : Prim2SF 180 = S754_finite false M360 (-45).
Proof. reflexivity. Qed.

Lemma hue_wrap_lt (y : float) :
  (360 - abs y <? abs y) = (180 <? abs y).
Proof.
  rewrite !ltb_spec, sub_spec, abs_spec, Prim2SF_360, Prim2SF_180.
  pose proof (Prim2SF_valid y) as Hv.
  destruct (Prim2SF y) as [s|s| |s m e]; try reflexivity.
  simpl SFabs. apply sub_360_lt_finite. exact Hv.
Qed.

Lemma ltb_asym (x y : float) : (x <? y) = true -> (y <? x) = false.
Proof.
  rewrite !ltb_spec. unfold SFltb, SFcompare.
  destruct (Prim2SF x) as [s|s| |s m e], (Prim2SF y) as [s'|s'| |s' m' e'];
    try destruct s; try destruct s'; try discriminate; try reflexivity.
  - destruct (Z.compare_spec e e'), (Z.compare_spec e' e); try lia; try discriminate; try reflexivity.
    subst. change (Pos.compare_cont Eq m m') with (Pos.compare m m').
    change (Pos.compare_cont Eq m' m) with (Pos.compare m' m).
    rewrite (Pos.compare_antisym m m'). destruct (Pos.compare m m'); simpl; try discriminate; reflexivity.
  - destruct (Z.compare_spec e e'), (Z.compare_spec e' e); try lia; try discriminate; try reflexivity.
    subst. change (Pos.compare_cont Eq m m') with (Pos.compare m m').
    change (Pos.compare_cont Eq m' m) with (Pos.compare m' m).
    rewrite (Pos.compare_antisym m m'). destruct (Pos.compare m m'); simpl; try discriminate; reflexivity.
Qed.

(** Two floats equal to a third are not strictly ordered. *)
Lemma eqb_not_ltb (x y v : float) : (x =? v) = true -> (y =? v) = true -> (x <? y) = false.
Proof.
  rewrite !eqb_spec, ltb_spec. unfold SFeqb, SFltb, SFcompare.
  destruct (Prim2SF x) as [s|s| |s m e], (Prim2SF y) as [s'|s'| |s' m' e'], (Prim2SF v) as [t|t| |t n f];
    try destruct s; try destruct s'; try destruct t; try discriminate; try reflexivity.
  - destruct (Z.compare_spec e f); try discriminate. destruct (Z.compare_spec e' f); try discriminate.
    subst. rewrite Z.compare_refl.
    change (Pos.compare_cont Eq m n) with (Pos.compare m n).
    change (Pos.compare_cont Eq m' n) with (Pos.compare m' n).
    change (Pos.compare_cont Eq m m') with (Pos.compare m m').
    destruct (Pos.compare_spec m n); simpl; try discriminate.
    destruct (Pos.compare_spec m' n); simpl; try discriminate.
    subst. rewrite Pos.compare_refl. reflexivity.
  - destruct (Z.compare_spec e f); try discriminate. destruct (Z.compare_spec e' f); try discriminate.
    subst. rewrite Z.compare_refl.
    change (Pos.compare_cont Eq m n) with (Pos.compare m n).
    change (Pos.compare_cont Eq m' n) with (Pos.compare m' n).
    change (Pos.compare_cont Eq m m') with (Pos.compare m m').
    destruct (Pos.compare_spec m n); simpl; try discriminate.
    destruct (Pos.compare_spec m' n); simpl; try discriminate.
    subst. rewrite Pos.compare_refl. reflexivity.
Qed.

Lemma mul_comm (x y : float) : x * y = y * x.
Proof.
  apply Prim2SF_inj. rewrite !mul_spec. unfold SF64mul, SFmul.
  destruct (Prim2SF x) as [s|s| |s m e], (Prim2SF y) as [s'|s'| |s' m' e'];
    try reflexivity; try (rewrite xorb_comm; reflexivity).
  rewrite xorb_comm, Pos.mul_comm, Z.add_comm. reflexivity.
Qed.

End FloatFacts.

(** * The colour-harmony claims *)

Section HarmonyClaims.

Import ColorHarmonyService.
Local Open Scope string_scope.
Local Open Scope float_scope.

(** The hue difference of the code is the circular difference
    [min(|h1-h2|, 360-|h1-h2|)]. *)
Lemma hue_diff_circular (h1 h2 : float) :
  hue_diff h1 h2 = HarmonySpec.circular_hue_difference h1 h2.
Proof.
  unfold hue_diff, HarmonySpec.circular_hue_difference, PyFloat.min2.
  rewrite hue_wrap_lt. reflexivity.
Qed.

Lemma colors_match_unfold (rgb1 rgb2 : RGB) (scheme : string) (tolerance : float) :
  colors_match rgb1 rgb2 scheme tolerance =
  let h_diff := hue_diff (hue rgb1) (hue rgb2) in
  if String.eqb scheme "complementary" then abs (h_diff - 180) <=? tolerance
  else if String.eqb scheme "analogous" then h_diff <=? tolerance
  else if String.eqb scheme "triadic" then
    (abs (h_diff - 120) <=? tolerance) || (abs (h_diff - 240) <=? tolerance)
  else if String.eqb scheme "monochromatic" then h_diff <=? 15
  else true.
Proof.
  unfold colors_match, hue.
  destruct (rgb_to_hsl rgb1) as [[h1 s1] l1], (rgb_to_hsl rgb2) as [[h2 s2] l2].
  reflexivity.
Qed.

(** C6: with [d] the circular hue difference of the two hues, [colors_match]
    answers [|d-180| <= tolerance] for complementary, [d <= tolerance] for
    analogous, [|d-120| <= tolerance or |d-240| <= tolerance] for triadic,
    [d <= 15] whatever the tolerance for monochromatic, and [true] for every
    other scheme string. *)
Theorem colors_match_by_scheme (rgb1 rgb2 : RGB) (tolerance : float) :
  let d := HarmonySpec.circular_hue_difference (hue rgb1) (hue rgb2) in
  colors_match rgb1 rgb2 "complementary" tolerance = (abs (d - 180) <=? tolerance)
  /\ colors_match rgb1 rgb2 "analogous" tolerance = (d <=? tolerance)
  /\ colors_match rgb1 rgb2 "triadic" tolerance
     = ((abs (d - 120) <=? tolerance) || (abs (d - 240) <=? tolerance))
  /\ colors_match rgb1 rgb2 "monochromatic" tolerance = (d <=? 15)
  /\ (forall scheme : string,
        ~ In scheme ["complementary"; "analogous"; "triadic"; "monochromatic"] ->
        colors_match rgb1 rgb2 scheme tolerance = true).
Proof.
  intros d. unfold d. rewrite <- hue_diff_circular.
  repeat split; try (rewrite colors_match_unfold; reflexivity).
  intros scheme Hs. rewrite colors_match_unfold. cbv zeta.
  destruct (String.eqb_spec scheme "complementary") as [->|_]; [exfalso; apply Hs; simpl; auto|].
  destruct (String.eqb_spec scheme "analogous") as [->|_]; [exfalso; apply Hs; simpl; auto|].
  destruct (String.eqb_spec scheme "triadic") as [->|_]; [exfalso; apply Hs; simpl; auto|].
  destruct (String.eqb_spec scheme "monochromatic") as [->|_]; [exfalso; apply Hs; simpl; auto|].
  reflexivity.
Qed.

Lemma colors_match_by_scheme_witness :
  ~ In "pastel" ["complementary"; "analogous"; "triadic"; "monochromatic"]
  /\ colors_match (255, 0, 0)%Z (0, 255, 255)%Z "pastel" 30 = true.
Proof.
  assert (H : ~ In "pastel" ["complementary"; "analogous"; "triadic"; "monochromatic"]).
  { simpl. intros [H|[H|[H|[H|[]]]]]; discriminate H. }
  split; [exact H|].
  exact (proj2 (proj2 (proj2 (proj2
           (colors_match_by_scheme (255, 0, 0)%Z (0, 255, 255)%Z 30)))) "pastel" H).
Defined.

(** C2, at the input (10, 200, 30): the way to HSL and back returns
    (10, 199, 30); the green channel comes back as 199.99999999999997 and
    [int] truncates it. *)
Theorem hsl_round_trip_truncates :
  hsl_to_rgb (rgb_to_hsl (10, 200, 30)%Z) = Some (10, 199, 30)%Z.
Proof. vm_compute. reflexivity. Qed.

(** C7, at the input (0, 0, 1): the hue is defined (240 degrees, saturation
    100), the complementary colour is computed as (0, 1, 0), whose hue is 120,
    and the two do not match as complementary under the default tolerance. *)
Theorem complementary_of_dark_blue_does_not_match :
  rgb_to_hsl (0, 0, 1)%Z = (240, 100, 0.19607843137254902)
  /\ get_complementary (0, 0, 1)%Z = Some (0, 1, 0)%Z
  /\ hue (0, 1, 0)%Z = 120
  /\ colors_match (0, 0, 1)%Z (0, 1, 0)%Z "complementary" default_tolerance = false.
Proof. vm_compute. repeat split; reflexivity. Qed.

End HarmonyClaims.

Section NotNan.

Import PyFloat.
Local Open Scope float_scope.

Lemma binary_normalize_not_nan z e b :
  binary_normalize prec emax z e b <> S754_nan.
Proof.
  destruct z as [|p|p]; simpl; try discriminate.
  - destruct (binary_round_shape false p e) as [H|[H|(m & e' & H & _)]]; rewrite H; discriminate.
  - destruct (binary_round_shape true p e) as [H|[H|(m & e' & H & _)]]; rewrite H; discriminate.
Qed.

Lemma add_finite_not_nan (x y : float) s m e :
  Prim2SF y = S754_finite s m e -> not_nan x -> not_nan (x + y).
Proof.
  unfold not_nan. intros Hy Hx. rewrite add_spec, Hy. unfold SF64add, SFadd.
  destruct (Prim2SF x) as [sx|sx| |sx mx ex]; try discriminate; try congruence.
  apply binary_normalize_not_nan.
Qed.

Lemma sub_finite_not_nan (x y : float) s m e :
  Prim2SF y = S754_finite s m e -> not_nan x -> not_nan (x - y).
Proof.
  unfold not_nan. intros Hy Hx. rewrite sub_spec, Hy. unfold SF64sub, SFsub.
  destruct (Prim2SF x) as [sx|sx| |sx mx ex]; try discriminate; try congruence.
  apply binary_normalize_not_nan.
Qed.

Lemma sub_15_add (x : float) : x - 15 = x + (-15).
Proof.
  apply Prim2SF_inj. rewrite sub_spec, add_spec.
  change (Prim2SF 15) with (S754_finite false 8444249301319680 (-49)).
  change (Prim2SF (-15)) with (S754_finite true 8444249301319680 (-49)).
  destruct (Prim2SF x) as [sx|sx| |sx mx ex]; reflexivity.
Qed.

(** Comparing two positive finite floats the other way round gives the
    opposite answer. *)
Lemma SFcompare_pos_antisym m e m' e' :
  SFcompare (S754_finite false m e) (S754_finite false m' e')
  = option_map CompOpp (SFcompare (S754_finite false m' e') (S754_finite false m e)).
Proof.
  unfold SFcompare, option_map. f_equal.
  rewrite (Z.compare_antisym e' e).
  destruct (Z.compare e' e); simpl; try reflexivity.
  change (Pos.compare_cont Eq m m') with (Pos.compare m m').
  change (Pos.compare_cont Eq m' m) with (Pos.compare m' m).
  apply Pos.compare_antisym.
Qed.

(** On a float that is not NaN, [max(0, min(100, x))] is the clamping to
    [[0,100]]. *)
Lemma clamp_is_clamp_0_100 (x : float) :
  not_nan x -> ColorHarmonyService.clamp x = HarmonySpec.clamp_0_100 x.
Proof.
  unfold not_nan, ColorHarmonyService.clamp, HarmonySpec.clamp_0_100, PyFloat.max2, PyFloat.min2.
  intros Hx.
  rewrite (ltb_spec x 100), (leb_spec x 0), (leb_spec 100 x).
  assert (H100 : Prim2SF 100 = S754_finite false 7036874417766400 (-46)) by reflexivity.
  assert (H0 : Prim2SF 0 = S754_zero false) by reflexivity.
  assert (Hlt : (0 <? 100) = true) by reflexivity.
  rewrite H100, H0.
  destruct (Prim2SF x) as [sx|sx| |sx mx ex] eqn:E; try congruence.
  - cbn. rewrite ltb_spec, E, H0. reflexivity.
  - destruct sx; cbn; [rewrite ltb_spec, E, H0; reflexivity|reflexivity].
  - destruct sx.
    + cbn. rewrite ltb_spec, E, H0. reflexivity.
    + unfold SFltb, SFleb.
      rewrite (SFcompare_pos_antisym mx ex 7036874417766400 (-46)).
      set (c := SFcompare (S754_finite false 7036874417766400 (-46)) (S754_finite false mx ex)).
      assert (Hc : c <> None) by (unfold c, SFcompare; discriminate).
      cbn [SFcompare].
      destruct c as [[| |]|]; cbn; try congruence;
        try reflexivity; rewrite ltb_spec, E, H0; reflexivity.
Qed.

End NotNan.

Section HarmonyScore.

Import ColorHarmonyService.
Local Open Scope float_scope.

Lemma adjust_add_adjustment (score : float) (c1 c2 : RGB) :
  adjust score (hue_diff (hue c1) (hue c2)) = HarmonySpec.add_adjustment score (c1, c2).
Proof.
  unfold adjust, HarmonySpec.add_adjustment, HarmonySpec.pair_adjustment.
  cbn [fst snd]. rewrite hue_diff_circular.
  set (d := HarmonySpec.circular_hue_difference (hue c1) (hue c2)).
  destruct ((165 <=? d) && (d <=? 195)); [reflexivity|].
  destruct (d <=? 45); [reflexivity|].
  destruct ((105 <=? d) && (d <=? 135)); [reflexivity|].
  destruct ((60 <=? d) && (d <=? 90)); [apply sub_15_add|reflexivity].
Qed.

Lemma inner_loop_pairs (c : RGB) (rest : list RGB) (score : float) :
  inner_loop (rgb_to_hsl c) (map rgb_to_hsl rest) score
  = fold_left HarmonySpec.add_adjustment (map (pair c) rest) score.
Proof.
  unfold inner_loop. revert score.
  induction rest as [|c2 rest IH]; intros score; simpl; [reflexivity|].
  rewrite <- IH. f_equal. apply (adjust_add_adjustment score c c2).
Qed.

Lemma outer_loop_pairs (colors : list RGB) (score : float) :
  outer_loop (map rgb_to_hsl colors) score
  = fold_left HarmonySpec.add_adjustment (HarmonySpec.unordered_pairs colors) score.
Proof.
  revert score. induction colors as [|c rest IH]; intros score; simpl; [reflexivity|].
  rewrite fold_left_app, IH, inner_loop_pairs. reflexivity.
Qed.

Lemma add_adjustment_not_nan (score : float) (p : RGB * RGB) :
  PyFloat.not_nan score -> PyFloat.not_nan (HarmonySpec.add_adjustment score p).
Proof.
  intros H. unfold HarmonySpec.add_adjustment, HarmonySpec.pair_adjustment.
  destruct (_ && _); [eapply add_finite_not_nan; [reflexivity|exact H]|].
  destruct (_ <=? 45); [eapply add_finite_not_nan; [reflexivity|exact H]|].
  destruct (_ && _); [eapply add_finite_not_nan; [reflexivity|exact H]|].
  destruct (_ && _); [eapply add_finite_not_nan; [reflexivity|exact H]|exact H].
Qed.

Lemma fold_adjustments_not_nan (l : list (RGB * RGB)) (score : float) :
  PyFloat.not_nan score -> PyFloat.not_nan (fold_left HarmonySpec.add_adjustment l score).
Proof.
  revert score. induction l as [|p l IH]; intros score H; simpl; [exact H|].
  apply IH, add_adjustment_not_nan, H.
Qed.

(** C1: [calculate_harmony_score] is 100 on a list of fewer than two colours
    and otherwise the sum, clamped to [[0,100]], of 100 and the adjustment of
    every unordered pair: +10 for a circular hue difference
    [d = min(|h1-h2|, 360-|h1-h2|)] in [[165,195]], else +5 for [d <= 45],
    else +8 for [d] in [[105,135]], else -15 for [d] in [[60,90]], else
    nothing. *)
Theorem calculate_harmony_score_spec (colors : list RGB) :
  calculate_harmony_score colors = HarmonySpec.harmonyScore colors
  /\ calculate_harmony_score [] = 100
  /\ (forall c : RGB, calculate_harmony_score [c] = 100).
Proof.
  split; [|split; [reflexivity|intros c; reflexivity]].
  destruct colors as [|c1 [|c2 rest]]; try reflexivity.
  unfold calculate_harmony_score, HarmonySpec.harmonyScore.
  change (List.length (c1 :: c2 :: rest) <? 2)%nat with false. cbv iota zeta.
  rewrite outer_loop_pairs. apply clamp_is_clamp_0_100.
  apply fold_adjustments_not_nan. discriminate.
Qed.

End HarmonyScore.

(** * The style-compatibility claim *)

Section StyleClaims.

Import OutfitGeneratorService.
Local Open Scope float_scope.

Lemma style_eqb_eq (a b : ClothingStyle) : style_eqb a b = true <-> a = b.
Proof.
  unfold style_eqb. destruct (ClothingStyle_eq_dec a b); split; congruence.
Qed.

Lemma category_eqb_eq (a b : ClothingCategory) : category_eqb a b = true <-> a = b.
Proof.
  unfold category_eqb. destruct (ClothingCategory_eq_dec a b); split; congruence.
Qed.

Lemma compatible_pairs_symmetric_table (s1 s2 : ClothingStyle) :
  pair_in (s1, s2) compatible_pairs || pair_in (s2, s1) compatible_pairs
  = StyleSpec.compatible s1 s2.
Proof. destruct s1, s2; reflexivity. Qed.

Lemma style_walk (styles : list ClothingStyle) (score : float) :
  fold_left style_step (adjacent styles) score = StyleSpec.walk score styles.
Proof.
  revert score. induction styles as [|s1 [|s2 rest] IH]; intros score; try reflexivity.
  change (adjacent (s1 :: s2 :: rest)) with ((s1, s2) :: adjacent (s2 :: rest)).
  cbn [fold_left]. rewrite IH. cbn [StyleSpec.walk style_step].
  rewrite compatible_pairs_symmetric_table. reflexivity.
Qed.

Lemma walk_not_nan (styles : list ClothingStyle) (score : float) :
  PyFloat.not_nan score -> PyFloat.not_nan (StyleSpec.walk score styles).
Proof.
  revert score. induction styles as [|s1 [|s2 rest] IH]; intros score H; try exact H.
  cbn [StyleSpec.walk]. apply IH.
  destruct (style_eqb s1 s2); [eapply add_finite_not_nan; [reflexivity|exact H]|].
  destruct (StyleSpec.compatible s1 s2);
    [eapply add_finite_not_nan|eapply sub_finite_not_nan]; (reflexivity || exact H).
Qed.

Lemma nodup_singleton_all (l : list ClothingStyle) (a : ClothingStyle) :
  nodup ClothingStyle_eq_dec l = [a] -> forall x, In x l -> x = a.
Proof.
  intros H x Hx. apply (nodup_In ClothingStyle_eq_dec) in Hx. rewrite H in Hx.
  destruct Hx as [Hx|[]]. congruence.
Qed.

Lemma nodup_all_same (l : list ClothingStyle) (s : ClothingStyle) :
  (forall x, In x l -> x = s) -> nodup ClothingStyle_eq_dec (s :: l) = [s].
Proof.
  induction l as [|y l IH]; intros H; [reflexivity|].
  assert (y = s) by (apply H; left; reflexivity). subst y.
  cbn [nodup]. destruct (in_dec ClothingStyle_eq_dec s (s :: l)) as [_|Hn].
  - apply IH. intros x Hx. apply H. right. exact Hx.
  - exfalso. apply Hn. left. reflexivity.
Qed.

(** [len(set(styles)) == 1] says that all items share one style. *)
Lemma one_style_in_set (item : ClothingItem) (rest : list ClothingItem) :
  (List.length (nodup ClothingStyle_eq_dec (map style (item :: rest))) =? 1)%nat
  = StyleSpec.share_one_style (item :: rest).
Proof.
  cbn [StyleSpec.share_one_style map].
  destruct (forallb (fun i => style_eqb (style i) (style item)) rest) eqn:E.
  - rewrite nodup_all_same; [reflexivity|].
    intros x Hx. apply in_map_iff in Hx. destruct Hx as (i & <- & Hi).
    rewrite forallb_forall in E. apply style_eqb_eq, E, Hi.
  - apply Nat.eqb_neq. intros Hlen.
    destruct (nodup ClothingStyle_eq_dec (style item :: map style rest)) as [|a [|b l]] eqn:En;
      try discriminate Hlen.
    pose proof (nodup_singleton_all _ _ En) as Hall.
    assert (Ha : style item = a) by (apply Hall; left; reflexivity).
    assert (forallb (fun i => style_eqb (style i) (style item)) rest = true); [|congruence].
    apply forallb_forall. intros i Hi. apply style_eqb_eq. rewrite Ha.
    apply Hall. right. apply in_map. exact Hi.
Qed.

(** C5: on a non-empty list [check_style_compatibility] is 100 when all items
    share one style, and otherwise the walk over adjacent pairs from 50 (+10
    for identical styles, +5 for a pair of the symmetric table, -10
    otherwise) clamped to [[0,100]]; two garments styled casual and
    streetwear score 55. *)
Theorem check_style_compatibility_spec (item : ClothingItem) (rest : list ClothingItem) :
  check_style_compatibility (item :: rest) = StyleSpec.styleScore (item :: rest)
  /\ (forall a b : ClothingItem,
        style a = CASUAL -> style b = STREETWEAR ->
        check_style_compatibility [a; b] = 55).
Proof.
  split.
  - unfold check_style_compatibility, StyleSpec.styleScore.
    rewrite one_style_in_set.
    destruct (StyleSpec.share_one_style (item :: rest)); [reflexivity|].
    rewrite style_walk. apply clamp_is_clamp_0_100, walk_not_nan. discriminate.
  - intros a b Ha Hb. unfold check_style_compatibility. cbn [map].
    rewrite Ha, Hb. reflexivity.
Qed.

Lemma check_style_compatibility_spec_witness :
  let a := mkClothingItem "t1" "tee" TOP CASUAL "a.png" [] [] in
  let b := mkClothingItem "b1" "cargo" BOTTOM STREETWEAR "b.png" [] [] in
  style a = CASUAL /\ style b = STREETWEAR /\ check_style_compatibility [a; b] = 55.
Proof.
  intros a b. split; [reflexivity|]. split; [reflexivity|].
  exact (proj2 (check_style_compatibility_spec a []) a b eq_refl eq_refl).
Defined.

End StyleClaims.

(** * The filters of the outfit generator *)

Section FilterClaims.

Import OutfitGeneratorService.
Local Open Scope string_scope.

Lemma filter_by_style_empty (st : ClothingStyle) (all_items : list ClothingItem) :
  filter (fun item => style_eqb (style item) st) all_items = [] ->
  filter_by_style (Some st) all_items = all_items.
Proof. intros H. unfold filter_by_style. rewrite H. reflexivity. Qed.

Lemma filter_by_style_nonempty (st : option ClothingStyle) (all_items : list ClothingItem) :
  all_items <> [] -> filter_by_style st all_items <> [].
Proof.
  intros H. unfold filter_by_style. destruct st as [st|]; [|exact H].
  destruct (filter _ all_items) eqn:E; [exact H|discriminate].
Qed.

Lemma narrow_options_nonempty (base_rgb : option RGB) (scheme : option string)
      (options : list ClothingItem) :
  options <> [] -> narrow_options base_rgb scheme options <> [].
Proof.
  intros H. unfold narrow_options. destruct base_rgb as [b|]; [|exact H].
  destruct (PyList.truthy scheme); [|exact H].
  destruct (filter _ options) eqn:E; [exact H|discriminate].
Qed.

(** C9: a style filter that leaves nothing is ignored, so generation runs on
    the unfiltered garments; in base-item mode a narrowing by [colors_match]
    that leaves nothing keeps the unnarrowed options of the category; neither
    filter turns a non-empty list into an empty one. *)
Theorem empty_filters_fall_back :
  (forall (request storage : list ClothingItem) (base : option string)
          (st : ClothingStyle) (scheme : option string) (k : Z),
      filter (fun item => style_eqb (style item) st) (resolve_items request storage) = [] ->
      generate_outfit_suggestions request storage base (Some st) scheme k
      = generate_outfit_suggestions request storage base None scheme k)
  /\ (forall (b : RGB) (scheme : string) (options : list ClothingItem),
         filter (matches_base b scheme) options = [] ->
         narrow_options (Some b) (Some scheme) options = options)
  /\ (forall (b : RGB) (scheme : string) (items_by_category : by_category)
             (cat : ClothingCategory) (others : list ClothingCategory)
             (options : list ClothingItem),
         PyList.lookup category_eqb items_by_category cat = Some options ->
         filter (matches_base b scheme) options = [] ->
         base_category_options (Some b) (Some scheme) items_by_category (cat :: others)
         = options :: base_category_options (Some b) (Some scheme) items_by_category others)
  /\ (forall (st : option ClothingStyle) (all_items : list ClothingItem),
         all_items <> [] -> filter_by_style st all_items <> [])
  /\ (forall (base_rgb : option RGB) (scheme : option string) (options : list ClothingItem),
         options <> [] -> narrow_options base_rgb scheme options <> []).
Proof.
  assert (Hnarrow : forall (b : RGB) (scheme : string) (options : list ClothingItem),
             filter (matches_base b scheme) options = [] ->
             narrow_options (Some b) (Some scheme) options = options).
  { intros b scheme options H. unfold narrow_options.
    destruct (PyList.truthy (Some scheme)); [|reflexivity].
    cbn [scheme_of]. rewrite H. reflexivity. }
  split; [|split; [exact Hnarrow|split; [|split]]].
  - intros request storage base st scheme k H.
    unfold generate_outfit_suggestions, generated_candidates.
    destruct (resolve_items request storage) as [|i l] eqn:E; [reflexivity|].
    rewrite (filter_by_style_empty st (i :: l) H). reflexivity.
  - intros b scheme dict cat others options Hl Hf.
    cbn [base_category_options]. rewrite Hl, (Hnarrow b scheme options Hf). reflexivity.
  - exact filter_by_style_nonempty.
  - exact narrow_options_nonempty.
Qed.

Lemma empty_filters_fall_back_witness :
  let closet := [mkClothingItem "t1" "tee" TOP CASUAL "a.png" [] [];
                 mkClothingItem "b1" "jeans" BOTTOM CASUAL "b.png" [] []] in
  filter (fun item => style_eqb (style item) VINTAGE) (resolve_items closet []) = []
  /\ generate_outfit_suggestions closet [] None (Some VINTAGE) None 5
     = generate_outfit_suggestions closet [] None None None 5.
Proof.
  intros closet. split; [reflexivity|].
  exact (proj1 empty_filters_fall_back closet [] None VINTAGE None 5%Z eq_refl).
Defined.

Lemma flat_map_if_singleton {A B : Type} (p : A -> bool) (f : A -> B) (l : list A) :
  flat_map (fun x => if p x then [f x] else []) l = map f (filter p l).
Proof.
  induction l as [|x l IH]; [reflexivity|]. cbn [flat_map filter].
  destruct (p x); cbn; rewrite IH; reflexivity.
Qed.

Lemma has_color_dominant (i : ClothingItem) :
  OpenModeSpec.has_color i = true -> exists c, get_dominant_rgb i = Some c.
Proof.
  unfold OpenModeSpec.has_color, get_dominant_rgb.
  destruct (dominant_colors i) as [|c l]; [discriminate|]. intros _. exists (rgb c). reflexivity.
Qed.

Lemma no_color_dominant (i : ClothingItem) :
  OpenModeSpec.has_color i = false -> get_dominant_rgb i = None.
Proof.
  unfold OpenModeSpec.has_color, get_dominant_rgb.
  destruct (dominant_colors i) as [|c l]; [reflexivity|discriminate].
Qed.

(** The colours collected from a tuple are those of its items that have one,
    in order. *)
Lemma dominant_colors_of_colored (l : list ClothingItem) :
  dominant_colors_of l = dominant_colors_of (filter OpenModeSpec.has_color l)
  /\ List.length (dominant_colors_of l) = List.length (filter OpenModeSpec.has_color l).
Proof.
  induction l as [|i l [IH1 IH2]]; [split; reflexivity|].
  cbn [filter dominant_colors_of].
  destruct (OpenModeSpec.has_color i) eqn:E.
  - destruct (has_color_dominant i E) as [c Hc]. cbn [dominant_colors_of]. rewrite Hc.
    cbn [List.length]. split; congruence.
  - rewrite (no_color_dominant i E). split; assumption.
Qed.

Lemma passes_scheme_first_two_colored (scheme : string) (combo : list ClothingItem) :
  scheme <> EmptyString ->
  passes_scheme (Some scheme) combo = OpenModeSpec.first_two_colored_gate scheme combo.
Proof.
  intros Hs. unfold passes_scheme, OpenModeSpec.first_two_colored_gate.
  destruct scheme as [|a s]; [congruence|]. cbn [PyList.truthy scheme_of].
  destruct (dominant_colors_of_colored combo) as [H1 H2]. rewrite H1. clear H1 H2.
  assert (Hall : forall i, In i (filter OpenModeSpec.has_color combo) -> OpenModeSpec.has_color i = true)
    by (intros i Hi; apply filter_In in Hi; tauto).
  destruct (filter OpenModeSpec.has_color combo) as [|i0 [|i1 rest]]; [reflexivity| |].
  - destruct (has_color_dominant i0 (Hall i0 (or_introl eq_refl))) as [c0 H0].
    cbn [dominant_colors_of]. rewrite H0. reflexivity.
  - destruct (has_color_dominant i0 (Hall i0 (or_introl eq_refl))) as [c0 H0].
    destruct (has_color_dominant i1 (Hall i1 (or_intror (or_introl eq_refl)))) as [c1 H1].
    cbn [dominant_colors_of]. rewrite H0, H1. reflexivity.
Qed.

(** C8 as amended: in open mode with a colour scheme set, a tuple is kept
    exactly when the dominant colours of its first two items that have a
    dominant colour satisfy [colors_match] for the scheme, or it has fewer
    than two such items; no other pair is looked at. *)
Theorem open_mode_gate_first_two_colored (items_by_category : by_category)
        (scheme : string) (pat : list ClothingCategory) :
  scheme <> EmptyString ->
  (forall combo : list ClothingItem,
      passes_scheme (Some scheme) combo = OpenModeSpec.first_two_colored_gate scheme combo)
  /\ all_combinations_pattern items_by_category (Some scheme) pat
     = match all_category_options items_by_category pat with
       | Some category_options =>
           map (fun combo => make_suggestion combo pat)
               (filter (OpenModeSpec.first_two_colored_gate scheme)
                       (PyList.product category_options))
       | None => []
       end.
Proof.
  intros Hs. split; [intros combo; apply passes_scheme_first_two_colored, Hs|].
  unfold all_combinations_pattern.
  destruct (all_category_options items_by_category pat) as [opts|]; [|reflexivity].
  rewrite flat_map_if_singleton. f_equal. apply filter_ext.
  intros combo. apply passes_scheme_first_two_colored, Hs.
Qed.

Lemma open_mode_gate_first_two_colored_witness :
  let dict := group_by_category Examples.closet in
  "complementary" <> EmptyString
  /\ all_combinations_pattern dict (Some "complementary") [TOP; BOTTOM; SHOES]
     = match all_category_options dict [TOP; BOTTOM; SHOES] with
       | Some category_options =>
           map (fun combo => make_suggestion combo [TOP; BOTTOM; SHOES])
               (filter (OpenModeSpec.first_two_colored_gate "complementary")
                       (PyList.product category_options))
       | None => []
       end.
Proof.
  intros dict.
  assert (H : "complementary" <> EmptyString) by discriminate.
  split; [exact H|].
  exact (proj2 (open_mode_gate_first_two_colored dict "complementary" [TOP; BOTTOM; SHOES] H)).
Defined.

(** C8 as worded fails on a closet of a top without colours, a red bottom
    and yellow shoes under the complementary scheme: the code keeps the tuple
    (top, bottom), although the first two items have no pair of colours to
    match, and discards the tuple (top, bottom, shoes) because of the pair
    (bottom, shoes), which is not the pair of the first two items.  Whether a
    missing colour is read as "kept" or as "discarded", the gate on the first
    two items is not the filter of the code. *)
Lemma open_mode_gate_counterexample :
  map items (_generate_all_combinations (group_by_category Examples.closet)
                                        (Some "complementary"))
  = [[Examples.plain_top; Examples.red_bottom]]
  /\ OpenModeSpec.first_two_items_gate
       true "complementary"
       [Examples.plain_top; Examples.red_bottom; Examples.yellow_shoes] = true
  /\ OpenModeSpec.first_two_items_gate
       false "complementary" [Examples.plain_top; Examples.red_bottom] = false
  /\ ~ (exists missing : bool, forall combo : list ClothingItem,
          passes_scheme (Some "complementary") combo
          = OpenModeSpec.first_two_items_gate missing "complementary" combo).
Proof.
  split; [vm_compute; reflexivity|]. split; [reflexivity|]. split; [reflexivity|].
  intros [missing H]. destruct missing.
  - specialize (H [Examples.plain_top; Examples.red_bottom; Examples.yellow_shoes]).
    vm_compute in H. discriminate H.
  - specialize (H [Examples.plain_top; Examples.red_bottom]).
    vm_compute in H. discriminate H.
Qed.

End FilterClaims.

(** * The stable descending sort *)

Section SortFacts.

Context {A K : Type} (ltb : K -> K -> bool) (eqb : K -> K -> bool) (key : A -> K).

Hypothesis ltb_asymmetric : forall x y, ltb x y = true -> ltb y x = false.
Hypothesis eqb_excludes_ltb :
  forall x y v, eqb x v = true -> eqb y v = true -> ltb x y = false.

Let descending := PyList.descending ltb key.

Lemma insert_desc_perm (x : A) (l : list A) :
  Permutation (PyList.insert_desc ltb key x l) (x :: l).
Proof.
  induction l as [|y l IH]; cbn [PyList.insert_desc]; [reflexivity|].
  destruct (ltb (key x) (key y)); [|reflexivity].
  rewrite IH. apply perm_swap.
Qed.

Lemma sort_reverse_perm (l : list A) :
  Permutation (PyList.sort_reverse ltb key l) l.
Proof.
  induction l as [|x l IH]; [reflexivity|].
  cbn [PyList.sort_reverse fold_right].
  rewrite insert_desc_perm. apply perm_skip, IH.
Qed.

Lemma insert_desc_hd (y x : A) (l : list A) :
  descending y x -> HdRel descending y l ->
  HdRel descending y (PyList.insert_desc ltb key x l).
Proof.
  intros Hyx Hl. destruct l as [|z l]; cbn [PyList.insert_desc].
  - constructor. exact Hyx.
  - destruct (ltb (key x) (key z)); constructor; [|exact Hyx].
    inversion Hl. assumption.
Qed.

Lemma insert_desc_sorted (x : A) (l : list A) :
  Sorted descending l -> Sorted descending (PyList.insert_desc ltb key x l).
Proof.
  induction l as [|y l IH]; intros Hs; cbn [PyList.insert_desc].
  - repeat constructor.
  - destruct (ltb (key x) (key y)) eqn:E.
    + inversion Hs as [|? ? Hs' Hhd]; subst. constructor; [apply IH, Hs'|].
      apply insert_desc_hd; [|exact Hhd].
      unfold descending, PyList.descending. apply ltb_asymmetric, E.
    + constructor; [exact Hs|]. constructor. exact E.
Qed.

Lemma sort_reverse_sorted (l : list A) :
  Sorted descending (PyList.sort_reverse ltb key l).
Proof.
  induction l as [|x l IH]; [constructor|].
  cbn [PyList.sort_reverse fold_right]. apply insert_desc_sorted, IH.
Qed.

(** Elements of equal key keep their order. *)
Lemma insert_desc_stable (v : K) (x : A) (l : list A) :
  filter (fun a => eqb (key a) v) (PyList.insert_desc ltb key x l)
  = filter (fun a => eqb (key a) v) (x :: l).
Proof.
  induction l as [|y l IH]; cbn [PyList.insert_desc]; [reflexivity|].
  destruct (ltb (key x) (key y)) eqn:E; [|reflexivity].
  cbn [filter] in *. rewrite IH.
  destruct (eqb (key x) v) eqn:Ex, (eqb (key y) v) eqn:Ey; try reflexivity.
  rewrite (eqb_excludes_ltb _ _ _ Ex Ey) in E. discriminate E.
Qed.

Lemma sort_reverse_stable (v : K) (l : list A) :
  filter (fun a => eqb (key a) v) (PyList.sort_reverse ltb key l)
  = filter (fun a => eqb (key a) v) l.
Proof.
  induction l as [|x l IH]; [reflexivity|].
  cbn [PyList.sort_reverse fold_right]. rewrite insert_desc_stable.
  cbn [filter]. fold (PyList.sort_reverse ltb key l). rewrite IH. reflexivity.
Qed.

Lemma sorted_firstn (R : A -> A -> Prop) (n : nat) (l : list A) :
  Sorted R l -> Sorted R (firstn n l).
Proof.
  revert l. induction n as [|n IH]; intros l Hs; [constructor|].
  destruct l as [|x l]; [constructor|]. cbn [firstn].
  inversion Hs as [|? ? Hs' Hhd]; subst. constructor; [apply IH, Hs'|].
  destruct l as [|y l]; [rewrite firstn_nil; constructor|].
  destruct n as [|n']; cbn [firstn]; [constructor|].
  inversion Hhd. constructor. assumption.
Qed.

End SortFacts.

Section ListFacts.

Lemma slice_to_firstn {A : Type} (l : list A) (k : Z) :
  (0 <= k)%Z -> PyList.slice_to l k = firstn (Z.to_nat k) l.
Proof.
  intros H. unfold PyList.slice_to.
  destruct (Z.leb_spec 0 k); [reflexivity|lia].
Qed.

Lemma product_length {A : Type} (ls : list (list A)) (combo : list A) :
  In combo (PyList.product ls) -> List.length combo = List.length ls.
Proof.
  revert combo. induction ls as [|l ls IH]; intros combo H; cbn [PyList.product] in H.
  - destruct H as [<-|[]]. reflexivity.
  - apply in_flat_map in H. destruct H as (x & _ & H).
    apply in_map_iff in H. destruct H as (c & <- & Hc).
    cbn [List.length]. f_equal. apply IH, Hc.
Qed.

Lemma filter_length_lt {A : Type} (p : A -> bool) (l : list A) :
  existsb (fun x => negb (p x)) l = true ->
  (List.length (filter p l) < List.length l)%nat.
Proof.
  induction l as [|x l IH]; cbn [existsb filter List.length]; [discriminate|].
  pose proof (filter_length_le p l) as Hle.
  destruct (p x); cbn [negb orb List.length]; intros H; [specialize (IH H)|]; lia.
Qed.

End ListFacts.

(** * Scores of the candidates *)

Section ScoreFacts.

Import OutfitGeneratorService.
Local Open Scope float_scope.

Lemma zrange_In (lo : Z) (n : nat) (z : Z) :
  (lo <= z < lo + Z.of_nat n)%Z -> In z (ScoreTables.zrange lo n).
Proof.
  intros H. unfold ScoreTables.zrange. apply in_map_iff.
  exists (Z.to_nat (z - lo)). split; [lia|]. apply in_seq. lia.
Qed.

Lemma table_lookup (f : Z -> bool) (lo : Z) (n : nat) :
  forallb f (ScoreTables.zrange lo n) = true ->
  forall z, (lo <= z < lo + Z.of_nat n)%Z -> f z = true.
Proof.
  intros H z Hz. rewrite forallb_forall in H. apply H, zrange_In, Hz.
Qed.

Lemma harmony_table : forallb ScoreTables.harmony_steps_exact (ScoreTables.zrange 0 201) = true.
Proof. vm_cast_no_check (eq_refl true). Qed.

Lemma style_table : forallb ScoreTables.style_steps_exact (ScoreTables.zrange 0 101) = true.
Proof. vm_cast_no_check (eq_refl true). Qed.

Lemma clamp_table : forallb ScoreTables.clamp_exact (ScoreTables.zrange 0 201) = true.
Proof. vm_cast_no_check (eq_refl true). Qed.

Lemma round2_table : forallb ScoreTables.round2_fixed (ScoreTables.zrange 0 101) = true.
Proof. vm_cast_no_check (eq_refl true). Qed.

Lemma feq_eq (x y : float) : Leibniz.eqb x y = true -> x = y.
Proof. apply FloatAxioms.Leibniz.eqb_spec. Qed.

Lemma adjust_cases (score d : float) :
  ColorHarmonyService.adjust score d = score
  \/ ColorHarmonyService.adjust score d = score + 10
  \/ ColorHarmonyService.adjust score d = score + 5
  \/ ColorHarmonyService.adjust score d = score + 8
  \/ ColorHarmonyService.adjust score d = score - 15.
Proof.
  unfold ColorHarmonyService.adjust.
  destruct (_ && _); [tauto|]. destruct (_ <=? 45); [tauto|].
  destruct (_ && _); [tauto|]. destruct (_ && _); tauto.
Qed.

(** One step of the pairwise loop on an integer score. *)
Lemma adjust_int (z : Z) (d : float) :
  (0 <= z <= 200)%Z ->
  exists z', (z - 15 <= z' <= z + 10)%Z
             /\ ColorHarmonyService.adjust (PyFloat.of_Z z) d = PyFloat.of_Z z'.
Proof.
  intros Hz.
  pose proof (table_lookup _ _ _ harmony_table z ltac:(lia)) as H.
  unfold ScoreTables.harmony_steps_exact in H.
  apply andb_true_iff in H. destruct H as [H H15].
  apply andb_true_iff in H. destruct H as [H H8].
  apply andb_true_iff in H. destruct H as [H10 H5].
  apply feq_eq in H10, H5, H8, H15.
  destruct (adjust_cases (PyFloat.of_Z z) d) as [E|[E|[E|[E|E]]]]; rewrite E.
  - exists z. split; [lia|reflexivity].
  - exists (z + 10)%Z. split; [lia|exact H10].
  - exists (z + 5)%Z. split; [lia|exact H5].
  - exists (z + 8)%Z. split; [lia|exact H8].
  - exists (z - 15)%Z. split; [lia|exact H15].
Qed.

Lemma fold_adjust_int (ds : list float) (z : Z) :
  (0 <= z - 15 * Z.of_nat (List.length ds))%Z ->
  (z + 10 * Z.of_nat (List.length ds) <= 200)%Z ->
  exists z', (z - 15 * Z.of_nat (List.length ds) <= z'
              <= z + 10 * Z.of_nat (List.length ds))%Z
             /\ fold_left ColorHarmonyService.adjust ds (PyFloat.of_Z z) = PyFloat.of_Z z'.
Proof.
  revert z. induction ds as [|d ds IH]; intros z Hlo Hhi; cbn [List.length fold_left] in *.
  - exists z. split; [lia|reflexivity].
  - destruct (adjust_int z d ltac:(lia)) as (z1 & Hz1 & E). rewrite E.
    destruct (IH z1 ltac:(lia) ltac:(lia)) as (z' & Hz' & E').
    exists z'. split; [lia|exact E'].
Qed.

Lemma inner_loop_map (c : HSL) (rest : list HSL) (score : float) :
  ColorHarmonyService.inner_loop c rest score
  = fold_left ColorHarmonyService.adjust
              (map (fun c2 => ColorHarmonyService.hue_diff (fst (fst c)) (fst (fst c2))) rest)
              score.
Proof.
  unfold ColorHarmonyService.inner_loop. revert score.
  induction rest as [|c2 rest IH]; intros score; [reflexivity|].
  cbn [map fold_left]. apply IH.
Qed.

Lemma outer_loop_pair_diffs (l : list HSL) (score : float) :
  ColorHarmonyService.outer_loop l score
  = fold_left ColorHarmonyService.adjust (ScoreTables.pair_diffs l) score.
Proof.
  revert score. induction l as [|c rest IH]; intros score; [reflexivity|].
  cbn [ColorHarmonyService.outer_loop ScoreTables.pair_diffs].
  rewrite fold_left_app, IH, inner_loop_map. reflexivity.
Qed.

Lemma pair_diffs_length (l : list HSL) :
  (List.length l <= 4)%nat -> (List.length (ScoreTables.pair_diffs l) <= 6)%nat.
Proof.
  intros H. destruct l as [|a [|b [|c [|d [|e l]]]]]; cbn in *; lia.
Qed.

Lemma of_Z_100 : PyFloat.of_Z 100 = 100.
Proof. reflexivity. Qed.

Lemma of_Z_50 : PyFloat.of_Z 50 = 50.
Proof. reflexivity. Qed.

Lemma of_Z_0 : PyFloat.of_Z 0 = 0.
Proof. reflexivity. Qed.

Lemma clamp_int (z : Z) :
  (0 <= z <= 200)%Z ->
  exists z', (0 <= z' <= 100)%Z
             /\ ColorHarmonyService.clamp (PyFloat.of_Z z) = PyFloat.of_Z z'.
Proof.
  intros Hz. exists (Z.max 0 (Z.min 100 z)). split; [lia|].
  apply feq_eq. exact (table_lookup _ _ _ clamp_table z ltac:(lia)).
Qed.

Lemma dominant_colors_of_length (l : list ClothingItem) :
  (List.length (dominant_colors_of l) <= List.length l)%nat.
Proof.
  induction l as [|i l IH]; [reflexivity|]. cbn [dominant_colors_of List.length].
  destruct (get_dominant_rgb i); cbn [List.length]; lia.
Qed.

(** The harmony score of at most four garments is an integer of [[0,100]]. *)
Lemma outfit_harmony_int (l : list ClothingItem) :
  (List.length l <= 4)%nat ->
  exists z, (0 <= z <= 100)%Z /\ calculate_outfit_harmony l = PyFloat.of_Z z.
Proof.
  intros Hl. unfold calculate_outfit_harmony.
  destruct (List.length (dominant_colors_of l) <? 2)%nat; [exists 100%Z; split; [lia|reflexivity]|].
  unfold ColorHarmonyService.calculate_harmony_score.
  destruct (List.length (dominant_colors_of l) <? 2)%nat; [exists 100%Z; split; [lia|reflexivity]|].
  rewrite outer_loop_pair_diffs, <- of_Z_100.
  pose proof (dominant_colors_of_length l) as Hc.
  set (ds := ScoreTables.pair_diffs (map ColorHarmonyService.rgb_to_hsl (dominant_colors_of l))).
  assert (Hp : (List.length ds <= 6)%nat)
    by (apply pair_diffs_length; rewrite length_map; lia).
  destruct (fold_adjust_int ds 100 ltac:(lia) ltac:(lia)) as (z1 & Hz1 & E). rewrite E.
  apply clamp_int. lia.
Qed.

Lemma style_step_int (z : Z) (p : ClothingStyle * ClothingStyle) :
  (0 <= z <= 100)%Z ->
  exists z', (z - 10 <= z' <= z + 10)%Z /\ style_step (PyFloat.of_Z z) p = PyFloat.of_Z z'.
Proof.
  intros Hz.
  pose proof (table_lookup _ _ _ style_table z ltac:(lia)) as H.
  unfold ScoreTables.style_steps_exact in H.
  apply andb_true_iff in H. destruct H as [H Hm].
  apply andb_true_iff in H. destruct H as [H10 H5].
  apply feq_eq in H10, H5, Hm.
  destruct p as [s1 s2]. unfold style_step.
  destruct (style_eqb s1 s2); [exists (z + 10)%Z; split; [lia|exact H10]|].
  destruct (_ || _); [exists (z + 5)%Z; split; [lia|exact H5]|exists (z - 10)%Z; split; [lia|exact Hm]].
Qed.

Lemma fold_style_int (ps : list (ClothingStyle * ClothingStyle)) (z : Z) :
  (0 <= z - 10 * Z.of_nat (List.length ps))%Z ->
  (z + 10 * Z.of_nat (List.length ps) <= 100)%Z ->
  exists z', (z - 10 * Z.of_nat (List.length ps) <= z'
              <= z + 10 * Z.of_nat (List.length ps))%Z
             /\ fold_left style_step ps (PyFloat.of_Z z) = PyFloat.of_Z z'.
Proof.
  revert z. induction ps as [|p ps IH]; intros z Hlo Hhi; cbn [List.length fold_left] in *.
  - exists z. split; [lia|reflexivity].
  - destruct (style_step_int z p ltac:(lia)) as (z1 & Hz1 & E). rewrite E.
    destruct (IH z1 ltac:(lia) ltac:(lia)) as (z' & Hz' & E').
    exists z'. split; [lia|exact E'].
Qed.

Lemma adjacent_length {A : Type} (l : list A) :
  List.length (adjacent l) = (List.length l - 1)%nat.
Proof.
  unfold adjacent. rewrite length_combine. destruct l as [|x l]; cbn [tl List.length]; lia.
Qed.

(** The style score of at most four garments is an integer of [[0,100]]. *)
Lemma style_score_int (l : list ClothingItem) :
  (List.length l <= 4)%nat ->
  exists z, (0 <= z <= 100)%Z /\ check_style_compatibility l = PyFloat.of_Z z.
Proof.
  intros Hl. unfold check_style_compatibility.
  destruct l as [|i l]; [exists 0%Z; split; [lia|reflexivity]|].
  destruct (_ =? 1)%nat; [exists 100%Z; split; [lia|reflexivity]|].
  rewrite <- of_Z_50.
  set (ps := adjacent (map style (i :: l))).
  assert (Hp : (List.length ps <= 3)%nat)
    by (unfold ps; rewrite adjacent_length, length_map; cbn [List.length] in *; lia).
  destruct (fold_style_int ps 50 ltac:(lia) ltac:(lia)) as (z1 & Hz1 & E). rewrite E.
  apply clamp_int. lia.
Qed.

Lemma round2_int (z : Z) :
  (0 <= z <= 100)%Z -> PyFloat.round2 (PyFloat.of_Z z) = PyFloat.of_Z z.
Proof.
  intros Hz. apply feq_eq. exact (table_lookup _ _ _ round2_table z ltac:(lia)).
Qed.

End ScoreFacts.

(** * The candidates and their ranking *)

Section RankingClaims.

Import OutfitGeneratorService.
Local Open Scope float_scope.

Lemma patterns_short (pat : list ClothingCategory) :
  In pat OUTFIT_COMBINATIONS -> (List.length pat <= 4)%nat.
Proof.
  unfold OUTFIT_COMBINATIONS. cbn [In].
  intros [H|[H|[H|[H|[H|[H|[H|[H|[]]]]]]]]]; subst pat; cbn; lia.
Qed.

Lemma all_category_options_length (d : by_category) (pat : list ClothingCategory)
      (opts : list (list ClothingItem)) :
  all_category_options d pat = Some opts -> List.length opts = List.length pat.
Proof.
  revert opts. induction pat as [|cat pat IH]; intros opts H; cbn [all_category_options] in H.
  - injection H as <-. reflexivity.
  - destruct (PyList.lookup category_eqb d cat); [|discriminate].
    destruct (all_category_options d pat) as [others|]; [|discriminate].
    injection H as <-. cbn [List.length]. f_equal. apply IH. reflexivity.
Qed.

Lemma category_eqb_sym (a b : ClothingCategory) : category_eqb a b = category_eqb b a.
Proof. destruct a, b; reflexivity. Qed.

Lemma others_shorter (c : ClothingCategory) (pat : list ClothingCategory) :
  existsb (category_eqb c) pat = true ->
  (List.length (filter (fun x => negb (category_eqb x c)) pat) < List.length pat)%nat.
Proof.
  intros H. apply filter_length_lt.
  apply existsb_exists in H. destruct H as (x & Hx & E).
  apply existsb_exists. exists x. split; [exact Hx|].
  rewrite category_eqb_sym, E. reflexivity.
Qed.

(** Every candidate is the suggestion built from a tuple of at most four
    garments. *)
Lemma candidate_shape (all_items : list ClothingItem) (base : option string)
      (st : option ClothingStyle) (scheme : option string) (s : Suggestion) :
  In s (generated_candidates all_items base st scheme) ->
  exists l pat, s = make_suggestion l pat /\ (List.length l <= 4)%nat.
Proof.
  unfold generated_candidates. destruct all_items as [|i0 rest]; [intros []|].
  set (all := filter_by_style st (i0 :: rest)).
  set (d := group_by_category all).
  assert (Hopen : In s (_generate_all_combinations d scheme) ->
                  exists l pat, s = make_suggestion l pat /\ (List.length l <= 4)%nat).
  { unfold _generate_all_combinations. intros H.
    apply in_flat_map in H. destruct H as (pat & Hpat & H).
    unfold all_combinations_pattern in H.
    destruct (all_category_options d pat) as [opts|] eqn:E; [|destruct H].
    apply in_flat_map in H. destruct H as (combo & Hc & H).
    destruct (passes_scheme scheme combo); [|destruct H].
    destruct H as [<-|[]]. exists combo, pat. split; [reflexivity|].
    rewrite (product_length _ _ Hc), (all_category_options_length _ _ _ E).
    apply patterns_short, Hpat. }
  destruct base as [[|a b]|]; try exact Hopen.
  destruct (find _ all) as [base_item|]; [|intros []].
  unfold _generate_from_base. intros H.
  apply in_flat_map in H. destruct H as (pat & Hpat & H).
  apply filter_In in Hpat. destruct Hpat as [Hpat Hin].
  unfold from_base_pattern in H.
  destruct (_ =? _)%nat eqn:E; [|destruct H]. apply Nat.eqb_eq in E.
  apply in_map_iff in H. destruct H as (combo & <- & Hc).
  exists (base_item :: combo), pat. split; [reflexivity|].
  cbn [List.length]. rewrite (product_length _ _ Hc), E.
  pose proof (others_shorter _ _ Hin). pose proof (patterns_short _ Hpat). lia.
Qed.

Lemma In_firstn {A : Type} (n : nat) (l : list A) (x : A) : In x (firstn n l) -> In x l.
Proof.
  revert l. induction n as [|n IH]; intros l H; [destruct H|].
  destruct l as [|y l]; [destruct H|]. destruct H as [H|H]; [left; exact H|right; apply IH, H].
Qed.

Lemma In_slice_to {A : Type} (l : list A) (k : Z) (x : A) : In x (PyList.slice_to l k) -> In x l.
Proof. unfold PyList.slice_to. destruct (0 <=? k)%Z; apply In_firstn. Qed.

Lemma generated_In (request storage : list ClothingItem) (base : option string)
      (st : option ClothingStyle) (scheme : option string) (k : Z) (s : Suggestion) :
  In s (generate_outfit_suggestions request storage base st scheme k) ->
  In s (generated_candidates (resolve_items request storage) base st scheme).
Proof.
  unfold generate_outfit_suggestions.
  destruct (resolve_items request storage) as [|i l] eqn:E; [intros []|].
  intros H. apply In_slice_to in H.
  exact (Permutation_in _ (sort_reverse_perm PrimFloat.ltb total_score _) H).
Qed.

(** C4: the total score of every returned candidate, in base-item mode and
    in open mode, is 0.6 times its colour harmony score plus 0.4 times its
    style score, rounded to two decimals. *)
Theorem total_score_is_weighted_sum (request storage : list ClothingItem)
        (base : option string) (st : option ClothingStyle) (scheme : option string)
        (k : Z) (c : Suggestion) :
  In c (generate_outfit_suggestions request storage base st scheme k) ->
  total_score c
  = PyFloat.round2 (0.6 * color_harmony_score c + 0.4 * style_compatibility_score c).
Proof.
  intros H. apply generated_In, candidate_shape in H.
  destruct H as (l & pat & -> & Hl).
  destruct (outfit_harmony_int l Hl) as (zh & Hzh & Eh).
  destruct (style_score_int l Hl) as (zs & Hzs & Es).
  unfold make_suggestion. cbn [total_score color_harmony_score style_compatibility_score].
  rewrite Eh, Es, (round2_int zh Hzh), (round2_int zs Hzs).
  rewrite (mul_comm 0.6), (mul_comm 0.4). reflexivity.
Qed.

Lemma total_score_is_weighted_sum_witness :
  let c := make_suggestion [Examples.plain_top; Examples.red_bottom] [TOP; BOTTOM] in
  In c (generate_outfit_suggestions Examples.closet [] None None None 5)
  /\ total_score c
     = PyFloat.round2 (0.6 * color_harmony_score c + 0.4 * style_compatibility_score c).
Proof.
  intros c.
  assert (H : In c (generate_outfit_suggestions Examples.closet [] None None None 5)).
  { vm_compute. left. reflexivity. }
  split; [exact H|].
  exact (total_score_is_weighted_sum Examples.closet [] None None None 5 c H).
Defined.

End RankingClaims.

Section TopK.

Import OutfitGeneratorService.
Local Open Scope float_scope.

Lemma total_table :
  forallb (fun zh => forallb (ScoreTables.total_defined zh) (ScoreTables.zrange 0 101))
          (ScoreTables.zrange 0 101) = true.
Proof. vm_cast_no_check (eq_refl true). Qed.

Lemma eqb_refl_not_nan (t : float) : (t =? t) = true -> PyFloat.not_nan t.
Proof.
  unfold PyFloat.not_nan. rewrite eqb_spec. intros H E. rewrite E in H. discriminate H.
Qed.

(** Among numbers, "not smaller" is "greater or equal". *)
Lemma not_ltb_leb (x y : float) :
  PyFloat.not_nan x -> PyFloat.not_nan y -> (x <? y) = false -> (y <=? x) = true.
Proof.
  unfold PyFloat.not_nan. rewrite ltb_spec, leb_spec. unfold SFltb, SFleb.
  intros Hx Hy.
  destruct (Prim2SF x) as [s|s| |s m e], (Prim2SF y) as [s'|s'| |s' m' e'];
    try congruence; try (destruct s; try destruct s'; cbn; congruence);
    try (destruct s'; cbn; congruence).
  destruct s, s'; try (cbn; congruence).
  - cbn [SFcompare]. rewrite (Z.compare_antisym e e').
    change (Pos.compare_cont Eq m' m) with (Pos.compare m' m).
    change (Pos.compare_cont Eq m m') with (Pos.compare m m').
    rewrite (Pos.compare_antisym m m').
    destruct (Z.compare e e'); cbn; try congruence.
    destruct (Pos.compare m m'); cbn; congruence.
  - cbn [SFcompare]. rewrite (Z.compare_antisym e e').
    change (Pos.compare_cont Eq m' m) with (Pos.compare m' m).
    change (Pos.compare_cont Eq m m') with (Pos.compare m m').
    rewrite (Pos.compare_antisym m m').
    destruct (Z.compare e e'); cbn; try congruence.
    destruct (Pos.compare m m'); cbn; congruence.
Qed.

Lemma candidate_total_not_nan (all_items : list ClothingItem) (base : option string)
      (st : option ClothingStyle) (scheme : option string) (s : Suggestion) :
  In s (generated_candidates all_items base st scheme) ->
  PyFloat.not_nan (total_score s).
Proof.
  intros H. apply candidate_shape in H. destruct H as (l & pat & -> & Hl).
  destruct (outfit_harmony_int l Hl) as (zh & Hzh & Eh).
  destruct (style_score_int l Hl) as (zs & Hzs & Es).
  unfold make_suggestion. cbn [total_score]. rewrite Eh, Es.
  apply eqb_refl_not_nan.
  pose proof (table_lookup _ _ _ total_table zh ltac:(lia)) as H. cbv beta in H.
  exact (table_lookup _ _ _ H zs ltac:(lia)).
Qed.

Lemma Sorted_strengthen {A : Type} (R R' : A -> A -> Prop) (P : A -> Prop) (l : list A) :
  (forall a b, P a -> P b -> R a b -> R' a b) ->
  Forall P l -> Sorted R l -> Sorted R' l.
Proof.
  intros HR HP Hs. induction Hs as [|a l Hs IH Hhd]; [constructor|].
  inversion HP as [|? ? Pa Pl]; subst. constructor; [apply IH, Pl|].
  destruct Hhd as [|b l' Hab]; constructor.
  inversion Pl; subst. apply HR; assumption.
Qed.

(** C3: for a valid [max_suggestions], the returned list is the first
    [max_suggestions] elements of the candidates sorted by descending total
    score, candidates of equal total score keeping their order of generation;
    it has at most [max_suggestions] elements. *)
Theorem generate_returns_top_k (request storage : list ClothingItem)
        (base : option string) (st : option ClothingStyle) (scheme : option string)
        (k : Z) :
  (1 <= k <= 20)%Z ->
  let candidates := generated_candidates (resolve_items request storage) base st scheme in
  let sorted := PyList.sort_reverse PrimFloat.ltb total_score candidates in
  let result := generate_outfit_suggestions request storage base st scheme k in
  result = firstn (Z.to_nat k) sorted
  /\ Permutation sorted candidates
  /\ Sorted (fun a b => (total_score b <=? total_score a) = true) sorted
  /\ (forall v : float,
         filter (fun s => total_score s =? v) sorted
         = filter (fun s => total_score s =? v) candidates)
  /\ (Z.of_nat (List.length result) <= k)%Z.
Proof.
  intros Hk candidates sorted result.
  assert (Hres : result = firstn (Z.to_nat k) sorted).
  { unfold result, sorted, candidates, generate_outfit_suggestions.
    destruct (resolve_items request storage) as [|i l]; [rewrite firstn_nil; reflexivity|].
    apply slice_to_firstn. lia. }
  assert (Hperm : Permutation sorted candidates) by apply sort_reverse_perm.
  split; [exact Hres|]. split; [exact Hperm|]. split; [|split].
  - apply (Sorted_strengthen (PyList.descending PrimFloat.ltb total_score) _
                             (fun s => PyFloat.not_nan (total_score s))).
    + intros a b Ha Hb Hab. apply not_ltb_leb; assumption.
    + apply Forall_forall. intros s Hs.
      apply (candidate_total_not_nan (resolve_items request storage) base st scheme).
      exact (Permutation_in _ Hperm Hs).
    + apply sort_reverse_sorted. exact ltb_asym.
  - intros v. apply (sort_reverse_stable PrimFloat.ltb PrimFloat.eqb total_score).
    exact eqb_not_ltb.
  - rewrite Hres. pose proof (firstn_le_length (Z.to_nat k) sorted). rewrite length_firstn. lia.
Qed.

Lemma generate_returns_top_k_witness :
  (1 <= 1 <= 20)%Z
  /\ generate_outfit_suggestions Examples.closet [] None None None 1
     = firstn (Z.to_nat 1)
              (PyList.sort_reverse PrimFloat.ltb total_score
                 (generated_candidates (resolve_items Examples.closet []) None None None)).
Proof.
  assert (H : (1 <= 1 <= 20)%Z) by lia.
  split; [exact H|].
  exact (proj1 (generate_returns_top_k Examples.closet [] None None None 1 H)).
Defined.

End TopK.

(** * Rounding: validity and size of the result *)

Section RoundingFacts.

Local Open Scope Z_scope.

Lemma fexp_unfold x : fexp prec emax x = Z.max (x - 53) (-1074).
Proof. reflexivity. Qed.

Lemma digits2_unique p k : 2 ^ (k - 1) <= Zpos p < 2 ^ k -> Zpos (digits2_pos p) = k.
Proof.
  intros [Hl Hu].
  assert (Hk : 0 <= k).
  { destruct (Z_lt_le_dec k 0) as [Hneg|]; [|lia]. rewrite Z.pow_neg_r in Hu by lia. lia. }
  pose proof (proj2 (digits2_le_iff p k Hk) Hu) as H1.
  destruct (Z_lt_le_dec (Zpos (digits2_pos p)) k) as [Hlt|]; [|lia].
  assert (H2 : Zpos (digits2_pos p) <= k - 1) by lia.
  apply digits2_le_iff in H2; lia.
Qed.

Lemma Zdigits2_nonneg m : 0 <= Zdigits2 m.
Proof. destruct m; cbn; lia. Qed.

Lemma Zdigits2_le m k : 0 <= m < 2 ^ k -> 0 <= k -> Zdigits2 m <= k.
Proof.
  intros [H0 H1] Hk. destruct m as [|p|p]; cbn; try lia.
  apply digits2_le_iff; assumption.
Qed.

Lemma Zdigits2_ge m k : 2 ^ (k - 1) <= m -> 1 <= k -> k <= Zdigits2 m.
Proof.
  intros H Hk. assert (0 < 2 ^ (k - 1)) by (apply Z.pow_pos_nonneg; lia).
  destruct m as [|p|p]; try lia. cbn.
  destruct (Z_lt_le_dec (Zpos (digits2_pos p)) k) as [Hlt|]; [|lia].
  assert (H2 : Zpos (digits2_pos p) <= k - 1) by lia.
  apply digits2_le_iff in H2; lia.
Qed.

Lemma Zdigits2_div m n : 0 < m -> 0 <= n < Zdigits2 m ->
  Zdigits2 (m / 2 ^ n) = Zdigits2 m - n.
Proof.
  intros Hm Hn. destruct m as [|p|p]; try lia. cbn [Zdigits2] in *.
  pose proof (digits2_lower p) as HL. pose proof (digits2_upper p) as HU.
  set (D := Zpos (digits2_pos p)) in *.
  assert (Hp : 0 < 2 ^ n) by (apply Z.pow_pos_nonneg; lia).
  assert (H1 : 2 ^ (D - n - 1) <= Zpos p / 2 ^ n).
  { apply Z.div_le_lower_bound; [exact Hp|].
    rewrite <- Z.pow_add_r by lia. replace (n + (D - n - 1)) with (D - 1) by lia. exact HL. }
  assert (H2 : Zpos p / 2 ^ n < 2 ^ (D - n)).
  { apply Z.div_lt_upper_bound; [exact Hp|].
    rewrite <- Z.pow_add_r by lia. replace (n + (D - n)) with D by lia. exact HU. }
  assert (0 < 2 ^ (D - n - 1)) by (apply Z.pow_pos_nonneg; lia).
  destruct (Zpos p / 2 ^ n) as [|q|q] eqn:E; try lia. cbn [Zdigits2].
  apply digits2_unique. replace (D - n - 1) with (D - n - 1) in H1 by lia. split; assumption.
Qed.

Lemma Zdigits2_mono a b : 0 <= a <= b -> Zdigits2 a <= Zdigits2 b.
Proof.
  intros [Ha Hab]. destruct a as [|p|p]; [apply Zdigits2_nonneg| |lia].
  destruct b as [|q|q]; try lia. cbn.
  apply digits2_le_iff; [lia|]. pose proof (digits2_upper q). lia.
Qed.

Lemma Zdigits2_succ a : 0 <= a -> Zdigits2 (a + 1) <= Zdigits2 a + 1.
Proof.
  intros Ha. destruct a as [|p|p]; [cbn; lia| |lia].
  change (Zpos p + 1) with (Zpos (p + 1)). cbn [Zdigits2].
  apply digits2_le_iff; [lia|]. pose proof (digits2_upper p) as HU.
  rewrite Z.pow_add_r by lia. lia.
Qed.

Lemma shr_fexp_max m e l : 0 <= m ->
  shr_m (fst (shr_fexp prec emax m e l))
    = m / 2 ^ (Z.max e (fexp prec emax (Zdigits2 m + e)) - e)
  /\ snd (shr_fexp prec emax m e l) = Z.max e (fexp prec emax (Zdigits2 m + e)).
Proof.
  intros Hm. destruct (shr_fexp_spec m e l Hm) as [H1 H2].
  destruct (Z_le_gt_dec (fexp prec emax (Zdigits2 m + e) - e) 0) as [Hn|Hn].
  - destruct (H1 Hn) as [E1 E2]. rewrite E1, E2.
    rewrite Z.max_l by lia. rewrite Z.sub_diag, Z.pow_0_r, Z.div_1_r. split; reflexivity.
  - destruct (H2 ltac:(lia)) as [E1 E2]. rewrite E1, E2.
    rewrite Z.max_r by lia. split; [reflexivity|lia].
Qed.

(** The two shifts of [binary_round_aux], spelt out. *)
Lemma binary_round_aux_decomp sx mx ex lx : 0 <= mx ->
  exists mr,
    mx / 2 ^ (Z.max ex (fexp prec emax (Zdigits2 mx + ex)) - ex) <= mr
      <= mx / 2 ^ (Z.max ex (fexp prec emax (Zdigits2 mx + ex)) - ex) + 1
    /\ binary_round_aux prec emax sx mx ex lx =
       let e1 := Z.max ex (fexp prec emax (Zdigits2 mx + ex)) in
       let e2 := Z.max e1 (fexp prec emax (Zdigits2 mr + e1)) in
       match mr / 2 ^ (e2 - e1) with
       | Z0 => S754_zero sx
       | Zpos m => if e2 <=? emax - prec then S754_finite sx m e2 else S754_infinity sx
       | Zneg _ => S754_nan
       end.
Proof.
  intros Hm. unfold binary_round_aux.
  destruct (shr_fexp_max mx ex lx Hm) as [E1 E2].
  destruct (shr_fexp prec emax mx ex lx) as [mrs' e'] eqn:E. cbn [fst snd] in E1, E2.
  set (mr := round_nearest_even (shr_m mrs') (loc_of_shr_record mrs')).
  pose proof (round_nearest_even_bounds (shr_m mrs') (loc_of_shr_record mrs')) as Hb. fold mr in Hb.
  exists mr. rewrite <- E1. split; [exact Hb|].
  assert (Hmr : 0 <= mr). { rewrite E1 in Hb. pose proof (div2pow_nonneg mx (Z.max ex (fexp prec emax (Zdigits2 mx + ex)) - ex) Hm). lia. }
  destruct (shr_fexp_max mr e' loc_Exact Hmr) as [F1 F2].
  destruct (shr_fexp prec emax mr e' loc_Exact) as [mrs'' e''] eqn:F. cbn [fst snd] in F1, F2.
  cbv zeta. rewrite F1. subst e''. subst e'. reflexivity.
Qed.

(** A mantissa with enough digits for its exponent is rounded to a valid
    number. *)
Lemma binary_round_aux_valid sx mx ex lx : 0 <= mx ->
  ex <= fexp prec emax (Zdigits2 mx + ex) ->
  valid_binary (binary_round_aux prec emax sx mx ex lx) = true.
Proof.
  intros Hm HP. destruct (binary_round_aux_decomp sx mx ex lx Hm) as (mr & Hmr & ->).
  cbv zeta. rewrite (Z.max_r ex) in * by exact HP.
  set (e1 := fexp prec emax (Zdigits2 mx + ex)) in *.
  set (m1 := mx / 2 ^ (e1 - ex)) in *.
  set (e2 := Z.max e1 (fexp prec emax (Zdigits2 mr + e1))).
  destruct (mr / 2 ^ (e2 - e1)) as [|m|m] eqn:Em; try reflexivity.
  destruct (e2 <=? emax - prec) eqn:Ee; [|reflexivity].
  cbn [valid_binary]. unfold bounded. rewrite Ee, andb_true_r.
  unfold canonical_mantissa. apply Z.eqb_eq.
  pose proof (div2pow_nonneg mx (e1 - ex) Hm) as Hm1. fold m1 in Hm1.
  assert (Hpos : 0 < mr). { destruct (Z_lt_le_dec 0 mr); [assumption|]. assert (mr = 0) by lia. subst mr. rewrite Z.div_0_l in Em; [discriminate|]. apply Z.pow_nonzero; [lia|]. unfold e2; lia. }
  assert (Hkey : fexp prec emax (Zdigits2 mr + e1) - e1 = 0
                 \/ (fexp prec emax (Zdigits2 mr + e1) - e1 = 1 /\ 2 <= Zdigits2 mr)).
  { destruct (Z_lt_le_dec (e1 - ex) (Zdigits2 mx)) as [Hn|Hn].
    - assert (Hmx : 0 < mx) by (destruct mx; cbn in Hn; lia).
      assert (HD1 : Zdigits2 m1 = Zdigits2 mx - (e1 - ex)) by (apply Zdigits2_div; lia).
      pose proof (Zdigits2_mono m1 mr ltac:(lia)) as Hlo.
      pose proof (Zdigits2_mono mr (m1 + 1) ltac:(lia)) as Hhi.
      pose proof (Zdigits2_succ m1 Hm1) as Hs.
      clear Em Ee. clearbody m1. subst e2. unfold e1 in *. clear e1.
      rewrite !fexp_unfold in *.
      set (D := Zdigits2 mx) in *. set (D1 := Zdigits2 m1) in *. set (D2 := Zdigits2 mr) in *.
      set (X := Zdigits2 (m1 + 1)) in *.
      clearbody D D1 D2 X. clear -HP Hn HD1 Hlo Hhi Hs.
      destruct (Z.max_spec (D + ex - 53) (-1074)) as [[? E]|[? E]]; rewrite E in *;
        destruct (Z.max_spec (D2 + (-1074) - 53) (-1074)) as [[? F]|[? F]];
        destruct (Z.max_spec (D2 + (D + ex - 53) - 53) (-1074)) as [[? G]|[? G]];
        try rewrite F; try rewrite G; lia.
    - assert (Hm1z : m1 = 0).
      { unfold m1. apply Z.div_small. split; [exact Hm|].
        destruct mx as [|p|p]; [apply Z.pow_pos_nonneg; lia| |lia].
        eapply Z.lt_le_trans; [apply digits2_upper|]. apply Z.pow_le_mono_r; cbn in Hn; lia. }
      assert (mr = 1) by lia. subst mr. cbn [Zdigits2 digits2_pos].
      pose proof (Zdigits2_nonneg mx) as HD0.
      clear Em Ee Hmr Hm1 Hpos Hm1z. subst e2. unfold e1 in *. clear e1 m1.
      rewrite !fexp_unfold in *.
      set (D := Zdigits2 mx) in *. clearbody D. clear -HP Hn HD0.
      destruct (Z.max_spec (D + ex - 53) (-1074)) as [[? E]|[? E]]; rewrite E in *;
        [|lia].
      left. change (Z.pos 1 + -1074 - 53) with (-1126). reflexivity. }
  assert (Hm' : Zdigits2 (mr / 2 ^ (e2 - e1)) = Zdigits2 mr - (e2 - e1)).
  { apply Zdigits2_div; [exact Hpos|]. unfold e2.
    assert (1 <= Zdigits2 mr) by (destruct mr as [|q|q]; cbn; lia).
    set (F := fexp prec emax (Zdigits2 mr + e1)) in *. clearbody F. lia. }
  rewrite Em in Hm'. cbn [Zdigits2] in Hm'. rewrite Hm'.
  replace (Zdigits2 mr - (e2 - e1) + e2) with (Zdigits2 mr + e1) by lia.
  unfold e2. set (F := fexp prec emax (Zdigits2 mr + e1)) in *. clearbody F. lia.
Qed.

(** The rounded value exceeds the value it is rounded from by at most one
    unit of the first shift; read with all exponents relative to [ex]. *)
Lemma binary_round_aux_value sx mx ex lx : 0 <= mx ->
  let e1 := Z.max ex (fexp prec emax (Zdigits2 mx + ex)) in
  forall k, 0 <= k -> mx + 2 ^ (e1 - ex) < 2 ^ k -> k + ex <= 972 ->
  binary_round_aux prec emax sx mx ex lx = S754_zero sx
  \/ exists m e, binary_round_aux prec emax sx mx ex lx = S754_finite sx m e
       /\ e1 <= e /\ Zpos m * 2 ^ (e - ex) <= mx + 2 ^ (e1 - ex).
Proof.
  intros Hm e1 k Hk HU Hke. destruct (binary_round_aux_decomp sx mx ex lx Hm) as (mr & Hmr & ->).
  cbv zeta. fold e1 in Hmr |- *.
  set (m1 := mx / 2 ^ (e1 - ex)) in *.
  set (e2 := Z.max e1 (fexp prec emax (Zdigits2 mr + e1))).
  assert (He1 : ex <= e1) by (unfold e1; lia).
  assert (He2 : e1 <= e2) by (unfold e2; lia).
  assert (Hp1 : 0 < 2 ^ (e1 - ex)) by (apply Z.pow_pos_nonneg; lia).
  assert (Hp2 : 0 < 2 ^ (e2 - e1)) by (apply Z.pow_pos_nonneg; lia).
  assert (Hm1 : m1 * 2 ^ (e1 - ex) <= mx).
  { unfold m1. rewrite Z.mul_comm. apply Z.mul_div_le. exact Hp1. }
  assert (Hm2 : (mr / 2 ^ (e2 - e1)) * 2 ^ (e2 - e1) <= mr).
  { rewrite Z.mul_comm. apply Z.mul_div_le. exact Hp2. }
  assert (Hval : (mr / 2 ^ (e2 - e1)) * 2 ^ (e2 - ex) <= mx + 2 ^ (e1 - ex)).
  { replace (e2 - ex) with ((e2 - e1) + (e1 - ex)) by lia. rewrite Z.pow_add_r by lia.
    rewrite Z.mul_assoc.
    apply Z.le_trans with ((m1 + 1) * 2 ^ (e1 - ex)); [|lia].
    apply Z.mul_le_mono_nonneg_r; lia. }
  destruct (mr / 2 ^ (e2 - e1)) as [|m|m] eqn:Em.
  - left. reflexivity.
  - right. assert (Hle : e2 <= emax - prec).
    { rewrite emax_val, prec_val.
      assert (H2 : 2 ^ (e2 - ex) < 2 ^ k).
      { eapply Z.le_lt_trans; [|exact HU]. eapply Z.le_trans; [|exact Hval].
        assert (0 < 2 ^ (e2 - ex)) by (apply Z.pow_pos_nonneg; lia). nia. }
      apply Z.pow_lt_mono_r_iff in H2; lia. }
    apply Z.leb_le in Hle. rewrite Hle. exists m, e2. split; [reflexivity|]. split; assumption.
  - exfalso. pose proof (div2pow_nonneg mx (e1 - ex) Hm) as H0. fold m1 in H0.
    pose proof (div2pow_nonneg mr (e2 - e1) ltac:(lia)) as H1. rewrite Em in H1. lia.
Qed.

End RoundingFacts.

(** * The percentage of a colour *)

Section PercentageFacts.

Local Open Scope Z_scope.

Lemma pow2_pos (n : Z) : 0 <= n -> 0 < 2 ^ n.
Proof. intros H. apply Z.pow_pos_nonneg; lia. Qed.

Lemma pow2_le (a b : Z) : 0 <= a <= b -> 2 ^ a <= 2 ^ b.
Proof. intros H. apply Z.pow_le_mono_r; lia. Qed.

Lemma pow2_split (a b : Z) : 0 <= a -> 0 <= b -> 2 ^ (a + b) = 2 ^ a * 2 ^ b.
Proof. intros. apply Z.pow_add_r; assumption. Qed.

(** The quotient and the exponent [SFdiv] rounds, for two positive
    integers. *)
Lemma div_core_pos (c t : positive) :
  Zpos c <= Zpos t ->
  exists e' l,
    SFdiv_core_binary prec emax (Zpos c) 0 (Zpos t) 0
    = (Zpos c * 2 ^ (- e') / Zpos t, e', l)
    /\ e' = Z.max (Zdigits2 (Zpos c) - Zdigits2 (Zpos t) - 53) (-1074).
Proof.
  intros Hct. unfold SFdiv_core_binary.
  pose proof (Zdigits2_mono (Zpos c) (Zpos t) ltac:(lia)) as Hd.
  set (d1 := Zdigits2 (Zpos c)) in *. set (d2 := Zdigits2 (Zpos t)) in *.
  rewrite fexp_unfold.
  assert (He : Z.min (Z.max (d1 + 0 - (d2 + 0) - 53) (-1074)) (0 - 0)
               = Z.max (d1 - d2 - 53) (-1074)) by lia.
  rewrite He. set (e' := Z.max (d1 - d2 - 53) (-1074)).
  assert (He' : -1074 <= e' < 0) by (unfold e'; lia).
  assert (Hs : 0 - 0 - e' = Z.pos (Z.to_pos (- e'))) by (rewrite Z2Pos.id; lia).
  rewrite Hs. cbv iota.
  rewrite Z.shiftl_mul_pow2 by lia. rewrite <- Hs.
  replace (0 - 0 - e') with (- e') by lia.
  destruct (Z.div_eucl (Zpos c * 2 ^ (- e')) (Zpos t)) as [q r] eqn:E.
  exists e', (new_location (Zpos t) r). split; [|reflexivity].
  unfold Z.div. rewrite E. reflexivity.
Qed.

Lemma truediv_at_most (c t : positive) :
  Zpos c <= Zpos t ->
  FloatBounds.at_most (Prim2SF (PyFloat.truediv (Zpos c) (Zpos t))) 1074 (2 ^ 1074 + 2 ^ 1022).
Proof.
  intros Hct. unfold PyFloat.truediv.
  destruct (div_core_pos c t Hct) as (e' & l & Hcore & He').
  set (q := Zpos c * 2 ^ (- e') / Zpos t) in *.
  assert (HX : SFdiv prec emax (S754_finite false c 0) (S754_finite false t 0)
               = binary_round_aux prec emax false q e' l).
  { cbn [SFdiv]. rewrite Hcore. reflexivity. }
  rewrite HX.
  pose proof (Zdigits2_mono (Zpos c) (Zpos t) ltac:(lia)) as Hd.
  assert (Hd1 : 1 <= Zdigits2 (Zpos c)) by (cbn; lia).
  assert (Hrange : -1074 <= e' < 0) by lia.
  assert (Hp : 0 < 2 ^ (- e')) by (apply pow2_pos; lia).
  assert (Hq0 : 0 <= q) by (unfold q; apply Z.div_pos; lia).
  assert (Hq1 : q <= 2 ^ (- e')).
  { unfold q. apply Z.div_le_upper_bound; [lia|]. nia. }
  assert (Hdq : Zdigits2 q <= - e' + 1).
  { apply Zdigits2_le; [|lia]. split; [exact Hq0|].
    rewrite Z.pow_add_r by lia. lia. }
  assert (HP : e' <= fexp prec emax (Zdigits2 q + e')).
  { rewrite fexp_unfold.
    destruct (Z.eq_dec e' (-1074)) as [E|E]; [lia|].
    assert (He2 : e' = Zdigits2 (Zpos c) - Zdigits2 (Zpos t) - 53) by lia.
    assert (H52 : 2 ^ 52 <= q).
    { unfold q. apply Z.div_le_lower_bound; [lia|].
      pose proof (digits2_lower c) as HL. pose proof (digits2_upper t) as HU.
      cbn [Zdigits2] in He2.
      replace (- e') with ((53 + Zpos (digits2_pos t)) - Zpos (digits2_pos c)) by lia.
      assert (Hsplit : 2 ^ (Zpos (digits2_pos c) - 1)
                       * 2 ^ (53 + Zpos (digits2_pos t) - Zpos (digits2_pos c))
                       = 2 ^ 52 * 2 ^ Zpos (digits2_pos t)).
      { rewrite <- !Z.pow_add_r by lia. f_equal. lia. }
      assert (0 < 2 ^ (53 + Zpos (digits2_pos t) - Zpos (digits2_pos c)))
        by (apply pow2_pos; lia).
      assert (0 < 2 ^ 52) by (apply pow2_pos; lia).
      nia. }
    pose proof (Zdigits2_ge q 53 H52 ltac:(lia)). lia. }
  assert (He1 : fexp prec emax (Zdigits2 q + e') <= -52) by (rewrite fexp_unfold; lia).
  rewrite Prim2SF_SF2Prim by (apply binary_round_aux_valid; assumption).
  destruct (binary_round_aux_value false q e' l Hq0 (- e' + 2)) as [Hz|(m & e & Hf & Hee & Hv)].
  - lia.
  - rewrite Z.max_r by exact HP.
    assert (2 ^ (fexp prec emax (Zdigits2 q + e') - e') <= 2 ^ (- e'))
      by (apply pow2_le; lia).
    replace (- e' + 2) with (- e' + 1 + 1) by lia.
    rewrite !Z.pow_add_r by lia. lia.
  - lia.
  - left. exact Hz.
  - right. exists m, e. rewrite Z.max_r in Hee, Hv by exact HP.
    split; [exact Hf|]. split; [lia|].
    set (e1 := fexp prec emax (Zdigits2 q + e')) in *.
    replace (e + 1074) with ((e - e') + (e' + 1074)) by lia.
    rewrite Z.pow_add_r by lia. rewrite Z.mul_assoc.
    assert (Hu : 0 < 2 ^ (e' + 1074)) by (apply pow2_pos; lia).
    apply Z.le_trans with ((q + 2 ^ (e1 - e')) * 2 ^ (e' + 1074));
      [apply Z.mul_le_mono_nonneg_r; lia|].
    rewrite Z.mul_add_distr_r, <- Z.pow_add_r by lia.
    replace (e1 - e' + (e' + 1074)) with (e1 + 1074) by lia.
    assert (2 ^ (e1 + 1074) <= 2 ^ 1022) by (apply pow2_le; lia).
    assert (q * 2 ^ (e' + 1074) <= 2 ^ 1074).
    { apply Z.le_trans with (2 ^ (- e') * 2 ^ (e' + 1074));
        [apply Z.mul_le_mono_nonneg_r; lia|].
      rewrite <- Z.pow_add_r by lia. replace (- e' + (e' + 1074)) with 1074 by lia. lia. }
    lia.
Qed.

Lemma hundred_spec : Prim2SF 100 = S754_finite false 7036874417766400 (-46).
Proof. reflexivity. Qed.

Lemma mul_100_at_most (x : float) :
  FloatBounds.at_most (Prim2SF x) 1074 (2 ^ 1074 + 2 ^ 1022) ->
  FloatBounds.at_most (Prim2SF (x * 100)) 1120 (100 * 2 ^ 1120 + 2 ^ 1100).
Proof.
  intros [Hz|(m & e & Hf & He & Hv)]; rewrite mul_spec, hundred_spec.
  - rewrite Hz. left. reflexivity.
  - rewrite Hf. unfold SF64mul, SFmul. cbn [xorb].
    rewrite Pos2Z.inj_mul.
    set (M := Zpos m) in *. set (C := Zpos 7036874417766400).
    assert (HC : C = 100 * 2 ^ 46) by reflexivity.
    assert (HM : 1 <= M) by (unfold M; lia).
    assert (He0 : e <= 0).
    { assert (Hlt : 2 ^ (e + 1074) < 2 ^ 1075).
      { apply Z.le_lt_trans with (M * 2 ^ (e + 1074)).
        - assert (0 < 2 ^ (e + 1074)) by (apply pow2_pos; lia). nia.
        - eapply Z.le_lt_trans; [exact Hv|]. reflexivity. }
      apply Z.pow_lt_mono_r_iff in Hlt; lia. }
    set (ex := e + -46).
    assert (Hex : ex = e - 46) by (unfold ex; lia).
    assert (Hu : 0 < 2 ^ (ex + 1120)) by (apply pow2_pos; lia).
    assert (Hval : M * C * 2 ^ (ex + 1120) <= 100 * 2 ^ 1120 + 2 ^ 1075).
    { replace (ex + 1120) with (e + 1074) by lia.
      apply Z.le_trans with (C * (2 ^ 1074 + 2 ^ 1022)).
      - rewrite (Z.mul_comm M C), <- Z.mul_assoc.
        apply Z.mul_le_mono_nonneg_l; [rewrite HC; lia|exact Hv].
      - rewrite HC. vm_compute. discriminate. }
    assert (Hmx : M * C < 2 ^ (7 - ex)).
    { apply (Z.mul_lt_mono_pos_r (2 ^ (ex + 1120))); [exact Hu|].
      rewrite <- Z.pow_add_r by lia. replace (7 - ex + (ex + 1120)) with 1127 by lia.
      eapply Z.le_lt_trans; [exact Hval|]. reflexivity. }
    assert (Hmx0 : 0 <= M * C) by (rewrite HC; lia).
    pose proof (Zdigits2_le (M * C) (7 - ex) (conj Hmx0 Hmx) ltac:(lia)) as Hd.
    pose proof (Zdigits2_nonneg (M * C)) as Hd0.
    set (e1 := Z.max ex (fexp prec emax (Zdigits2 (M * C) + ex))).
    assert (He1 : ex <= e1 <= -46) by (unfold e1; rewrite fexp_unfold; lia).
    assert (Hp7 : 0 < 2 ^ (7 - ex)) by (apply pow2_pos; lia).
    destruct (binary_round_aux_value false (M * C) ex loc_Exact Hmx0 (8 - ex))
      as [Hzero|(m' & e' & Hfin & Hee & Hvv)].
    + lia.
    + fold e1.
      assert (2 ^ (e1 - ex) <= 2 ^ (7 - ex)) by (apply pow2_le; lia).
      replace (8 - ex) with (7 - ex + 1) by lia. rewrite Z.pow_add_r by lia. lia.
    + lia.
    + left. exact Hzero.
    + right. exists m', e'. fold e1 in Hee, Hvv.
      split; [exact Hfin|]. split; [lia|].
      replace (e' + 1120) with ((e' - ex) + (ex + 1120)) by lia.
      rewrite Z.pow_add_r by lia. rewrite Z.mul_assoc.
      apply Z.le_trans with ((M * C + 2 ^ (e1 - ex)) * 2 ^ (ex + 1120));
        [apply Z.mul_le_mono_nonneg_r; lia|].
      rewrite Z.mul_add_distr_r, <- Z.pow_add_r by lia.
      replace (e1 - ex + (ex + 1120)) with (e1 + 1120) by lia.
      assert (H74 : 2 ^ (e1 + 1120) <= 2 ^ 1074) by (apply pow2_le; lia).
      assert (H100 : 2 ^ 1075 + 2 ^ 1074 <= 2 ^ 1100) by (vm_compute; discriminate).
      lia.
Qed.

Lemma shiftl_one_pow (p : positive) : Zpos (Pos.shiftl 1 (Npos p)) = 2 ^ Zpos p.
Proof.
  cbn [Pos.shiftl]. change (2 ^ Zpos p) with (Z.pow_pos 2 p). unfold Z.pow_pos.
  apply (Pos.iter_swap_gen _ _ Zpos xO (Z.mul 2)). intros a. reflexivity.
Qed.

Lemma round_half_even_upper (q : Q) (n : Z) :
  (0 <= q)%Q -> (q < inject_Z n + (1 # 2))%Q ->
  0 <= PyFloat.round_half_even q <= n.
Proof.
  intros H0 Hn. unfold PyFloat.round_half_even.
  pose proof (Qfloor_le q) as Hf. pose proof (Qlt_floor q) as Hf'.
  rewrite inject_Z_plus in Hf'. change (inject_Z 1) with 1%Q in Hf'.
  assert (Hf0 : 0 <= Qfloor q).
  { assert (H : (inject_Z (-1) < inject_Z (Qfloor q))%Q)
      by (change (inject_Z (-1)) with (-1 # 1)%Q; lra).
    rewrite <- Zlt_Qlt in H. lia. }
  assert (Hfn : Qfloor q <= n).
  { assert (H : (inject_Z (Qfloor q) < inject_Z (n + 1))%Q)
      by (rewrite inject_Z_plus; change (inject_Z 1) with 1%Q; lra).
    rewrite <- Zlt_Qlt in H. lia. }
  assert (Hhalf : ((1 # 2) <= q - inject_Z (Qfloor q))%Q -> Qfloor q + 1 <= n).
  { intros Hr.
    assert (H : (inject_Z (Qfloor q) < inject_Z n)%Q) by lra.
    rewrite <- Zlt_Qlt in H. lia. }
  destruct (Qcompare (q - inject_Z (Qfloor q)) (1 # 2)) eqn:E.
  - apply Qeq_alt in E. destruct (Z.even (Qfloor q)); [lia|].
    split; [lia|]. apply Hhalf. rewrite E. apply Qle_refl.
  - lia.
  - apply Qgt_alt in E. split; [lia|]. apply Hhalf. apply Qlt_le_weak, E.
Qed.

Lemma exact_percent_bounds (p : float) :
  FloatBounds.at_most (Prim2SF p) 1120 (100 * 2 ^ 1120 + 2 ^ 1100) ->
  (0 <= PyFloat.exact p * 100)%Q
  /\ (PyFloat.exact p * 100 < inject_Z 10000 + (1 # 2))%Q.
Proof.
  assert (Hsplit : 2 ^ 1120 = 2 ^ 1100 * 1048576) by reflexivity.
  assert (Hpos : 0 < 2 ^ 1100) by (apply pow2_pos; lia).
  intros [Hz|(m & e & Hf & He & Hv)]; unfold PyFloat.exact.
  - rewrite Hz. split; [vm_compute; discriminate|reflexivity].
  - rewrite Hf. destruct e as [|pe|pe].
    + assert (Zpos m <= 100) by (cbn [Z.add] in Hv; nia).
      unfold Qle, Qlt, Qmult, Qplus, inject_Z. cbn [Qnum Qden]. split; lia.
    + rewrite Z.shiftl_mul_pow2 by lia.
      assert (Zpos m * 2 ^ Zpos pe <= 100).
      { rewrite Z.pow_add_r in Hv by lia. nia. }
      assert (0 < 2 ^ Zpos pe) by (apply pow2_pos; lia).
      unfold Qle, Qlt, Qmult, Qplus, inject_Z. cbn [Qnum Qden]. split; lia.
    + unfold Qle, Qlt, Qmult, Qplus, inject_Z. cbn [Qnum Qden].
      rewrite !Pos2Z.inj_mul, shiftl_one_pow.
      set (V := 2 ^ Zpos pe). set (U := 2 ^ (Zneg pe + 1120)) in Hv.
      assert (HU : 0 < U) by (apply pow2_pos; lia).
      assert (HV : 0 < V) by (apply pow2_pos; lia).
      assert (HUV : U * V = 2 ^ 1120).
      { unfold U, V. rewrite <- Z.pow_add_r by lia. f_equal. lia. }
      split; [lia|]. nia.
Qed.

Lemma percent_table :
  forallb FloatBounds.hundredths_in_range (ScoreTables.zrange 1 (Z.to_nat 10000)) = true.
Proof. vm_cast_no_check (eq_refl true). Qed.

Lemma round2_percent (p : float) :
  FloatBounds.at_most (Prim2SF p) 1120 (100 * 2 ^ 1120 + 2 ^ 1100) ->
  ((0 <=? PyFloat.round2 p) = true /\ (PyFloat.round2 p <=? 100) = true)%float.
Proof.
  intros Hp. destruct (exact_percent_bounds p Hp) as [Hq0 Hq1].
  pose proof (round_half_even_upper _ _ Hq0 Hq1) as Hn.
  unfold PyFloat.round2.
  set (n := PyFloat.round_half_even (PyFloat.exact p * 100)) in *.
  assert (Hfin : PyFloat.is_finite p = true).
  { unfold PyFloat.is_finite. destruct Hp as [Hz|(m & e & Hf & _)];
      [rewrite Hz|rewrite Hf]; reflexivity. }
  rewrite Hfin. destruct (n =? 0) eqn:En.
  - assert (Hlt : (p <? 0)%float = false).
    { rewrite ltb_spec. destruct Hp as [Hz|(m & e & Hf & _)];
        [rewrite Hz|rewrite Hf]; reflexivity. }
    assert (Hmul : (p * 0)%float = zero).
    { apply Prim2SF_inj. rewrite mul_spec. destruct Hp as [Hz|(m & e & Hf & _)];
        [rewrite Hz|rewrite Hf]; reflexivity. }
    rewrite Hlt, Hmul. split; reflexivity.
  - apply Z.eqb_neq in En.
    pose proof (table_lookup _ _ _ percent_table n ltac:(lia)) as H.
    unfold FloatBounds.hundredths_in_range in H.
    apply andb_true_iff in H. exact H.
Qed.

Lemma percentage_of_bounds (count total : Z) :
  0 <= count <= total -> 1 <= total ->
  ((0 <=? ColorExtractionService.percentage_of count total) = true
   /\ (ColorExtractionService.percentage_of count total <=? 100) = true)%float.
Proof.
  intros Hc Ht. unfold ColorExtractionService.percentage_of.
  destruct total as [|t|t]; try lia. destruct count as [|c|c]; try lia.
  - cbn [PyFloat.truediv]. split; reflexivity.
  - apply round2_percent, mul_100_at_most, truediv_at_most. lia.
Qed.

End PercentageFacts.

(** * The extracted colours *)

Section ExtractionClaims.

Import ColorExtractionService.
Local Open Scope Z_scope.

Lemma increment_facts (counts : list Z) (i : nat) (counts' : list Z) :
  increment counts i = Some counts' ->
  List.length counts' = List.length counts
  /\ fold_right Z.add 0 counts' = fold_right Z.add 0 counts + 1
  /\ (Forall (fun c => 0 <= c) counts -> Forall (fun c => 0 <= c) counts').
Proof.
  revert i counts'. induction counts as [|c rest IH]; intros i counts' H; [discriminate|].
  destruct i as [|j]; cbn [increment] in H.
  - injection H as <-. cbn. split; [reflexivity|]. split; [lia|].
    intros HF. inversion HF; subst. constructor; [lia|assumption].
  - destruct (increment rest j) as [rest'|] eqn:E; [|discriminate]. injection H as <-.
    destruct (IH _ _ E) as (Hl & Hs & HF). cbn. split; [lia|]. split; [lia|].
    intros HF'. inversion HF'; subst. constructor; [assumption|apply HF; assumption].
Qed.

Lemma count_pixels_facts (pixels palette : list RGB) (counts counts' : list Z) :
  count_pixels pixels palette counts = Some counts' ->
  List.length counts' = List.length counts
  /\ fold_right Z.add 0 counts' = fold_right Z.add 0 counts + Z.of_nat (List.length pixels)
  /\ (Forall (fun c => 0 <= c) counts -> Forall (fun c => 0 <= c) counts').
Proof.
  revert counts counts'. induction pixels as [|px rest IH]; intros counts counts' H;
    cbn [count_pixels] in H.
  - injection H as <-. cbn. split; [reflexivity|]. split; [lia|auto].
  - destruct (increment counts (closest_index px palette)) as [c1|] eqn:E; [|discriminate].
    destruct (increment_facts _ _ _ E) as (Hl1 & Hs1 & HF1).
    destruct (IH _ _ H) as (Hl & Hs & HF). cbn [List.length].
    split; [lia|]. split; [lia|auto].
Qed.

Lemma nonneg_le_sum (l : list Z) :
  Forall (fun c => 0 <= c) l -> Forall (fun c => 0 <= c <= fold_right Z.add 0 l) l.
Proof.
  induction l as [|c l IH]; intros H; [constructor|].
  inversion H; subst. specialize (IH H3). cbn.
  assert (0 <= fold_right Z.add 0 l).
  { clear -H3. induction l as [|x l IH]; cbn; [lia|]. inversion H3; subst. specialize (IH H2). lia. }
  constructor; [lia|]. eapply Forall_impl; [|exact IH]. cbn. intros; lia.
Qed.

Lemma zeros_sum {A : Type} (l : list A) : fold_right Z.add 0 (map (fun _ => 0) l) = 0.
Proof. induction l; cbn; lia. Qed.

Lemma zeros_nonneg {A : Type} (l : list A) : Forall (fun c => 0 <= c) (map (fun _ : A => 0) l).
Proof. induction l; cbn; constructor; [lia|assumption]. Qed.

Lemma in_range_not_nan (x : float) : (0 <=? x)%float = true -> PyFloat.not_nan x.
Proof.
  unfold PyFloat.not_nan. rewrite leb_spec. intros H E. rewrite E in H. discriminate.
Qed.

Lemma make_colors_bounds (get_color_name : RGB -> string) (palette : list RGB)
      (counts : list Z) (total : Z) :
  1 <= total -> Forall (fun c => 0 <= c <= total) counts ->
  Forall (fun c => (0 <=? percentage c)%float = true
                   /\ (percentage c <=? 100)%float = true)
         (make_colors get_color_name palette counts total).
Proof.
  intros Ht HF. unfold make_colors. apply Forall_forall. intros ci Hci.
  apply in_map_iff in Hci. destruct Hci as ([c count] & <- & Hin).
  apply in_combine_r in Hin. rewrite Forall_forall in HF. specialize (HF _ Hin).
  cbn [percentage]. apply percentage_of_bounds; lia.
Qed.

(** C10: when [extract_colors] returns for a requested count of at least 1,
    the colours are in descending order of percentage, they are at most as
    many as requested, and every percentage, the binary64 number
    [round((count / total_pixels) * 100, 2)], lies in [[0,100]]. *)
Theorem extract_colors_invariants (Image : Type)
        (resized_rgba : Image -> list (Z * Z * Z * Z))
        (get_palette : Image -> Z -> list RGB)
        (image_of_pixels : Z -> list RGB -> Image)
        (get_color_name : RGB -> string)
        (img : Image) (num_colors : Z) (colors : list ColorInfo) :
  1 <= num_colors ->
  extract_colors Image resized_rgba get_palette image_of_pixels get_color_name
                 img num_colors = Some colors ->
  Sorted (fun a b => (percentage b <=? percentage a)%float = true) colors
  /\ Z.of_nat (List.length colors) <= num_colors
  /\ Forall (fun c => (0 <=? percentage c)%float = true
                      /\ (percentage c <=? 100)%float = true) colors.
Proof.
  intros Hn H. unfold extract_colors in H.
  destruct (pixels_and_palette _ _ _ _ _ _) as [[valid_pixels palette]|]; [|discriminate].
  set (fp := match filter _ palette with [] => palette | _ => _ end) in H.
  set (total := match valid_pixels with [] => 1 | _ => _ end) in H.
  destruct (count_pixels valid_pixels fp _) as [counts|] eqn:E; [|discriminate].
  injection H as <-. rewrite slice_to_firstn by lia.
  destruct (count_pixels_facts _ _ _ _ E) as (_ & Hsum & Hnonneg).
  rewrite zeros_sum in Hsum. specialize (Hnonneg (zeros_nonneg fp)).
  assert (Htotal : 1 <= total /\ Z.of_nat (List.length valid_pixels) <= total).
  { unfold total. destruct valid_pixels; cbn [List.length]; lia. }
  assert (Hcounts : Forall (fun c => 0 <= c <= total) counts).
  { eapply Forall_impl; [|apply nonneg_le_sum, Hnonneg]. cbn. intros; lia. }
  set (cs := make_colors get_color_name fp counts total).
  pose proof (make_colors_bounds get_color_name fp counts total (proj1 Htotal) Hcounts) as Hb.
  fold cs in Hb.
  assert (Hsorted_in : Forall (fun c => (0 <=? percentage c)%float = true
                                        /\ (percentage c <=? 100)%float = true)
                              (PyList.sort_reverse PrimFloat.ltb percentage cs)).
  { apply Forall_forall. intros ci Hci. rewrite Forall_forall in Hb. apply Hb.
    exact (Permutation_in _ (sort_reverse_perm PrimFloat.ltb percentage cs) Hci). }
  split; [|split].
  - apply sorted_firstn.
    apply (Sorted_strengthen (PyList.descending PrimFloat.ltb percentage) _
             (fun c => (0 <=? percentage c)%float = true
                       /\ (percentage c <=? 100)%float = true)).
    + intros a b [Ha _] [Hb' _] Hab.
      apply not_ltb_leb; [apply in_range_not_nan, Ha|apply in_range_not_nan, Hb'|exact Hab].
    + exact Hsorted_in.
    + apply sort_reverse_sorted. exact ltb_asym.
  - rewrite length_firstn. lia.
  - apply Forall_forall. intros ci Hci. apply In_firstn in Hci.
    rewrite Forall_forall in Hsorted_in. apply Hsorted_in, Hci.
Qed.

Lemma extract_colors_invariants_witness :
  let colors := match Examples.extracted with Some l => l | None => [] end in
  1 <= 2
  /\ Examples.extracted = Some colors
  /\ Sorted (fun a b => (percentage b <=? percentage a)%float = true) colors
  /\ Z.of_nat (List.length colors) <= 2
  /\ Forall (fun c => (0 <=? percentage c)%float = true
                      /\ (percentage c <=? 100)%float = true) colors.
Proof.
  intros colors.
  assert (H1 : 1 <= 2) by lia.
  assert (H2 : Examples.extracted = Some colors) by (vm_compute; reflexivity).
  split; [exact H1|]. split; [exact H2|].
  exact (extract_colors_invariants _ _ _ _ _ _ _ _ H1 H2).
Defined.

End ExtractionClaims.

(** * Colour codes, background colours and colour names *)

Section ColourCodeFacts.

Import ColorExtractionService.
Local Open Scope string_scope.
Local Open Scope Z_scope.

(** The white test of [_is_background_color] is capped at 230: a colour is a
    background colour when its three channels exceed [min(threshold, 230)]
    or when they are all below 15; a threshold above 230 changes nothing. *)
Theorem background_threshold_capped (r g b threshold : Z) :
  _is_background_color (r, g, b) threshold = true
  <-> (Z.min threshold 230 < r /\ Z.min threshold 230 < g /\ Z.min threshold 230 < b)
      \/ (r < 15 /\ g < 15 /\ b < 15).
Proof.
  unfold _is_background_color.
  destruct (Z.ltb_spec threshold r), (Z.ltb_spec threshold g), (Z.ltb_spec threshold b),
           (Z.ltb_spec r 15), (Z.ltb_spec g 15), (Z.ltb_spec b 15),
           (Z.ltb_spec 230 r), (Z.ltb_spec 230 g), (Z.ltb_spec 230 b);
    cbn; split; intros; try discriminate; try reflexivity; lia.
Qed.

Lemma channel_table :
  forallb ChannelTables.channel_round_trip (ScoreTables.zrange 0 256) = true.
Proof. vm_cast_no_check (eq_refl true). Qed.

Lemma channel_digits (n : Z) :
  0 <= n <= 255 ->
  exists a b, format_02x n = String a (String b EmptyString)
              /\ ChannelTables.is_lower_hex a = true
              /\ ChannelTables.is_lower_hex b = true
              /\ ColorsRouter.int16 (String a (String b EmptyString)) = Some n.
Proof.
  intros Hn. pose proof (table_lookup _ _ _ channel_table n ltac:(lia)) as H.
  unfold ChannelTables.channel_round_trip in H.
  destruct (format_02x n) as [|a [|b [|c rest]]]; try discriminate.
  apply andb_true_iff in H. destruct H as [H H3].
  apply andb_true_iff in H. destruct H as [H1 H2].
  exists a, b. repeat split; try assumption.
  unfold ChannelTables.option_Z_eqb in H3.
  destruct (ColorsRouter.int16 _) as [v|]; [|discriminate].
  apply Z.eqb_eq in H3. congruence.
Qed.

(** [rgb_to_hex] of channels within 0..255 is [#] followed by six lower-case
    hexadecimal digits. *)
Theorem rgb_to_hex_shape (r g b : Z) :
  0 <= r <= 255 -> 0 <= g <= 255 -> 0 <= b <= 255 ->
  exists digits,
    rgb_to_hex (r, g, b) = String "#" digits
    /\ String.length digits = 6%nat
    /\ forallb ChannelTables.is_lower_hex (list_ascii_of_string digits) = true.
Proof.
  intros Hr Hg Hb.
  destruct (channel_digits r Hr) as (r1 & r2 & Er & Hr1 & Hr2 & _).
  destruct (channel_digits g Hg) as (g1 & g2 & Eg & Hg1 & Hg2 & _).
  destruct (channel_digits b Hb) as (b1 & b2 & Eb & Hb1 & Hb2 & _).
  unfold rgb_to_hex. rewrite Er, Eg, Eb. cbn [String.append].
  eexists. split; [reflexivity|]. split; [reflexivity|].
  cbn [list_ascii_of_string forallb]. rewrite Hr1, Hr2, Hg1, Hg2, Hb1, Hb2. reflexivity.
Qed.

Lemma rgb_to_hex_shape_witness :
  0 <= 250 <= 255 /\ 0 <= 5 <= 255 /\ 0 <= 171 <= 255
  /\ exists digits,
       rgb_to_hex (250, 5, 171) = String "#" digits
       /\ String.length digits = 6%nat
       /\ forallb ChannelTables.is_lower_hex (list_ascii_of_string digits) = true.
Proof.
  assert (H1 : 0 <= 250 <= 255) by lia.
  assert (H2 : 0 <= 5 <= 255) by lia.
  assert (H3 : 0 <= 171 <= 255) by lia.
  split; [exact H1|]. split; [exact H2|]. split; [exact H3|].
  exact (rgb_to_hex_shape 250 5 171 H1 H2 H3).
Defined.

Lemma lower_hex_not_hash (a : ascii) :
  ChannelTables.is_lower_hex a = true -> Ascii.eqb a "#" = false.
Proof.
  intros H. destruct (Ascii.eqb a "#") eqn:E; [|reflexivity].
  apply Ascii.eqb_eq in E. subst a. discriminate H.
Qed.

(** The colour routes read back what [rgb_to_hex] writes: parsing the code
    of a colour with channels within 0..255 gives the colour again. *)
Theorem parse_hex_rgb_to_hex (r g b : Z) :
  0 <= r <= 255 -> 0 <= g <= 255 -> 0 <= b <= 255 ->
  ColorsRouter.parse_hex (rgb_to_hex (r, g, b)) = Some (r, g, b).
Proof.
  intros Hr Hg Hb.
  destruct (channel_digits r Hr) as (r1 & r2 & Er & Hr1 & Hr2 & Ir).
  destruct (channel_digits g Hg) as (g1 & g2 & Eg & Hg1 & Hg2 & Ig).
  destruct (channel_digits b Hb) as (b1 & b2 & Eb & Hb1 & Hb2 & Ib).
  unfold rgb_to_hex. rewrite Er, Eg, Eb. cbn [String.append].
  unfold ColorsRouter.parse_hex. cbn [ColorsRouter.lstrip_char].
  change (Ascii.eqb "#" "#") with true. cbv iota.
  rewrite (lower_hex_not_hash r1 Hr1).
  unfold ColorsRouter.slice2. cbn [substring].
  rewrite Ir, Ig, Ib. reflexivity.
Qed.

Lemma parse_hex_rgb_to_hex_witness :
  0 <= 250 <= 255 /\ 0 <= 5 <= 255 /\ 0 <= 171 <= 255
  /\ ColorsRouter.parse_hex (rgb_to_hex (250, 5, 171)) = Some (250, 5, 171).
Proof.
  assert (H1 : 0 <= 250 <= 255) by lia.
  assert (H2 : 0 <= 5 <= 255) by lia.
  assert (H3 : 0 <= 171 <= 255) by lia.
  split; [exact H1|]. split; [exact H2|]. split; [exact H3|].
  exact (parse_hex_rgb_to_hex 250 5 171 H1 H2 H3).
Defined.

End ColourCodeFacts.

Section ParsedChannels.

Local Open Scope string_scope.
Local Open Scope Z_scope.

Lemma two_char_table :
  forallb ChannelTables.two_chars_in_range ChannelTables.characters = true.
Proof. vm_cast_no_check (eq_refl true). Qed.

Lemma one_char_table :
  forallb ChannelTables.one_char_in_range ChannelTables.characters = true.
Proof. vm_cast_no_check (eq_refl true). Qed.

Lemma character_In (a : ascii) : In a ChannelTables.characters.
Proof.
  change ChannelTables.characters with (map ascii_of_nat (seq 0 256)).
  apply in_map_iff. exists (nat_of_ascii a). split; [apply ascii_nat_embedding|].
  apply in_seq. pose proof (nat_ascii_bounded a). lia.
Qed.

Lemma cannot_start (a : ascii) (rest : string) :
  ChannelTables.can_start a = false -> ColorsRouter.int16 (String a rest) = None.
Proof.
  destruct a as [[] [] [] [] [] [] [] []]; intros H;
    first [discriminate H | reflexivity].
Qed.

Lemma substring_two (s : string) (i : nat) :
  substring i 2 s = EmptyString
  \/ (exists a, substring i 2 s = String a EmptyString)
  \/ (exists a b, substring i 2 s = String a (String b EmptyString)).
Proof.
  revert i. induction s as [|c s IH]; intros i.
  - left. destruct i; reflexivity.
  - destruct i as [|i]; [|cbn [substring]; apply IH].
    cbn [substring]. destruct s as [|d s]; [right; left; exists c; reflexivity|].
    right; right. exists c, d. cbn [substring]. destruct s; reflexivity.
Qed.

Lemma read_slice_in_range (s : string) (i : nat) (v : Z) :
  ColorsRouter.int16 (ColorsRouter.slice2 s i) = Some v -> -15 <= v <= 255.
Proof.
  unfold ColorsRouter.slice2. intros H.
  destruct (substring_two s i) as [E|[(a & E)|(a & b & E)]]; rewrite E in H.
  - discriminate H.
  - pose proof (proj1 (forallb_forall _ _) one_char_table _ (character_In a)) as T.
    unfold ChannelTables.one_char_in_range, ChannelTables.read_in_range in T.
    rewrite H in T. lia.
  - destruct (ChannelTables.can_start a) eqn:Ea;
      [|rewrite (cannot_start a _ Ea) in H; discriminate H].
    pose proof (proj1 (forallb_forall _ _) two_char_table _ (character_In a)) as T.
    unfold ChannelTables.two_chars_in_range in T. rewrite Ea in T.
    pose proof (proj1 (forallb_forall _ _) T _ (character_In b)) as T'.
    unfold ChannelTables.read_in_range in T'.
    rewrite H in T'. lia.
Qed.

(** Whatever string the colour routes accept as a colour code, the channels
    they read from it lie between -15 and 255: each channel is read from at
    most two characters, and a sign is accepted. *)
Theorem parse_hex_channels_bounded (hex_color : string) (r g b : Z) :
  ColorsRouter.parse_hex hex_color = Some (r, g, b) ->
  -15 <= r <= 255 /\ -15 <= g <= 255 /\ -15 <= b <= 255.
Proof.
  unfold ColorsRouter.parse_hex. intros H.
  destruct (ColorsRouter.int16 (ColorsRouter.slice2 _ 0)) as [r'|] eqn:Er; [|discriminate].
  destruct (ColorsRouter.int16 (ColorsRouter.slice2 _ 2)) as [g'|] eqn:Eg; [|discriminate].
  destruct (ColorsRouter.int16 (ColorsRouter.slice2 _ 4)) as [b'|] eqn:Eb; [|discriminate].
  injection H as <- <- <-.
  apply read_slice_in_range in Er, Eg, Eb. tauto.
Qed.

Lemma parse_hex_channels_bounded_witness :
  ColorsRouter.parse_hex "#-f7Fff" = Some (-15, 127, 255)
  /\ -15 <= -15 <= 255 /\ -15 <= 127 <= 255 /\ -15 <= 255 <= 255.
Proof.
  assert (H : ColorsRouter.parse_hex "#-f7Fff" = Some (-15, 127, 255)) by reflexivity.
  split; [exact H|]. exact (parse_hex_channels_bounded _ _ _ _ H).
Defined.

End ParsedChannels.

Section ColourNameFacts.

Import ColorExtractionService.
Local Open Scope string_scope.
Local Open Scope Z_scope.

(** [color_distance] does not depend on the order of its two colours. *)
Theorem color_distance_symmetric (c1 c2 : RGB) :
  color_distance c1 c2 = color_distance c2 c1.
Proof.
  destruct c1 as [[r1 g1] b1], c2 as [[r2 g2] b2]. unfold color_distance.
  replace (r2 + r1) with (r1 + r2) by lia.
  replace ((r2 - r1) ^ 2) with ((r1 - r2) ^ 2) by ring.
  replace ((g2 - g1) ^ 2) with ((g1 - g2) ^ 2) by ring.
  replace ((b2 - b1) ^ 2) with ((b1 - b2) ^ 2) by ring.
  reflexivity.
Qed.

Lemma rgb_eqb_eq (a b : RGB) : ColorNames.rgb_eqb a b = true <-> a = b.
Proof.
  destruct a as [[r1 g1] b1], b as [[r2 g2] b2]. unfold ColorNames.rgb_eqb.
  rewrite !andb_true_iff, !Z.eqb_eq. split.
  - intros [[-> ->] ->]. reflexivity.
  - intros H. injection H as -> -> ->. auto.
Qed.

Lemma rgb_eqb_refl (a : RGB) : ColorNames.rgb_eqb a a = true.
Proof. apply rgb_eqb_eq. reflexivity. Qed.

Lemma lookup_store_same (cache : ColorNames.color_cache) (rgb : RGB) (name : string) :
  PyList.lookup ColorNames.rgb_eqb cache rgb = None ->
  PyList.lookup ColorNames.rgb_eqb (ColorNames.store cache rgb name) rgb = Some name.
Proof.
  unfold ColorNames.store. induction cache as [|[k v] cache IH]; cbn [PyList.lookup PyList.upsert].
  - intros _. rewrite rgb_eqb_refl. reflexivity.
  - destruct (ColorNames.rgb_eqb k rgb) eqn:E; [discriminate|].
    intros H. cbn [PyList.lookup]. rewrite E. apply IH, H.
Qed.

Lemma lookup_store_other (cache : ColorNames.color_cache) (rgb other : RGB) (name : string) :
  ColorNames.rgb_eqb other rgb = false ->
  PyList.lookup ColorNames.rgb_eqb (ColorNames.store cache rgb name) other
  = PyList.lookup ColorNames.rgb_eqb cache other.
Proof.
  intros Hne. unfold ColorNames.store.
  assert (Hne' : ColorNames.rgb_eqb rgb other = false).
  { destruct (ColorNames.rgb_eqb rgb other) eqn:E; [|reflexivity].
    apply rgb_eqb_eq in E. subst. rewrite rgb_eqb_refl in Hne. discriminate. }
  induction cache as [|[k v] cache IH]; cbn [PyList.lookup PyList.upsert].
  - rewrite Hne'. reflexivity.
  - destruct (ColorNames.rgb_eqb k rgb) eqn:E; cbn [PyList.lookup].
    + apply rgb_eqb_eq in E. subst k. rewrite Hne'. reflexivity.
    + destruct (ColorNames.rgb_eqb k other); [reflexivity|apply IH].
Qed.

(** A colour keeps the name [get_color_name] gave it: the next call for the
    same colour answers that name and leaves the cache as it is, and the
    names cached for other colours are not touched. *)
Theorem get_color_name_cached (rgb_to_name : RGB -> option string)
        (cache : ColorNames.color_cache) (rgb : RGB) :
  let name := fst (ColorNames.get_color_name rgb_to_name cache rgb) in
  let cache' := snd (ColorNames.get_color_name rgb_to_name cache rgb) in
  ColorNames.get_color_name rgb_to_name cache' rgb = (name, cache')
  /\ forall other, ColorNames.rgb_eqb other rgb = false ->
       PyList.lookup ColorNames.rgb_eqb cache' other
       = PyList.lookup ColorNames.rgb_eqb cache other.
Proof.
  unfold ColorNames.get_color_name.
  destruct (PyList.lookup ColorNames.rgb_eqb cache rgb) as [n|] eqn:E; cbn [fst snd].
  - rewrite E. split; [reflexivity|]. reflexivity.
  - destruct (rgb_to_name rgb) as [n|]; cbn [fst snd];
      rewrite (lookup_store_same _ _ _ E); (split; [reflexivity|]);
      intros other Ho; apply lookup_store_other, Ho.
Qed.




End ColourNameFacts.

Section GreyFacts.

Import ColorHarmonyService.
Local Open Scope Z_scope.

Lemma grey_table : forallb ChannelTables.grey_fixed (ScoreTables.zrange 0 256) = true.
Proof. vm_cast_no_check (eq_refl true). Qed.

(** A grey has no hue to turn: for every grey level within 0..255 the
    complementary colour, the two analogous colours and the two triadic
    colours are all the grey that the HSL round trip returns, whose level is
    the original one or one below it. *)
Theorem greys_stay_grey (v : Z) :
  0 <= v <= 255 ->
  exists w, (w = v \/ w = v - 1)
    /\ hsl_to_rgb (rgb_to_hsl (v, v, v)) = Some (w, w, w)
    /\ get_complementary (v, v, v) = Some (w, w, w)
    /\ ColorWheel.get_analogous (v, v, v) = Some [(w, w, w); (w, w, w)]
    /\ ColorWheel.get_triadic (v, v, v) = Some [(w, w, w); (w, w, w)].
Proof.
  intros Hv. pose proof (table_lookup _ _ _ grey_table v ltac:(lia)) as H.
  unfold ChannelTables.grey_fixed in H.
  destruct (hsl_to_rgb (rgb_to_hsl (v, v, v))) as [[[r g] b]|]; [|discriminate].
  repeat (apply andb_true_iff in H; destruct H as [H ?]).
  apply Z.eqb_eq in H. subst g.
  match goal with K : (r =? b) = true |- _ => apply Z.eqb_eq in K; subst b end.
  exists r. split.
  { match goal with K : (_ || _)%bool = true |- _ =>
      apply orb_true_iff in K; destruct K as [K|K]; apply Z.eqb_eq in K; lia end. }
  split; [reflexivity|].
  unfold ChannelTables.option_RGB_eqb, ChannelTables.option_pair_eqb in *.
  destruct (get_complementary (v, v, v)) as [c|]; [|discriminate].
  destruct (ColorWheel.get_analogous (v, v, v)) as [[|a1 [|a2 [|]]]|]; try discriminate.
  destruct (ColorWheel.get_triadic (v, v, v)) as [[|t1 [|t2 [|]]]|]; try discriminate.
  repeat match goal with
         | K : (_ && _)%bool = true |- _ => apply andb_true_iff in K; destruct K
         | K : ColorNames.rgb_eqb _ _ = true |- _ => apply rgb_eqb_eq in K; subst
         end.
  repeat split; reflexivity.
Qed.

Lemma greys_stay_grey_witness :
  0 <= 15 <= 255
  /\ exists w, (w = 15 \/ w = 15 - 1)
       /\ hsl_to_rgb (rgb_to_hsl (15, 15, 15)) = Some (w, w, w)
       /\ get_complementary (15, 15, 15) = Some (w, w, w)
       /\ ColorWheel.get_analogous (15, 15, 15) = Some [(w, w, w); (w, w, w)]
       /\ ColorWheel.get_triadic (15, 15, 15) = Some [(w, w, w); (w, w, w)].
Proof.
  assert (H : 0 <= 15 <= 255) by lia.
  split; [exact H|]. exact (greys_stay_grey 15 H).
Defined.

End GreyFacts.

(** * Symmetry and range of the harmony score *)

Section HarmonySymmetry.

Import ColorHarmonyService.
Local Open Scope string_scope.
Local Open Scope float_scope.

Lemma SFabs_binary_round_aux mx ex lx :
  SFabs (binary_round_aux prec emax true mx ex lx)
  = SFabs (binary_round_aux prec emax false mx ex lx).
Proof.
  unfold binary_round_aux.
  destruct (shr_fexp prec emax mx ex lx) as [mrs' e'].
  destruct (shr_fexp prec emax _ e' loc_Exact) as [mrs'' e''].
  destruct (shr_m mrs'') as [|m|m]; try reflexivity.
  destruct (e'' <=? emax - prec)%Z; reflexivity.
Qed.

Lemma SFabs_binary_normalize_opp (z e : Z) :
  SFabs (binary_normalize prec emax (- z) e false)
  = SFabs (binary_normalize prec emax z e false).
Proof.
  destruct z as [|p|p]; cbn [Z.opp binary_normalize]; try reflexivity;
    unfold binary_round;
    destruct (shl_align p e (fexp prec emax (Z.pos (digits2_pos p) + e))) as [mz ez];
    [apply SFabs_binary_round_aux|symmetry; apply SFabs_binary_round_aux].
Qed.

Lemma SFabs_sub_sym (X Y : spec_float) :
  SFabs (SFsub prec emax X Y) = SFabs (SFsub prec emax Y X).
Proof.
  destruct X as [sx|sx| |sx mx ex], Y as [sy|sy| |sy my ey];
    try (destruct sx, sy; reflexivity); try (destruct sx; reflexivity);
    try (destruct sy; reflexivity); try reflexivity.
  cbn [SFsub]. rewrite (Z.min_comm ey ex).
  rewrite <- SFabs_binary_normalize_opp. f_equal. f_equal. lia.
Qed.

(** The distance of two floats does not depend on their order. *)
Lemma abs_sub_sym (x y : float) : abs (x - y) = abs (y - x).
Proof.
  apply Prim2SF_inj. rewrite !abs_spec, !sub_spec. apply SFabs_sub_sym.
Qed.

Lemma hue_diff_sym (h1 h2 : float) : hue_diff h1 h2 = hue_diff h2 h1.
Proof. unfold hue_diff. rewrite (abs_sub_sym h1 h2). reflexivity. Qed.

(** [colors_match] is symmetric in its two colours, for every scheme and
    every tolerance. *)
Theorem colors_match_symmetric (rgb1 rgb2 : RGB) (scheme : string) (tolerance : float) :
  colors_match rgb1 rgb2 scheme tolerance = colors_match rgb2 rgb1 scheme tolerance.
Proof.
  unfold colors_match.
  destruct (rgb_to_hsl rgb1) as [[h1 s1] l1], (rgb_to_hsl rgb2) as [[h2 s2] l2].
  rewrite (hue_diff_sym h1 h2). reflexivity.
Qed.

End HarmonySymmetry.

Section HarmonyRange.

Import ColorHarmonyService.
Local Open Scope string_scope.
Local Open Scope float_scope.

Lemma ltb_leb (x y : float) : (x <? y) = true -> (x <=? y) = true.
Proof.
  rewrite ltb_spec, leb_spec. unfold SFltb, SFleb.
  destruct (SFcompare (Prim2SF x) (Prim2SF y)) as [[| |]|]; congruence.
Qed.

Lemma not_leb_leb (x y : float) :
  PyFloat.not_nan x -> PyFloat.not_nan y -> (x <=? y) = false -> (y <=? x) = true.
Proof.
  intros Hx Hy H. apply not_ltb_leb; [exact Hx|exact Hy|].
  destruct (x <? y) eqn:E; [|reflexivity]. apply ltb_leb in E. congruence.
Qed.

Lemma clamp_0_100_range (x : float) :
  PyFloat.not_nan x ->
  (0 <=? HarmonySpec.clamp_0_100 x) = true /\ (HarmonySpec.clamp_0_100 x <=? 100) = true.
Proof.
  intros Hx. unfold HarmonySpec.clamp_0_100.
  destruct (x <=? 0) eqn:E0; [split; reflexivity|].
  destruct (100 <=? x) eqn:E1; [split; reflexivity|].
  split; apply not_leb_leb; try assumption; discriminate.
Qed.

Lemma finite_table : UnitChannels.all_finite = true.
Proof. vm_cast_no_check (eq_refl true). Qed.

Lemma safe_table : UnitChannels.all_safe = true.
Proof. vm_cast_no_check (eq_refl true). Qed.

Lemma unit_channel_In (n : Z) :
  (0 <= n <= 255)%Z -> In (PyFloat.truediv n 255) UnitChannels.unit_channels.
Proof.
  intros H. unfold UnitChannels.unit_channels.
  apply (in_map (fun n => PyFloat.truediv n 255)), zrange_In. lia.
Qed.

Lemma max3_cases (a b c : float) :
  PyFloat.max3 a b c = a \/ PyFloat.max3 a b c = b \/ PyFloat.max3 a b c = c.
Proof.
  unfold PyFloat.max3, PyFloat.max2.
  destruct (a <? b); destruct (_ <? c); tauto.
Qed.

Lemma min3_cases (a b c : float) :
  PyFloat.min3 a b c = a \/ PyFloat.min3 a b c = b \/ PyFloat.min3 a b c = c.
Proof.
  unfold PyFloat.min3, PyFloat.min2.
  destruct (b <? a); destruct (c <? _); tauto.
Qed.

(** No conversion of a colour with channels within 0..255 raises. *)
Lemma rgb_to_hsl_safe (c : RGB) : in_gamut c = true -> rgb_to_hsl_raises c = false.
Proof.
  destruct c as [[r g] b]. unfold in_gamut. intros H.
  repeat (apply andb_true_iff in H; destruct H as [H ?]).
  pose proof (unit_channel_In r ltac:(lia)) as Hr.
  pose proof (unit_channel_In g ltac:(lia)) as Hg.
  pose proof (unit_channel_In b ltac:(lia)) as Hb.
  unfold rgb_to_hsl_raises.
  set (x := PyFloat.truediv r 255) in *.
  set (y := PyFloat.truediv g 255) in *.
  set (z := PyFloat.truediv b 255) in *.
  assert (Hfin : forall u, In u UnitChannels.unit_channels -> is_infinity u = false).
  { intros u Hu. pose proof finite_table as T. unfold UnitChannels.all_finite in T.
    rewrite forallb_forall in T. apply negb_true_iff, T, Hu. }
  assert (Hsafe : forall u v, In u UnitChannels.unit_channels ->
                              In v UnitChannels.unit_channels ->
                              Colorsys.divides_by_zero u v = false).
  { intros u v Hu Hv. pose proof safe_table as T. unfold UnitChannels.all_safe in T.
    rewrite forallb_forall in T. specialize (T u Hu).
    rewrite forallb_forall in T. apply negb_true_iff, (T v Hv). }
  rewrite (Hfin x Hr), (Hfin y Hg), (Hfin z Hb). cbn [orb].
  unfold Colorsys.rgb_to_hls_raises. apply Hsafe.
  - destruct (max3_cases x y z) as [E|[E|E]]; rewrite E; assumption.
  - destruct (min3_cases x y z) as [E|[E|E]]; rewrite E; assumption.
Qed.

Lemma harmony_score_safe (colors : list RGB) :
  forallb in_gamut colors = true -> calculate_harmony_score_raises colors = false.
Proof.
  intros H. unfold calculate_harmony_score_raises.
  destruct (List.length colors <? 2)%nat; [reflexivity|].
  rewrite forallb_forall in H.
  destruct (existsb rgb_to_hsl_raises colors) eqn:E; [|reflexivity].
  apply existsb_exists in E. destruct E as (c & Hc & Hraise).
  rewrite (rgb_to_hsl_safe c (H c Hc)) in Hraise. discriminate.
Qed.

(** For colours with channels within 0..255, [calculate_harmony_score] does
    not raise and the score it returns is a number between 0 and 100. *)
Theorem harmony_score_in_range (colors : list RGB) :
  forallb in_gamut colors = true ->
  calculate_harmony_score_raises colors = false
  /\ (0 <=? calculate_harmony_score colors) = true
  /\ (calculate_harmony_score colors <=? 100) = true.
Proof.
  intros H. split; [apply harmony_score_safe, H|].
  unfold calculate_harmony_score.
  destruct (List.length colors <? 2)%nat; [split; reflexivity|].
  rewrite outer_loop_pairs, clamp_is_clamp_0_100;
    [apply clamp_0_100_range|]; apply fold_adjustments_not_nan; discriminate.
Qed.

Lemma harmony_score_in_range_witness :
  let colors := [(255, 0, 0); (0, 128, 255); (17, 17, 17)]%Z in
  forallb in_gamut colors = true
  /\ calculate_harmony_score_raises colors = false
  /\ (0 <=? calculate_harmony_score colors) = true
  /\ (calculate_harmony_score colors <=? 100) = true.
Proof.
  intros colors.
  assert (H : forallb in_gamut colors = true) by reflexivity.
  split; [exact H|].
  exact (harmony_score_in_range colors H).
Defined.

Lemma two_colours_score (c1 c2 : RGB) :
  calculate_harmony_score [c1; c2] = 100 \/ calculate_harmony_score [c1; c2] = 85.
Proof.
  unfold calculate_harmony_score. cbn [List.length Nat.ltb Nat.leb map outer_loop inner_loop fold_left].
  set (d := hue_diff _ _).
  destruct (adjust_cases 100 d) as [E|[E|[E|[E|E]]]]; rewrite E;
    first [left; reflexivity | right; reflexivity].
Qed.

Lemma two_colours_answer (hex1 hex2 : string) (c1 c2 : RGB) :
  ColorsRouter.parse_hex hex1 = Some c1 -> ColorsRouter.parse_hex hex2 = Some c2 ->
  calculate_harmony_score_raises [c1; c2] = false ->
  ColorsRouter.calculate_harmony_score [hex1; hex2] = ColorsRouter.Returns (100, "Excellent")
  \/ ColorsRouter.calculate_harmony_score [hex1; hex2] = ColorsRouter.Returns (85, "Excellent").
Proof.
  intros H1 H2 Hsafe. unfold ColorsRouter.calculate_harmony_score.
  cbn [List.length Nat.ltb Nat.leb ColorsRouter.parse_all].
  rewrite H1, H2, Hsafe.
  destruct (two_colours_score c1 c2) as [E|E]; rewrite E; [left|right]; reflexivity.
Qed.

(** [POST /harmony/score] with two colour codes answers 400 (a code that is
    not read), 500 (the conversion of a colour raises), or a score of 100
    or 85 with the rating "Excellent"; no pair of colours is rated lower.
    Two codes that are read as colours with channels within 0..255 get a
    score; the codes "-f0f00" and "000000" get the answer 500. *)
Theorem two_colours_rated_excellent (hex1 hex2 : string) :
  (ColorsRouter.calculate_harmony_score [hex1; hex2] = ColorsRouter.Raises 400
   \/ ColorsRouter.calculate_harmony_score [hex1; hex2] = ColorsRouter.Raises 500
   \/ ColorsRouter.calculate_harmony_score [hex1; hex2]
      = ColorsRouter.Returns (100, "Excellent")
   \/ ColorsRouter.calculate_harmony_score [hex1; hex2]
      = ColorsRouter.Returns (85, "Excellent"))
  /\ (forall c1 c2 : RGB,
         ColorsRouter.parse_hex hex1 = Some c1 -> ColorsRouter.parse_hex hex2 = Some c2 ->
         in_gamut c1 = true -> in_gamut c2 = true ->
         ColorsRouter.calculate_harmony_score [hex1; hex2]
         = ColorsRouter.Returns (100, "Excellent")
         \/ ColorsRouter.calculate_harmony_score [hex1; hex2]
            = ColorsRouter.Returns (85, "Excellent"))
  /\ ColorsRouter.calculate_harmony_score ["-f0f00"; "000000"] = ColorsRouter.Raises 500.
Proof.
  split; [|split].
  - destruct (ColorsRouter.parse_hex hex1) as [c1|] eqn:E1;
      [|left; unfold ColorsRouter.calculate_harmony_score;
        cbn [List.length Nat.ltb Nat.leb ColorsRouter.parse_all]; rewrite E1; reflexivity].
    destruct (ColorsRouter.parse_hex hex2) as [c2|] eqn:E2;
      [|left; unfold ColorsRouter.calculate_harmony_score;
        cbn [List.length Nat.ltb Nat.leb ColorsRouter.parse_all]; rewrite E1, E2; reflexivity].
    destruct (calculate_harmony_score_raises [c1; c2]) eqn:Er.
    + right. left. unfold ColorsRouter.calculate_harmony_score.
      cbn [List.length Nat.ltb Nat.leb ColorsRouter.parse_all]. rewrite E1, E2, Er. reflexivity.
    + right. right. exact (two_colours_answer hex1 hex2 c1 c2 E1 E2 Er).
  - intros c1 c2 E1 E2 G1 G2. apply (two_colours_answer hex1 hex2 c1 c2 E1 E2).
    apply harmony_score_safe. cbn [forallb]. rewrite G1, G2. reflexivity.
  - vm_compute. reflexivity.
Qed.

Lemma two_colours_rated_excellent_witness :
  ColorsRouter.parse_hex "#ff0000" = Some (255, 0, 0)%Z
  /\ ColorsRouter.parse_hex "#00ffff" = Some (0, 255, 255)%Z
  /\ (ColorsRouter.calculate_harmony_score ["#ff0000"; "#00ffff"]
      = ColorsRouter.Returns (100, "Excellent")
      \/ ColorsRouter.calculate_harmony_score ["#ff0000"; "#00ffff"]
         = ColorsRouter.Returns (85, "Excellent")).
Proof.
  assert (H1 : ColorsRouter.parse_hex "#ff0000" = Some (255, 0, 0)%Z) by reflexivity.
  assert (H2 : ColorsRouter.parse_hex "#00ffff" = Some (0, 255, 255)%Z) by reflexivity.
  split; [exact H1|]. split; [exact H2|].
  exact (proj1 (proj2 (two_colours_rated_excellent "#ff0000" "#00ffff"))
               (255, 0, 0)%Z (0, 255, 255)%Z H1 H2 eq_refl eq_refl).
Defined.

End HarmonyRange.

Section HarmonyOrder.

Import ColorHarmonyService.
Local Open Scope float_scope.

Lemma wide_harmony_table :
  forallb ScoreTables.harmony_steps_exact (ScoreTables.zrange (-1700) 3001) = true.
Proof. vm_cast_no_check (eq_refl true). Qed.

(** One step of the pairwise loop adds the adjustment of the pair. *)
Lemma adjust_adjustment (z : Z) (d : float) :
  (-1700 <= z <= 1300)%Z ->
  adjust (PyFloat.of_Z z) d = PyFloat.of_Z (z + PairSums.adjustment d).
Proof.
  intros Hz.
  pose proof (table_lookup _ _ _ wide_harmony_table z ltac:(lia)) as H.
  unfold ScoreTables.harmony_steps_exact in H.
  apply andb_true_iff in H. destruct H as [H H15].
  apply andb_true_iff in H. destruct H as [H H8].
  apply andb_true_iff in H. destruct H as [H10 H5].
  apply feq_eq in H10, H5, H8, H15.
  unfold adjust, PairSums.adjustment.
  destruct (_ && _); [exact H10|]. destruct (_ <=? 45); [exact H5|].
  destruct (_ && _); [exact H8|]. destruct (_ && _); [exact H15|].
  rewrite Z.add_0_r. reflexivity.
Qed.

Lemma adjustment_bounds (d : float) : (-15 <= PairSums.adjustment d <= 10)%Z.
Proof.
  unfold PairSums.adjustment.
  destruct (_ && _); [lia|]. destruct (_ <=? 45); [lia|].
  destruct (_ && _); [lia|]. destruct (_ && _); lia.
Qed.

Lemma total_bounds (ds : list float) :
  (- 15 * Z.of_nat (List.length ds) <= PairSums.total (map PairSums.adjustment ds)
   <= 10 * Z.of_nat (List.length ds))%Z.
Proof.
  induction ds as [|d ds IH]; cbn [map PairSums.total fold_right List.length]; [lia|].
  pose proof (adjustment_bounds d). fold (PairSums.total (map PairSums.adjustment ds)). lia.
Qed.

Lemma fold_adjust_total (ds : list float) (z : Z) :
  (-1700 <= z - 15 * Z.of_nat (List.length ds))%Z ->
  (z + 10 * Z.of_nat (List.length ds) <= 1300)%Z ->
  fold_left adjust ds (PyFloat.of_Z z)
  = PyFloat.of_Z (z + PairSums.total (map PairSums.adjustment ds)).
Proof.
  revert z. induction ds as [|d ds IH]; intros z Hlo Hhi;
    cbn [List.length fold_left map PairSums.total fold_right] in *.
  - rewrite Z.add_0_r. reflexivity.
  - fold (PairSums.total (map PairSums.adjustment ds)).
    pose proof (adjustment_bounds d).
    rewrite adjust_adjustment by lia. rewrite IH by lia. f_equal. lia.
Qed.

Lemma total_app (l1 l2 : list Z) :
  PairSums.total (l1 ++ l2) = (PairSums.total l1 + PairSums.total l2)%Z.
Proof.
  unfold PairSums.total. induction l1 as [|x l1 IH]; cbn [app fold_right]; [reflexivity|].
  rewrite IH. lia.
Qed.

Lemma pair_diffs_total (l : list RGB) :
  PairSums.total (map PairSums.adjustment (ScoreTables.pair_diffs (map rgb_to_hsl l)))
  = PairSums.pair_sum l.
Proof.
  induction l as [|c rest IH]; [reflexivity|].
  cbn [map ScoreTables.pair_diffs PairSums.pair_sum].
  rewrite map_app, total_app, IH. f_equal.
  rewrite !map_map. reflexivity.
Qed.

Lemma pair_diffs_count (l : list HSL) :
  (2 * List.length (ScoreTables.pair_diffs l) = List.length l * (List.length l - 1))%nat.
Proof.
  induction l as [|c rest IH]; [reflexivity|].
  cbn [ScoreTables.pair_diffs List.length]. rewrite length_app, length_map.
  replace (S (List.length rest) - 1)%nat with (List.length rest) by lia.
  set (n := List.length rest) in *. change (Datatypes.length rest) with n. clearbody n.
  destruct n as [|k]; [cbn in *; lia|].
  replace (S k - 1)%nat with k in IH by lia. nia.
Qed.

(** The score of a list of at most sixteen colours, in closed form. *)
Lemma harmony_score_pair_sum (l : list RGB) :
  (2 <= List.length l <= 16)%nat ->
  calculate_harmony_score l
  = clamp (PyFloat.of_Z (100 + PairSums.pair_sum l)).
Proof.
  intros Hl. unfold calculate_harmony_score.
  destruct (Nat.ltb_spec (List.length l) 2) as [Hlt|_]; [lia|].
  rewrite outer_loop_pair_diffs, <- of_Z_100.
  pose proof (pair_diffs_count (map rgb_to_hsl l)) as Hc. rewrite length_map in Hc.
  rewrite fold_adjust_total by nia. rewrite pair_diffs_total. reflexivity.
Qed.

Lemma total_map_perm {A : Type} (f : A -> Z) (l l' : list A) :
  Permutation l l' -> PairSums.total (map f l) = PairSums.total (map f l').
Proof.
  unfold PairSums.total.
  induction 1 as [|x l l' _ IH|x y l|l l' l'' _ IH1 _ IH2]; cbn [map fold_right]; lia.
Qed.

Lemma pair_adjustment_sym (c1 c2 : RGB) :
  PairSums.pair_adjustment c1 c2 = PairSums.pair_adjustment c2 c1.
Proof. unfold PairSums.pair_adjustment. rewrite hue_diff_sym. reflexivity. Qed.

Lemma pair_sum_perm (l l' : list RGB) :
  Permutation l l' -> PairSums.pair_sum l = PairSums.pair_sum l'.
Proof.
  induction 1 as [|x l l' Hp IH|x y l|l l' l'' _ IH1 _ IH2].
  - reflexivity.
  - cbn [PairSums.pair_sum]. rewrite IH, (total_map_perm _ _ _ Hp). reflexivity.
  - cbn [PairSums.pair_sum map PairSums.total fold_right].
    fold (PairSums.total (map (PairSums.pair_adjustment x) l)).
    fold (PairSums.total (map (PairSums.pair_adjustment y) l)).
    rewrite (pair_adjustment_sym y x). lia.
  - congruence.
Qed.

(** The harmony score of up to sixteen colours does not depend on the order
    in which they are listed. *)
Theorem harmony_score_order_free (l l' : list RGB) :
  Permutation l l' -> (List.length l <= 16)%nat ->
  calculate_harmony_score l = calculate_harmony_score l'.
Proof.
  intros Hp Hl. pose proof (Permutation_length Hp) as Hlen.
  destruct (Nat.ltb_spec (List.length l) 2) as [Hlt|Hge].
  - unfold calculate_harmony_score.
    destruct (Nat.ltb_spec (List.length l) 2) as [_|?]; [|lia].
    destruct (Nat.ltb_spec (List.length l') 2) as [_|?]; [|lia]. reflexivity.
  - rewrite (harmony_score_pair_sum l), (harmony_score_pair_sum l') by lia.
    rewrite (pair_sum_perm l l' Hp). reflexivity.
Qed.

Lemma harmony_score_order_free_witness :
  Permutation [(255, 0, 0); (0, 255, 0); (255, 255, 0)]%Z
              [(255, 255, 0); (255, 0, 0); (0, 255, 0)]%Z
  /\ (List.length [(255, 0, 0); (0, 255, 0); (255, 255, 0)]%Z <= 16)%nat
  /\ calculate_harmony_score [(255, 0, 0); (0, 255, 0); (255, 255, 0)]%Z
     = calculate_harmony_score [(255, 255, 0); (255, 0, 0); (0, 255, 0)]%Z.
Proof.
  assert (H1 : Permutation [(255, 0, 0); (0, 255, 0); (255, 255, 0)]%Z
                           [(255, 255, 0); (255, 0, 0); (0, 255, 0)]%Z).
  { apply Permutation_sym. apply (Permutation_cons_app [_; _] [] _). apply Permutation_refl. }
  assert (H2 : (List.length [(255, 0, 0); (0, 255, 0); (255, 255, 0)]%Z <= 16)%nat)
    by (cbn; lia).
  split; [exact H1|]. split; [exact H2|].
  exact (harmony_score_order_free _ _ H1 H2).
Defined.

End HarmonyOrder.

(** * The shape of the suggestions *)

Section SuggestionShape.

Import OutfitGeneratorService.

Lemma category_eqb_refl (c : ClothingCategory) : category_eqb c c = true.
Proof. apply category_eqb_eq. reflexivity. Qed.

Lemma lookup_upsert {V : Type} (d : list (ClothingCategory * V)) (k k' : ClothingCategory)
      (f : V -> V) (v0 : V) :
  PyList.lookup category_eqb (PyList.upsert category_eqb d k f v0) k'
  = if category_eqb k k'
    then match PyList.lookup category_eqb d k with
         | Some v => Some (f v)
         | None => Some v0
         end
    else PyList.lookup category_eqb d k'.
Proof.
  induction d as [|[c v] d IH]; cbn [PyList.upsert PyList.lookup].
  - destruct (category_eqb k k'); reflexivity.
  - destruct (category_eqb c k) eqn:Eck; cbn [PyList.lookup].
    + apply category_eqb_eq in Eck. subst c.
      destruct (category_eqb k k'); reflexivity.
    + rewrite IH. destruct (category_eqb c k') eqn:Eck'; [|reflexivity].
      apply category_eqb_eq in Eck'. subst c. rewrite category_eqb_sym, Eck. reflexivity.
Qed.

Lemma group_lookup_from (all_items : list ClothingItem) (d : by_category)
      (cat : ClothingCategory) :
  PyList.lookup category_eqb
    (fold_left (fun d item =>
                  PyList.upsert category_eqb d (category item)
                                (fun l => l ++ [item]) [item])
               all_items d) cat
  = match PyList.lookup category_eqb d cat,
          filter (fun item => category_eqb (category item) cat) all_items with
    | Some l, f => Some (l ++ f)
    | None, [] => None
    | None, f => Some f
    end.
Proof.
  revert d. induction all_items as [|item rest IH]; intros d; cbn [fold_left filter].
  - destruct (PyList.lookup category_eqb d cat); [rewrite app_nil_r|]; reflexivity.
  - rewrite IH, lookup_upsert.
    destruct (category_eqb (category item) cat) eqn:E.
    + apply category_eqb_eq in E. rewrite E.
      destruct (PyList.lookup category_eqb d cat) as [l|].
      * rewrite <- app_assoc. reflexivity.
      * reflexivity.
    + reflexivity.
Qed.

Lemma group_lookup (all_items : list ClothingItem) (cat : ClothingCategory) :
  PyList.lookup category_eqb (group_by_category all_items) cat
  = match filter (fun item => category_eqb (category item) cat) all_items with
    | [] => None
    | l => Some l
    end.
Proof.
  unfold group_by_category. rewrite group_lookup_from. cbn [PyList.lookup].
  destruct (filter _ all_items); reflexivity.
Qed.

Lemma lookup_group_Some (all_items : list ClothingItem) (cat : ClothingCategory)
      (l : list ClothingItem) :
  PyList.lookup category_eqb (group_by_category all_items) cat = Some l ->
  l = filter (fun item => category_eqb (category item) cat) all_items.
Proof.
  rewrite group_lookup. destruct (filter _ all_items); congruence.
Qed.

Lemma product_In {A : Type} (ls : list (list A)) (combo : list A) :
  In combo (PyList.product ls) -> Forall2 (fun x l => In x l) combo ls.
Proof.
  revert combo. induction ls as [|l ls IH]; intros combo H; cbn [PyList.product] in H.
  - destruct H as [<-|[]]. constructor.
  - apply in_flat_map in H. destruct H as (x & Hx & H).
    apply in_map_iff in H. destruct H as (c & <- & Hc).
    constructor; [exact Hx|apply IH, Hc].
Qed.

Lemma narrow_options_In (base_rgb : option RGB) (scheme : option string)
      (options : list ClothingItem) (x : ClothingItem) :
  In x (narrow_options base_rgb scheme options) -> In x options.
Proof.
  unfold narrow_options. destruct base_rgb as [b|]; [|auto].
  destruct (PyList.truthy scheme); [|auto].
  destruct (filter _ options) as [|y l] eqn:E; [auto|].
  rewrite <- E. intros H. apply filter_In in H. tauto.
Qed.

(** The options of the open mode: the garments of each category of the
    pattern. *)
Lemma all_category_options_spec (all_items : list ClothingItem)
      (pat : list ClothingCategory) (opts : list (list ClothingItem)) :
  all_category_options (group_by_category all_items) pat = Some opts ->
  opts = map (fun cat => filter (fun item => category_eqb (category item) cat) all_items) pat.
Proof.
  revert opts. induction pat as [|cat pat IH]; intros opts H; cbn [all_category_options map] in *.
  - congruence.
  - destruct (PyList.lookup category_eqb _ cat) as [o|] eqn:E; [|discriminate].
    destruct (all_category_options _ pat) as [others|]; [|discriminate].
    injection H as <-. rewrite (lookup_group_Some _ _ _ E), (IH others eq_refl). reflexivity.
Qed.

Lemma combo_categories (all_items : list ClothingItem) (pat : list ClothingCategory)
      (combo : list ClothingItem) :
  Forall2 (fun x l => In x l) combo
          (map (fun cat => filter (fun item => category_eqb (category item) cat) all_items) pat) ->
  map category combo = pat /\ Forall (fun x => In x all_items) combo.
Proof.
  revert combo. induction pat as [|cat pat IH]; intros combo H; cbn [map] in H.
  - inversion H; subst. split; [reflexivity|constructor].
  - inversion H as [|x l combo' ls Hx Hrest]; subst.
    apply filter_In in Hx. destruct Hx as [Hin Hc]. apply category_eqb_eq in Hc.
    destruct (IH _ Hrest) as [E F]. cbn [map]. rewrite Hc, E.
    split; [reflexivity|constructor; assumption].
Qed.

(** The options of the base mode, when every other category is present. *)
Lemma base_category_options_spec (base_rgb : option RGB) (scheme : option string)
      (all_items : list ClothingItem) (others : list ClothingCategory)
      (combo : list ClothingItem) :
  List.length (base_category_options base_rgb scheme (group_by_category all_items) others)
  = List.length others ->
  In combo (PyList.product
              (base_category_options base_rgb scheme (group_by_category all_items) others)) ->
  map category combo = others /\ Forall (fun x => In x all_items) combo.
Proof.
  revert combo. induction others as [|cat others IH]; intros combo Hlen H;
    cbn [base_category_options] in *.
  - destruct H as [<-|[]]. split; [reflexivity|constructor].
  - assert (Hle : forall l, (List.length
                               (base_category_options base_rgb scheme
                                  (group_by_category all_items) l)
                             <= List.length l)%nat).
    { induction l as [|c l IHl]; cbn [base_category_options List.length]; [lia|].
      destruct (PyList.lookup category_eqb _ c); cbn [List.length]; lia. }
    destruct (PyList.lookup category_eqb _ cat) as [options|] eqn:E.
    + cbn [List.length] in Hlen. cbn [PyList.product] in H.
      apply in_flat_map in H. destruct H as (x & Hx & H).
      apply in_map_iff in H. destruct H as (c & <- & Hc).
      apply narrow_options_In in Hx.
      rewrite (lookup_group_Some _ _ _ E) in Hx.
      apply filter_In in Hx. destruct Hx as [Hin Hcat]. apply category_eqb_eq in Hcat.
      destruct (IH c ltac:(lia) Hc) as [Em F]. cbn [map]. rewrite Hcat, Em.
      split; [reflexivity|constructor; assumption].
    + cbn [List.length] in Hlen. specialize (Hle others). lia.
Qed.

Lemma filter_by_style_In (st : option ClothingStyle) (all_items : list ClothingItem)
      (x : ClothingItem) :
  In x (filter_by_style st all_items) -> In x all_items.
Proof.
  unfold filter_by_style. destruct st as [s|]; [|auto].
  destruct (filter _ all_items) as [|y l] eqn:E; [auto|].
  rewrite <- E. intros H. apply filter_In in H. tauto.
Qed.

Lemma others_permutation (c : ClothingCategory) (pat : list ClothingCategory) :
  In pat OUTFIT_COMBINATIONS -> existsb (category_eqb c) pat = true ->
  Permutation (c :: filter (fun x => negb (category_eqb x c)) pat) pat.
Proof.
  unfold OUTFIT_COMBINATIONS. cbn [In].
  intros [H|[H|[H|[H|[H|[H|[H|[H|[]]]]]]]]] E; subst pat; destruct c; try discriminate E;
    cbn [filter negb category_eqb];
    repeat match goal with
           | |- context [category_eqb ?a ?b] =>
               let v := eval vm_compute in (category_eqb a b) in
               change (category_eqb a b) with v
           end; cbn [negb];
    first [ apply Permutation_refl
          | apply perm_swap
          | apply (Permutation_cons_app [_; _] _ _), Permutation_refl
          | apply (Permutation_cons_app [_; _; _] _ _), Permutation_refl
          | apply (Permutation_cons_app [_] _ _), Permutation_refl ].
Qed.

(** What a candidate looks like. *)
Lemma candidate_items (all_items : list ClothingItem) (base : option string)
      (st : option ClothingStyle) (scheme : option string) (s : Suggestion) :
  In s (generated_candidates all_items base st scheme) ->
  In (pattern s) OUTFIT_COMBINATIONS
  /\ Forall (fun x => In x (filter_by_style st all_items)) (items s)
  /\ (PyList.truthy base = false -> map category (items s) = pattern s)
  /\ (PyList.truthy base = true ->
      exists base_item rest,
        find (fun item => String.eqb (id item) (scheme_of base))
             (filter_by_style st all_items) = Some base_item
        /\ items s = base_item :: rest
        /\ existsb (category_eqb (category base_item)) (pattern s) = true
        /\ map category rest
           = filter (fun c => negb (category_eqb c (category base_item))) (pattern s)).
Proof.
  unfold generated_candidates. destruct all_items as [|i0 rest0]; [intros []|].
  set (all := filter_by_style st (i0 :: rest0)).
  assert (Hopen : In s (_generate_all_combinations (group_by_category all) scheme) ->
                  In (pattern s) OUTFIT_COMBINATIONS
                  /\ Forall (fun x => In x all) (items s)
                  /\ map category (items s) = pattern s).
  { unfold _generate_all_combinations. intros H.
    apply in_flat_map in H. destruct H as (pat & Hpat & H).
    unfold all_combinations_pattern in H.
    destruct (all_category_options _ pat) as [opts|] eqn:E; [|destruct H].
    apply in_flat_map in H. destruct H as (combo & Hc & H).
    destruct (passes_scheme scheme combo); [|destruct H].
    destruct H as [<-|[]]. cbn [pattern items make_suggestion].
    apply product_In in Hc. rewrite (all_category_options_spec _ _ _ E) in Hc.
    destruct (combo_categories _ _ _ Hc) as [Em F]. auto. }
  destruct base as [[|a b]|]; cbn [PyList.truthy].
  - intros H. destruct (Hopen H) as (H1 & H2 & H3).
    repeat split; try assumption; [auto|discriminate].
  - destruct (find _ all) as [base_item|] eqn:Ef; [|intros []].
    unfold _generate_from_base. intros H.
    apply in_flat_map in H. destruct H as (pat & Hpat & H).
    apply filter_In in Hpat. destruct Hpat as [Hpat Hin].
    unfold from_base_pattern in H.
    destruct (_ =? _)%nat eqn:E; [|destruct H]. apply Nat.eqb_eq in E.
    apply in_map_iff in H. destruct H as (combo & <- & Hc).
    cbn [pattern items make_suggestion].
    destruct (base_category_options_spec _ _ _ _ _ E Hc) as [Em F].
    split; [exact Hpat|]. split.
    { constructor; [|exact F]. apply find_some in Ef. tauto. }
    split; [discriminate|]. intros _.
    exists base_item, combo. cbn [scheme_of]. auto.
  - intros H. destruct (Hopen H) as (H1 & H2 & H3).
    repeat split; try assumption; [auto|discriminate].
Qed.

End SuggestionShape.

Section SuggestionClaims.

Import OutfitGeneratorService.

(** The grouping dictionary of [generate_outfit_suggestions] holds, under
    every category that occurs among the garments, the garments of that
    category in their order; a category that does not occur is not a key. *)
Theorem group_by_category_lookup (all_items : list ClothingItem) (cat : ClothingCategory) :
  PyList.lookup category_eqb (group_by_category all_items) cat
  = match filter (fun item => category_eqb (category item) cat) all_items with
    | [] => None
    | l => Some l
    end.
Proof. apply group_lookup. Qed.

(** Every suggestion follows one of the eight patterns: the categories of
    its garments are the categories of its pattern, each once; in the open
    mode they come in the order of the pattern. *)
Theorem suggestion_follows_pattern (request storage : list ClothingItem)
        (base : option string) (st : option ClothingStyle) (scheme : option string)
        (k : Z) (s : Suggestion) :
  In s (generate_outfit_suggestions request storage base st scheme k) ->
  In (pattern s) OUTFIT_COMBINATIONS
  /\ Permutation (map category (items s)) (pattern s)
  /\ (PyList.truthy base = false -> map category (items s) = pattern s).
Proof.
  intros H. apply generated_In, candidate_items in H.
  destruct H as (Hpat & _ & Hopen & Hbase).
  split; [exact Hpat|]. split; [|exact Hopen].
  destruct (PyList.truthy base) eqn:E.
  - destruct (Hbase eq_refl) as (b & rest & _ & Ei & Hex & Em).
    rewrite Ei. cbn [map]. rewrite Em. apply others_permutation; assumption.
  - rewrite (Hopen eq_refl). apply Permutation_refl.
Qed.

Lemma suggestion_follows_pattern_witness :
  let s := make_suggestion [Examples.plain_top; Examples.red_bottom] [TOP; BOTTOM] in
  In s (generate_outfit_suggestions Examples.closet [] None None None 5)
  /\ In (pattern s) OUTFIT_COMBINATIONS
  /\ Permutation (map category (items s)) (pattern s)
  /\ (PyList.truthy None = false -> map category (items s) = pattern s).
Proof.
  intros s.
  assert (H : In s (generate_outfit_suggestions Examples.closet [] None None None 5)).
  { vm_compute. left. reflexivity. }
  split; [exact H|].
  exact (suggestion_follows_pattern Examples.closet [] None None None 5 s H).
Defined.

(** In base-item mode every suggestion starts with the base item, the first
    garment with the requested id among the garments left by the style
    filter; the other garments follow in the order of the pattern. *)
Theorem base_item_comes_first (request storage : list ClothingItem)
        (base : option string) (st : option ClothingStyle) (scheme : option string)
        (k : Z) (s : Suggestion) :
  PyList.truthy base = true ->
  In s (generate_outfit_suggestions request storage base st scheme k) ->
  exists base_item rest,
    find (fun item => String.eqb (id item) (scheme_of base))
         (filter_by_style st (resolve_items request storage)) = Some base_item
    /\ items s = base_item :: rest
    /\ In (category base_item) (pattern s)
    /\ map category rest
       = filter (fun c => negb (category_eqb c (category base_item))) (pattern s).
Proof.
  intros Hb H. apply generated_In, candidate_items in H.
  destruct H as (_ & _ & _ & Hbase).
  destruct (Hbase Hb) as (b & rest & Ef & Ei & Hex & Em).
  exists b, rest. repeat split; try assumption.
  apply existsb_exists in Hex. destruct Hex as (c & Hc & E).
  apply category_eqb_eq in E. subst c. exact Hc.
Qed.

Lemma base_item_comes_first_witness :
  let s := make_suggestion [Examples.red_bottom; Examples.plain_top] [TOP; BOTTOM] in
  PyList.truthy (Some "b1"%string) = true
  /\ In s (generate_outfit_suggestions Examples.closet [] (Some "b1"%string) None None 5)
  /\ exists base_item rest,
       find (fun item => String.eqb (id item) (scheme_of (Some "b1"%string)))
            (filter_by_style None (resolve_items Examples.closet [])) = Some base_item
       /\ items s = base_item :: rest
       /\ In (category base_item) (pattern s)
       /\ map category rest
          = filter (fun c => negb (category_eqb c (category base_item))) (pattern s).
Proof.
  intros s.
  assert (H1 : PyList.truthy (Some "b1"%string) = true) by reflexivity.
  assert (H2 : In s (generate_outfit_suggestions Examples.closet []
                                                 (Some "b1"%string) None None 5)).
  { vm_compute. first [left; reflexivity | right; left; reflexivity]. }
  split; [exact H1|]. split; [exact H2|].
  exact (base_item_comes_first Examples.closet [] (Some "b1"%string) None None 5 s H1 H2).
Defined.

(** A base id that no garment left by the style filter carries gives no
    suggestion at all; this includes a base item whose own style is not the
    requested one while other garments have it. *)
Theorem unknown_base_gives_nothing (request storage : list ClothingItem)
        (base : option string) (st : option ClothingStyle) (scheme : option string) (k : Z) :
  PyList.truthy base = true ->
  find (fun item => String.eqb (id item) (scheme_of base))
       (filter_by_style st (resolve_items request storage)) = None ->
  generate_outfit_suggestions request storage base st scheme k = [].
Proof.
  intros Hb Hf. unfold generate_outfit_suggestions.
  destruct (resolve_items request storage) as [|i l] eqn:E; [reflexivity|].
  unfold generated_candidates.
  destruct base as [[|a b]|]; try discriminate Hb. cbn [scheme_of] in Hf.
  rewrite Hf. cbn [PyList.sort_reverse fold_right]. unfold PyList.slice_to.
  destruct (0 <=? k)%Z; apply firstn_nil.
Qed.

Lemma unknown_base_gives_nothing_witness :
  PyList.truthy (Some "b1"%string) = true
  /\ find (fun item => String.eqb (id item) (scheme_of (Some "b1"%string)))
          (filter_by_style (Some FORMAL) (resolve_items Wardrobe.mixed [])) = None
  /\ generate_outfit_suggestions Wardrobe.mixed [] (Some "b1"%string) (Some FORMAL) None 5 = [].
Proof.
  assert (H1 : PyList.truthy (Some "b1"%string) = true) by reflexivity.
  assert (H2 : find (fun item => String.eqb (id item) (scheme_of (Some "b1"%string)))
                    (filter_by_style (Some FORMAL) (resolve_items Wardrobe.mixed [])) = None)
    by reflexivity.
  split; [exact H1|]. split; [exact H2|].
  exact (unknown_base_gives_nothing Wardrobe.mixed [] (Some "b1"%string) (Some FORMAL) None 5 H1 H2).
Defined.

(** No pattern holds an accessory, so an accessory as base item gives no
    suggestion. *)
Theorem accessory_base_gives_nothing (request storage : list ClothingItem)
        (base : option string) (st : option ClothingStyle) (scheme : option string)
        (k : Z) (base_item : ClothingItem) :
  PyList.truthy base = true ->
  find (fun item => String.eqb (id item) (scheme_of base))
       (filter_by_style st (resolve_items request storage)) = Some base_item ->
  category base_item = ACCESSORY ->
  generate_outfit_suggestions request storage base st scheme k = [].
Proof.
  intros Hb Hf Hc. unfold generate_outfit_suggestions.
  destruct (resolve_items request storage) as [|i l] eqn:E; [reflexivity|].
  unfold generated_candidates.
  destruct base as [[|a b]|]; try discriminate Hb. cbn [scheme_of] in Hf.
  rewrite Hf. unfold _generate_from_base. rewrite Hc.
  cbn [OUTFIT_COMBINATIONS filter existsb flat_map PyList.sort_reverse fold_right].
  unfold PyList.slice_to. destruct (0 <=? k)%Z; apply firstn_nil.
Qed.

Lemma accessory_base_gives_nothing_witness :
  PyList.truthy (Some "a1"%string) = true
  /\ find (fun item => String.eqb (id item) (scheme_of (Some "a1"%string)))
          (filter_by_style None (resolve_items Wardrobe.mixed [])) = Some Wardrobe.scarf
  /\ category Wardrobe.scarf = ACCESSORY
  /\ generate_outfit_suggestions Wardrobe.mixed [] (Some "a1"%string) None None 5 = [].
Proof.
  assert (H1 : PyList.truthy (Some "a1"%string) = true) by reflexivity.
  assert (H2 : find (fun item => String.eqb (id item) (scheme_of (Some "a1"%string)))
                    (filter_by_style None (resolve_items Wardrobe.mixed []))
               = Some Wardrobe.scarf) by reflexivity.
  assert (H3 : category Wardrobe.scarf = ACCESSORY) by reflexivity.
  split; [exact H1|]. split; [exact H2|]. split; [exact H3|].
  exact (accessory_base_gives_nothing Wardrobe.mixed [] (Some "a1"%string) None None 5
                                      Wardrobe.scarf H1 H2 H3).
Defined.

(** The garments of a suggestion are garments of the wardrobe in use; when a
    style is requested and some garment has it, every garment of every
    suggestion has that style. *)
Theorem suggestions_respect_style (request storage : list ClothingItem)
        (base : option string) (st : option ClothingStyle) (scheme : option string)
        (k : Z) (s : Suggestion) :
  In s (generate_outfit_suggestions request storage base st scheme k) ->
  Forall (fun x => In x (resolve_items request storage)) (items s)
  /\ (forall wanted,
        st = Some wanted ->
        (exists x, In x (resolve_items request storage) /\ style x = wanted) ->
        Forall (fun x => style x = wanted) (items s)).
Proof.
  intros H. apply generated_In, candidate_items in H.
  destruct H as (_ & Hin & _ & _). split.
  - eapply Forall_impl; [|exact Hin]. intros x. apply filter_by_style_In.
  - intros wanted -> (x & Hx & Hs).
    eapply Forall_impl; [|exact Hin]. intros y. unfold filter_by_style.
    destruct (filter _ (resolve_items request storage)) as [|z l] eqn:E.
    + exfalso. assert (Hf : In x (filter (fun item => style_eqb (style item) wanted)
                                          (resolve_items request storage))).
      { apply filter_In. split; [exact Hx|]. apply style_eqb_eq, Hs. }
      rewrite E in Hf. destruct Hf.
    + rewrite <- E. intros Hy. apply filter_In in Hy. apply style_eqb_eq. tauto.
Qed.

Lemma suggestions_respect_style_witness :
  let s := make_suggestion [Wardrobe.formal_top; Wardrobe.formal_trousers] [TOP; BOTTOM] in
  In s (generate_outfit_suggestions Wardrobe.mixed [] None (Some FORMAL) None 5)
  /\ Some FORMAL = Some FORMAL
  /\ (exists x, In x (resolve_items Wardrobe.mixed []) /\ style x = FORMAL)
  /\ Forall (fun x => In x (resolve_items Wardrobe.mixed [])) (items s)
  /\ Forall (fun x => style x = FORMAL) (items s).
Proof.
  intros s.
  assert (H : In s (generate_outfit_suggestions Wardrobe.mixed [] None (Some FORMAL) None 5)).
  { vm_compute. left. reflexivity. }
  assert (H2 : exists x, In x (resolve_items Wardrobe.mixed []) /\ style x = FORMAL).
  { exists Wardrobe.formal_top. split; [right; right; left; reflexivity|reflexivity]. }
  split; [exact H|]. split; [reflexivity|]. split; [exact H2|].
  pose proof (suggestions_respect_style Wardrobe.mixed [] None (Some FORMAL) None 5 s H) as [A B].
  split; [exact A|]. exact (B FORMAL eq_refl H2).
Defined.

End SuggestionClaims.

Section SuggestionCounts.

Import OutfitGeneratorService.

Lemma length_product {A : Type} (ls : list (list A)) :
  List.length (PyList.product ls)
  = fold_right Nat.mul 1%nat (map (@List.length A) ls).
Proof.
  induction ls as [|l ls IH]; [reflexivity|]. cbn [PyList.product map fold_right].
  rewrite <- IH. clear IH. induction l as [|x l IHl]; [reflexivity|].
  cbn [flat_map List.length]. rewrite length_app, length_map, IHl. lia.
Qed.

Lemma length_flat_map_sum {A B : Type} (f : A -> list B) (l : list A) :
  List.length (flat_map f l)
  = fold_right Nat.add 0%nat (map (fun x => List.length (f x)) l).
Proof.
  induction l as [|x l IH]; [reflexivity|].
  cbn [flat_map map fold_right]. rewrite length_app, IH. reflexivity.
Qed.

Lemma missing_category_no_tuple (all_items : list ClothingItem)
      (pat : list ClothingCategory) :
  all_category_options (group_by_category all_items) pat = None ->
  OutfitCounts.tuples all_items pat = 0%nat.
Proof.
  unfold OutfitCounts.tuples.
  induction pat as [|cat pat IH]; cbn [all_category_options map fold_right]; [discriminate|].
  rewrite group_lookup. unfold OutfitCounts.count at 1.
  destruct (filter _ all_items) as [|x l] eqn:E; [intros _; reflexivity|].
  destruct (all_category_options _ pat); [discriminate|].
  intros _. rewrite IH by reflexivity. lia.
Qed.

Lemma pattern_tuples (all_items : list ClothingItem) (scheme : option string)
      (pat : list ClothingCategory) :
  PyList.truthy scheme = false ->
  List.length (all_combinations_pattern (group_by_category all_items) scheme pat)
  = OutfitCounts.tuples all_items pat.
Proof.
  intros Hs. unfold all_combinations_pattern.
  destruct (all_category_options _ pat) as [opts|] eqn:E.
  - rewrite (all_category_options_spec _ _ _ E).
    rewrite length_flat_map_sum.
    assert (Hp : forall combo, passes_scheme scheme combo = true)
      by (intros combo; unfold passes_scheme; rewrite Hs; reflexivity).
    rewrite (map_ext _ (fun x => List.length [make_suggestion x pat]))
      by (intros x; rewrite Hp; reflexivity).
    assert (Hone : forall (l : list (list ClothingItem)),
               fold_right Nat.add 0%nat
                          (map (fun x => List.length [make_suggestion x pat]) l)
               = List.length l).
    { induction l as [|x l IHl]; cbn [map fold_right]; [reflexivity|].
      rewrite IHl. reflexivity. }
    rewrite Hone, length_product, map_map. reflexivity.
  - symmetry. apply missing_category_no_tuple, E.
Qed.

Lemma dominant_colors_in_gamut (l : list ClothingItem) :
  Forall (fun x => OutfitCounts.colour_in_gamut x = true) l ->
  forallb in_gamut (dominant_colors_of l) = true.
Proof.
  induction l as [|x l IH]; intros H; [reflexivity|].
  inversion H as [|? ? Hx Hl]; subst. cbn [dominant_colors_of].
  unfold OutfitCounts.colour_in_gamut in Hx.
  destruct (get_dominant_rgb x) as [c|]; [|apply IH, Hl].
  cbn [forallb]. rewrite Hx. apply IH, Hl.
Qed.

(** Without a base item and without a colour scheme, for a wardrobe whose
    colours have their channels within 0..255: the harmony score of no
    candidate raises, and the number of suggestions returned for
    [max_suggestions >= 0] is the smaller of [max_suggestions] and the number
    of tuples: over the eight patterns, the product of the numbers of
    garments of the categories of the pattern, counted after the style
    filter. *)
Theorem open_mode_counts (request storage : list ClothingItem) (base : option string)
        (st : option ClothingStyle) (scheme : option string) (k : Z) :
  forallb OutfitCounts.colour_in_gamut (resolve_items request storage) = true ->
  PyList.truthy base = false -> PyList.truthy scheme = false -> (0 <= k)%Z ->
  Forall (fun s => calculate_outfit_harmony_raises (items s) = false)
         (generated_candidates (resolve_items request storage) base st scheme)
  /\ List.length (generate_outfit_suggestions request storage base st scheme k)
     = Nat.min (Z.to_nat k)
               (OutfitCounts.combinations
                  (filter_by_style st (resolve_items request storage))).
Proof.
  intros Hg Hb Hs Hk. split.
  - apply Forall_forall. intros s Hin.
    destruct (candidate_items _ _ _ _ _ Hin) as (_ & Hitems & _).
    unfold calculate_outfit_harmony_raises.
    apply harmony_score_safe, dominant_colors_in_gamut.
    eapply Forall_impl; [|exact Hitems]. intros x Hx. cbv beta.
    apply filter_by_style_In in Hx. rewrite forallb_forall in Hg. apply Hg, Hx.
  - unfold generate_outfit_suggestions.
    destruct (resolve_items request storage) as [|i l] eqn:E.
    + destruct st; cbn; lia.
    + rewrite slice_to_firstn by exact Hk. rewrite length_firstn. f_equal.
      rewrite (Permutation_length (sort_reverse_perm PrimFloat.ltb total_score _)).
      unfold generated_candidates.
      assert (Hopen : List.length (_generate_all_combinations
                                     (group_by_category (filter_by_style st (i :: l))) scheme)
                      = OutfitCounts.combinations (filter_by_style st (i :: l))).
      { unfold _generate_all_combinations, OutfitCounts.combinations.
        rewrite length_flat_map_sum. f_equal. apply map_ext.
        intros pat. apply pattern_tuples, Hs. }
      destruct base as [[|a b]|]; try discriminate Hb; exact Hopen.
Qed.

Lemma open_mode_counts_witness :
  forallb OutfitCounts.colour_in_gamut (resolve_items Examples.closet []) = true
  /\ PyList.truthy None = false /\ PyList.truthy None = false /\ (0 <= 5)%Z
  /\ Forall (fun s => calculate_outfit_harmony_raises (items s) = false)
            (generated_candidates (resolve_items Examples.closet []) None None None)
  /\ List.length (generate_outfit_suggestions Examples.closet [] None None None 5)
     = Nat.min (Z.to_nat 5)
               (OutfitCounts.combinations (filter_by_style None (resolve_items Examples.closet []))).
Proof.
  assert (H0 : forallb OutfitCounts.colour_in_gamut (resolve_items Examples.closet []) = true)
    by reflexivity.
  assert (H1 : PyList.truthy None = false) by reflexivity.
  assert (H3 : (0 <= 5)%Z) by lia.
  split; [exact H0|]. split; [exact H1|]. split; [exact H1|]. split; [exact H3|].
  exact (open_mode_counts Examples.closet [] None None None 5 H0 H1 H1 H3).
Defined.

End SuggestionCounts.

Section SuggestionScores.

Import OutfitGeneratorService.
Local Open Scope float_scope.

Lemma score_range_table :
  forallb ScoreRanges.score_in_range (ScoreTables.zrange 0 101) = true.
Proof. vm_cast_no_check (eq_refl true). Qed.

Lemma total_range_table :
  forallb (fun zh => forallb (fun j => ScoreRanges.total_in_range zh (5 * j))
                             (ScoreTables.zrange 0 21))
          (ScoreTables.zrange 0 101) = true.
Proof. vm_cast_no_check (eq_refl true). Qed.

Lemma style_step_fives (j : Z) (p : ClothingStyle * ClothingStyle) :
  (0 <= j <= 20)%Z ->
  exists j', (j - 2 <= j' <= j + 2)%Z
             /\ style_step (PyFloat.of_Z (5 * j)) p = PyFloat.of_Z (5 * j').
Proof.
  intros Hj.
  pose proof (table_lookup _ _ _ style_table (5 * j)%Z ltac:(lia)) as H.
  unfold ScoreTables.style_steps_exact in H.
  apply andb_true_iff in H. destruct H as [H Hm].
  apply andb_true_iff in H. destruct H as [H10 H5].
  apply feq_eq in H10, H5, Hm.
  destruct p as [s1 s2]. unfold style_step.
  destruct (style_eqb s1 s2).
  { exists (j + 2)%Z. split; [lia|]. rewrite H10. f_equal. lia. }
  destruct (_ || _).
  - exists (j + 1)%Z. split; [lia|]. rewrite H5. f_equal. lia.
  - exists (j - 2)%Z. split; [lia|]. rewrite Hm. f_equal. lia.
Qed.

Lemma fold_style_fives (ps : list (ClothingStyle * ClothingStyle)) (j : Z) :
  (0 <= j - 2 * Z.of_nat (List.length ps))%Z ->
  (j + 2 * Z.of_nat (List.length ps) <= 20)%Z ->
  exists j', (0 <= j' <= 20)%Z
             /\ fold_left style_step ps (PyFloat.of_Z (5 * j)) = PyFloat.of_Z (5 * j').
Proof.
  revert j. induction ps as [|p ps IH]; intros j Hlo Hhi; cbn [List.length fold_left] in *.
  - exists j. split; [lia|reflexivity].
  - destruct (style_step_fives j p ltac:(lia)) as (j1 & Hj1 & E). rewrite E.
    apply IH; lia.
Qed.

(** The style score of at most four garments is a multiple of 5 within
    [[0,100]]. *)
Lemma style_score_fives (l : list ClothingItem) :
  (List.length l <= 4)%nat ->
  exists j, (0 <= j <= 20)%Z /\ check_style_compatibility l = PyFloat.of_Z (5 * j).
Proof.
  intros Hl. unfold check_style_compatibility.
  destruct l as [|i l]; [exists 0%Z; split; [lia|reflexivity]|].
  destruct (_ =? 1)%nat; [exists 20%Z; split; [lia|reflexivity]|].
  change 50 with (PyFloat.of_Z (5 * 10)).
  set (ps := adjacent (map style (i :: l))).
  assert (Hp : (List.length ps <= 3)%nat)
    by (unfold ps; rewrite adjacent_length, length_map; cbn [List.length] in *; lia).
  destruct (fold_style_fives ps 10 ltac:(lia) ltac:(lia)) as (j1 & Hj1 & E). rewrite E.
  exists j1. split; [exact Hj1|].
  pose proof (table_lookup _ _ _ clamp_table (5 * j1)%Z ltac:(lia)) as H.
  apply feq_eq in H. unfold ColorHarmonyService.clamp in H. rewrite H. f_equal. lia.
Qed.

Lemma in_range_bounds (x : float) :
  ScoreRanges.in_range x = true -> (0 <=? x) = true /\ (x <=? 100) = true.
Proof. unfold ScoreRanges.in_range. intros H. apply andb_true_iff in H. exact H. Qed.

(** The three scores of every returned suggestion lie between 0 and 100. *)
Theorem suggestion_scores_in_range (request storage : list ClothingItem)
        (base : option string) (st : option ClothingStyle) (scheme : option string)
        (k : Z) (s : Suggestion) :
  In s (generate_outfit_suggestions request storage base st scheme k) ->
  ((0 <=? color_harmony_score s) = true /\ (color_harmony_score s <=? 100) = true)
  /\ ((0 <=? style_compatibility_score s) = true
      /\ (style_compatibility_score s <=? 100) = true)
  /\ ((0 <=? total_score s) = true /\ (total_score s <=? 100) = true).
Proof.
  intros H. apply generated_In, candidate_shape in H.
  destruct H as (l & pat & -> & Hl).
  destruct (outfit_harmony_int l Hl) as (zh & Hzh & Eh).
  destruct (style_score_fives l Hl) as (j & Hj & Es).
  unfold make_suggestion. cbn [total_score color_harmony_score style_compatibility_score].
  rewrite Eh, Es, (round2_int zh Hzh), (round2_int (5 * j) ltac:(lia)).
  split; [|split]; apply in_range_bounds.
  - exact (table_lookup _ _ _ score_range_table zh ltac:(lia)).
  - exact (table_lookup _ _ _ score_range_table (5 * j)%Z ltac:(lia)).
  - pose proof (table_lookup _ _ _ total_range_table zh ltac:(lia)) as T. cbv beta in T.
    exact (table_lookup _ _ _ T j ltac:(lia)).
Qed.

Lemma suggestion_scores_in_range_witness :
  let s := make_suggestion [Examples.plain_top; Examples.red_bottom] [TOP; BOTTOM] in
  In s (generate_outfit_suggestions Examples.closet [] None None None 5)
  /\ ((0 <=? color_harmony_score s) = true /\ (color_harmony_score s <=? 100) = true)
  /\ ((0 <=? style_compatibility_score s) = true
      /\ (style_compatibility_score s <=? 100) = true)
  /\ ((0 <=? total_score s) = true /\ (total_score s <=? 100) = true).
Proof.
  intros s.
  assert (H : In s (generate_outfit_suggestions Examples.closet [] None None None 5)).
  { vm_compute. left. reflexivity. }
  split; [exact H|].
  exact (suggestion_scores_in_range Examples.closet [] None None None 5 s H).
Defined.

End SuggestionScores.

(** * What the extraction returns and when it fails *)

Section ExtractionFacts.

Import ColorExtractionService.
Local Open Scope Z_scope.

Variable Image : Type.
Variable resized_rgba : Image -> list (Z * Z * Z * Z).
Variable get_palette : Image -> Z -> list RGB.
Variable image_of_pixels : Z -> list RGB -> Image.
Variable get_color_name : RGB -> string.

Let extract := extract_colors Image resized_rgba get_palette image_of_pixels get_color_name.
Let prepare := pixels_and_palette Image resized_rgba get_palette image_of_pixels.

(** The palette after the removal of background colours, with its
    fall-back. *)
Let kept (palette : list RGB) : list RGB :=
  match filter (fun c => negb (_is_background_color c default_threshold)) palette with
  | [] => palette
  | l => l
  end.

Lemma kept_In (palette : list RGB) (c : RGB) : In c (kept palette) -> In c palette.
Proof.
  unfold kept. destruct (filter _ palette) as [|x l] eqn:E; [auto|].
  rewrite <- E. intros H. apply filter_In in H. tauto.
Qed.

Lemma kept_not_background (palette : list RGB) (c : RGB) :
  existsb (fun c => negb (_is_background_color c default_threshold)) palette = true ->
  In c (kept palette) -> _is_background_color c default_threshold = false.
Proof.
  intros Hex. unfold kept. destruct (filter _ palette) as [|x l] eqn:E.
  - exfalso. apply existsb_exists in Hex. destruct Hex as (y & Hy & Hn).
    assert (Hf : In y (filter (fun c => negb (_is_background_color c default_threshold))
                              palette)) by (apply filter_In; auto).
    rewrite E in Hf. destruct Hf.
  - rewrite <- E. intros H. apply filter_In in H. destruct H as [_ H].
    apply negb_true_iff, H.
Qed.

Lemma kept_nil (palette : list RGB) : kept palette = [] <-> palette = [].
Proof.
  unfold kept. destruct (filter _ palette) eqn:E; split; intros H; try assumption;
    try discriminate. subst palette. discriminate E.
Qed.

Lemma extract_unfold (img : Image) (num_colors : Z) (valid palette : list RGB) :
  prepare img num_colors = Some (valid, palette) ->
  extract img num_colors
  = match count_pixels valid (kept palette) (map (fun _ => 0) (kept palette)) with
    | None => None
    | Some counts =>
        Some (PyList.slice_to
                (PyList.sort_reverse PrimFloat.ltb percentage
                   (make_colors get_color_name (kept palette) counts
                                (match valid with
                                 | [] => 1
                                 | _ => Z.of_nat (List.length valid)
                                 end)))
                num_colors)
    end.
Proof.
  unfold prepare, extract, extract_colors. intros ->. reflexivity.
Qed.

(** Every colour [extract_colors] returns is a colour of the palette it was
    given, with the hex code and the name of that colour; and unless the
    whole palette consists of background colours, no returned colour is a
    background colour. *)
Theorem extracted_colors_come_from_palette (img : Image) (num_colors : Z)
        (valid palette : list RGB) (colors : list ColorInfo) :
  pixels_and_palette Image resized_rgba get_palette image_of_pixels img num_colors
  = Some (valid, palette) ->
  extract_colors Image resized_rgba get_palette image_of_pixels get_color_name
                 img num_colors = Some colors ->
  Forall (fun ci => In (rgb ci) palette
                    /\ hex ci = rgb_to_hex (rgb ci)
                    /\ name ci = get_color_name (rgb ci)) colors
  /\ (existsb (fun c => negb (_is_background_color c default_threshold)) palette = true ->
      Forall (fun ci => _is_background_color (rgb ci) default_threshold = false) colors).
Proof.
  intros Hp H. fold extract in H. rewrite (extract_unfold _ _ _ _ Hp) in H.
  destruct (count_pixels valid (kept palette) _) as [counts|]; [|discriminate].
  injection H as <-.
  assert (Hin : forall ci,
             In ci (PyList.slice_to
                      (PyList.sort_reverse PrimFloat.ltb percentage
                         (make_colors get_color_name (kept palette) counts
                            (match valid with
                             | [] => 1
                             | _ => Z.of_nat (List.length valid)
                             end))) num_colors) ->
             In (rgb ci) (kept palette)
             /\ hex ci = rgb_to_hex (rgb ci) /\ name ci = get_color_name (rgb ci)).
  { intros ci Hci. apply In_slice_to in Hci.
    apply (Permutation_in _ (sort_reverse_perm PrimFloat.ltb percentage _)) in Hci.
    unfold make_colors in Hci. apply in_map_iff in Hci.
    destruct Hci as ([c count] & <- & Hc). apply in_combine_l in Hc.
    cbn [rgb hex name]. auto. }
  split.
  - apply Forall_forall. intros ci Hci. destruct (Hin ci Hci) as (H1 & H2 & H3).
    split; [apply kept_In, H1|auto].
  - intros Hex. apply Forall_forall. intros ci Hci. destruct (Hin ci Hci) as (H1 & _).
    apply (kept_not_background palette); assumption.
Qed.

Lemma closest_from_range (pixel : RGB) (palette : list RGB) (idx : nat)
      (min_dist : float) (closest_idx : nat) :
  closest_from pixel palette idx min_dist closest_idx = closest_idx
  \/ (idx <= closest_from pixel palette idx min_dist closest_idx
      < idx + List.length palette)%nat.
Proof.
  revert idx min_dist closest_idx.
  induction palette as [|p rest IH]; intros idx min_dist closest_idx;
    cbn [closest_from List.length]; [left; reflexivity|].
  destruct (PrimFloat.ltb _ min_dist).
  - right. destruct (IH (S idx) (color_distance pixel p) idx) as [E|E]; [rewrite E|]; lia.
  - destruct (IH (S idx) min_dist closest_idx) as [E|E]; [left; exact E|right; lia].
Qed.

Lemma closest_index_lt (pixel : RGB) (palette : list RGB) :
  palette <> [] -> (closest_index pixel palette < List.length palette)%nat.
Proof.
  intros H. unfold closest_index.
  destruct (closest_from_range pixel palette 0 infinity 0) as [E|E]; [rewrite E|lia].
  destruct palette; [congruence|cbn; lia].
Qed.

Lemma increment_Some (counts : list Z) (i : nat) :
  (i < List.length counts)%nat ->
  exists counts', increment counts i = Some counts'
                  /\ List.length counts' = List.length counts.
Proof.
  revert i. induction counts as [|c rest IH]; intros i Hi; cbn [List.length] in Hi; [lia|].
  destruct i as [|j]; cbn [increment].
  - eexists. split; [reflexivity|reflexivity].
  - destruct (IH j ltac:(lia)) as (r & -> & Hl). eexists. split; [reflexivity|].
    cbn [List.length]. lia.
Qed.

Lemma count_pixels_Some (pixels palette : list RGB) (counts : list Z) :
  palette <> [] -> List.length counts = List.length palette ->
  exists counts', count_pixels pixels palette counts = Some counts'.
Proof.
  intros Hne. revert counts. induction pixels as [|px rest IH]; intros counts Hl;
    cbn [count_pixels]; [eexists; reflexivity|].
  destruct (increment_Some counts (closest_index px palette)) as (c1 & -> & Hl1).
  { rewrite Hl. apply closest_index_lt, Hne. }
  apply IH. lia.
Qed.

(** Once the pixels and the palette are there, [extract_colors] fails in
    one case only: the palette is empty while there are pixels to count. *)
Theorem extract_colors_fails_on_empty_palette (img : Image) (num_colors : Z)
        (valid palette : list RGB) :
  pixels_and_palette Image resized_rgba get_palette image_of_pixels img num_colors
  = Some (valid, palette) ->
  (extract_colors Image resized_rgba get_palette image_of_pixels get_color_name
                  img num_colors = None
   <-> palette = [] /\ valid <> []).
Proof.
  intros Hp. fold extract. rewrite (extract_unfold _ _ _ _ Hp).
  destruct palette as [|c palette].
  - change (kept []) with (@nil RGB). cbn [map].
    destruct valid as [|px rest]; cbn [count_pixels increment].
    + split; [discriminate|intros [_ H]; congruence].
    + split; [intros _; split; [reflexivity|discriminate]|reflexivity].
  - assert (Hk : kept (c :: palette) <> [])
      by (intros H; apply (proj1 (kept_nil _)) in H; discriminate H).
    destruct (count_pixels_Some valid (kept (c :: palette))
                                (map (fun _ => 0) (kept (c :: palette))) Hk
                                (length_map _ _)) as (counts & ->).
    split; [discriminate|intros [H _]; discriminate H].
Qed.

End ExtractionFacts.

Section ExtractionWitnesses.

Import ColorExtractionService.
Local Open Scope string_scope.
Local Open Scope Z_scope.

Lemma extracted_colors_come_from_palette_witness :
  let img := [(250, 5, 5, 255); (0, 0, 200, 255); (255, 255, 255, 255); (250, 5, 5, 255)] in
  let palette := [(0, 0, 200); (250, 5, 5); (255, 255, 255)] in
  let colors :=
    [mkColorInfo "#fa0505" (250, 5, 5) "unnamed" 66.67%float;
     mkColorInfo "#0000c8" (0, 0, 200) "unnamed" 33.33%float] in
  pixels_and_palette (list (Z * Z * Z * Z)) (fun img => img)
                     Examples.fixed_palette Examples.square_image img 5
  = Some ([(250, 5, 5); (0, 0, 200); (250, 5, 5)], palette)
  /\ extract_colors (list (Z * Z * Z * Z)) (fun img => img)
                    Examples.fixed_palette Examples.square_image Examples.no_name img 5
     = Some colors
  /\ Forall (fun ci => In (rgb ci) palette
                       /\ hex ci = rgb_to_hex (rgb ci)
                       /\ name ci = Examples.no_name (rgb ci)) colors
  /\ (existsb (fun c => negb (_is_background_color c default_threshold)) palette = true ->
      Forall (fun ci => _is_background_color (rgb ci) default_threshold = false) colors).
Proof.
  intros img palette colors.
  assert (H1 : pixels_and_palette (list (Z * Z * Z * Z)) (fun img => img)
                 Examples.fixed_palette Examples.square_image img 5
               = Some ([(250, 5, 5); (0, 0, 200); (250, 5, 5)], palette)) by reflexivity.
  assert (H2 : extract_colors (list (Z * Z * Z * Z)) (fun img => img)
                 Examples.fixed_palette Examples.square_image Examples.no_name img 5
               = Some colors) by (vm_compute; reflexivity).
  split; [exact H1|]. split; [exact H2|].
  exact (extracted_colors_come_from_palette
           (list (Z * Z * Z * Z)) (fun img => img) Examples.fixed_palette
           Examples.square_image Examples.no_name img 5
           [(250, 5, 5); (0, 0, 200); (250, 5, 5)] palette colors H1 H2).
Defined.

Lemma extract_colors_fails_on_empty_palette_witness :
  pixels_and_palette (list (Z * Z * Z * Z)) (fun img => img)
                     (fun _ _ => []) Examples.square_image [(200, 30, 30, 255)] 5
  = Some ([(200, 30, 30)], [])
  /\ (extract_colors (list (Z * Z * Z * Z)) (fun img => img)
                     (fun _ _ => []) Examples.square_image Examples.no_name
                     [(200, 30, 30, 255)] 5 = None
      <-> @nil RGB = [] /\ [(200, 30, 30)] <> []).
Proof.
  assert (H1 : pixels_and_palette (list (Z * Z * Z * Z)) (fun img => img)
                 (fun _ _ => []) Examples.square_image [(200, 30, 30, 255)] 5
               = Some ([(200, 30, 30)], [])) by reflexivity.
  split; [exact H1|].
  exact (extract_colors_fails_on_empty_palette
           (list (Z * Z * Z * Z)) (fun img => img) (fun _ _ => []) Examples.square_image
           Examples.no_name [(200, 30, 30, 255)] 5 [(200, 30, 30)] [] H1).
Defined.

End ExtractionWitnesses.

(** * The tags of a garment *)

Section TagFacts.

Import ClosetRouter.
Local Open Scope string_scope.

Lemma split_nonempty (sep : ascii) (s : string) : split sep s <> [].
Proof.
  destruct s as [|c rest]; cbn [split]; [discriminate|].
  destruct (Ascii.eqb c sep); [discriminate|]. destruct (split sep rest); discriminate.
Qed.

Lemma split_no_separator (sep : ascii) (s piece : string) (c : ascii) :
  In piece (split sep s) -> In c (list_ascii_of_string piece) -> c <> sep.
Proof.
  revert piece. induction s as [|a rest IH]; intros piece Hp Hc; cbn [split] in Hp.
  - destruct Hp as [<-|[]]. destruct Hc.
  - destruct (Ascii.eqb a sep) eqn:E.
    + destruct Hp as [<-|Hp]; [destruct Hc|]. exact (IH piece Hp Hc).
    + destruct (split sep rest) as [|p ps] eqn:Es; [destruct (split_nonempty _ _ Es)|].
      destruct Hp as [<-|Hp].
      * cbn [list_ascii_of_string] in Hc. destruct Hc as [<-|Hc].
        -- intros ->. rewrite Ascii.eqb_refl in E. discriminate E.
        -- apply (IH p); [left; reflexivity|exact Hc].
      * apply (IH piece); [right; exact Hp|exact Hc].
Qed.

Lemma lstrip_In (s : string) (c : ascii) :
  In c (list_ascii_of_string (lstrip s)) -> In c (list_ascii_of_string s).
Proof.
  induction s as [|a rest IH]; cbn [lstrip]; [auto|].
  destruct (is_whitespace a); [|auto]. intros H. right. apply IH, H.
Qed.

Lemma rstrip_In (s : string) (c : ascii) :
  In c (list_ascii_of_string (rstrip s)) -> In c (list_ascii_of_string s).
Proof.
  induction s as [|a rest IH]; cbn [rstrip]; [auto|].
  destruct (rstrip rest) as [|b r].
  - destruct (is_whitespace a); cbn [list_ascii_of_string In]; tauto.
  - cbn [list_ascii_of_string In] in *. tauto.
Qed.

Lemma lstrip_head (s : string) (c : ascii) (rest : string) :
  lstrip s = String c rest -> is_whitespace c = false.
Proof.
  induction s as [|a s IH]; cbn [lstrip]; [discriminate|].
  destruct (is_whitespace a) eqn:E; [exact IH|]. intros H. injection H as <- _. exact E.
Qed.

Lemma rstrip_head (s : string) (c : ascii) (rest : string) :
  rstrip s = String c rest -> exists rest', s = String c rest'.
Proof.
  destruct s as [|a s]; cbn [rstrip]; [discriminate|].
  destruct (rstrip s); [destruct (is_whitespace a); [discriminate|]|];
    intros H; injection H as <- _; eexists; reflexivity.
Qed.

Lemma rstrip_last (s body : string) (c : ascii) :
  rstrip s = body ++ String c EmptyString -> is_whitespace c = false.
Proof.
  revert body. induction s as [|a s IH]; intros body; cbn [rstrip].
  - destruct body; discriminate.
  - destruct (rstrip s) as [|b r].
    + destruct (is_whitespace a) eqn:E; [destruct body; discriminate|].
      destruct body as [|x body]; cbn [String.append].
      * intros H. injection H as <-. exact E.
      * intros H. injection H as _ H. destruct body; discriminate H.
    + destruct body as [|x body]; cbn [String.append].
      * intros H. discriminate H.
      * intros H. injection H as _ H. apply (IH body). exact H.
Qed.

(** Every tag the upload route stores is non-empty, contains no comma, and
    neither begins nor ends with white space. *)
Theorem parse_tags_clean (tags t : string) :
  In t (parse_tags tags) ->
  t <> EmptyString
  /\ (forall c, In c (list_ascii_of_string t) -> c <> ","%char)
  /\ (forall c rest, t = String c rest -> is_whitespace c = false)
  /\ (forall body c, t = body ++ String c EmptyString -> is_whitespace c = false).
Proof.
  unfold parse_tags. destruct tags as [|a tags']; [intros []|].
  set (tags := String a tags'). intros H.
  apply in_flat_map in H. destruct H as (piece & Hp & H).
  destruct (strip piece) as [|x r] eqn:E; [destruct H|].
  destruct H as [<-|[]]. rewrite <- E.
  split; [rewrite E; discriminate|]. split; [|split].
  - intros c Hc. unfold strip in Hc. apply rstrip_In, lstrip_In in Hc.
    exact (split_no_separator _ _ _ _ Hp Hc).
  - intros c rest Hc. unfold strip in Hc.
    destruct (rstrip_head _ _ _ Hc) as (rest' & Hl). exact (lstrip_head _ _ _ Hl).
  - intros body c Hc. unfold strip in Hc. exact (rstrip_last _ _ _ Hc).
Qed.

Lemma parse_tags_clean_witness :
  In "wool" (parse_tags " summer , wool ,, xl ")
  /\ "wool" <> EmptyString
  /\ (forall c, In c (list_ascii_of_string "wool") -> c <> ","%char)
  /\ (forall c rest, "wool" = String c rest -> is_whitespace c = false)
  /\ (forall body c, "wool" = body ++ String c EmptyString -> is_whitespace c = false).
Proof.
  assert (H : In "wool" (parse_tags " summer , wool ,, xl ")).
  { vm_compute. right. left. reflexivity. }
  split; [exact H|]. exact (parse_tags_clean " summer , wool ,, xl " "wool" H).
Defined.

End TagFacts.
